(** * Venturi flowmeter firmware (Main_Firmware.ino): signal conditioning
      and fallback pipeline.

    The firmware targets the Arduino Uno (ATmega328P, avr-gcc): [int] is a
    16-bit and [long] a 32-bit two's-complement integer, and both [float] and
    [double] are IEEE-754 binary32.  Integers are embedded as [Z] with the
    wrap-around written out; floating-point values as [spec_float] at
    precision 24 and maximal exponent 128, with the correctly rounded
    operations of the standard library's [SpecFloat] (round to nearest,
    ties to even); [sqrt] of the C library is taken as correctly rounded.
    The sensor is the sequence of the values its calls return.  Serial and
    LCD output is left out, except for the two mode-change notices. *)

From Stdlib Require Import ZArith Bool List Lia Reals Lra.
From Stdlib Require Import Floats.SpecFloat.
Import ListNotations.

Local Open Scope Z_scope.

(** ** Machine integers of the AVR target *)

Definition wrap (bits : Z) (z : Z) : Z :=
  (z + 2 ^ (bits - 1)) mod 2 ^ bits - 2 ^ (bits - 1).

(** [int]: 16 bits. *)
Definition wrap_int (z : Z) : Z := wrap 16 z.
(** [long]: 32 bits. *)
Definition wrap_long (z : Z) : Z := wrap 32 z.

Definition LONG_MIN : Z := - 2 ^ 31.
Definition LONG_MAX : Z := 2 ^ 31 - 1.

Definition in_long (z : Z) : Prop := LONG_MIN <= z <= LONG_MAX.

(** Arduino.h: [#define abs(x) ((x)>0?(x):-(x))], here at type [long]. *)
Definition abs_long (x : Z) : Z := if 0 <? x then x else wrap_long (- x).

(** ** binary32 arithmetic *)

Module F32.

Definition prec : Z := 24.
Definition emax : Z := 128.

Definition float : Type := spec_float.

Definition add : float -> float -> float := SFadd prec emax.
Definition sub : float -> float -> float := SFsub prec emax.
Definition mul : float -> float -> float := SFmul prec emax.
Definition div : float -> float -> float := SFdiv prec emax.
Definition sqrt : float -> float := SFsqrt prec emax.
Definition opp : float -> float := SFopp.

Definition ltb : float -> float -> bool := SFltb.
Definition leb : float -> float -> bool := SFleb.
Definition eqb : float -> float -> bool := SFeqb.

Definition zero : float := S754_zero false.

(** Conversion of an integer to [float] (round to nearest even). *)
Definition of_Z (z : Z) : float := binary_normalize prec emax z 0 false.

(** A decimal literal [n / d] with both parts below [2^24]: the binary32
    number nearest to the quotient. *)
Definition lit (n d : Z) : float := div (of_Z n) (of_Z d).

(** Truncation toward zero, the value of a cast to an integer type.  The
    cast is undefined in C outside the range of the target type and on
    infinities and NaN; [trunc] is [None] on the latter. *)
Definition trunc (f : float) : option Z :=
  match f with
  | S754_zero _ => Some 0
  | S754_finite s m e =>
      let a := match e with
               | Zneg p => Z.shiftr (Zpos m) (Zpos p)
               | _ => Z.shiftl (Zpos m) e
               end in
      Some (if s then - a else a)
  | _ => None
  end.

(** [(long) f] is defined exactly when [f] truncates into the range of
    [long]. *)
Definition long_castable (f : float) : bool :=
  match trunc f with
  | Some z => (LONG_MIN <=? z) && (z <=? LONG_MAX)
  | None => false
  end.

(** [(long) f]; outside [long_castable] the C cast is undefined and the
    model yields [LONG_MIN]. *)
Definition to_long (f : float) : Z :=
  match trunc f with
  | Some z => if (LONG_MIN <=? z) && (z <=? LONG_MAX) then z else LONG_MIN
  | None => LONG_MIN
  end.

Definition is_nan (f : float) : bool :=
  match f with S754_nan => true | _ => false end.

(** Arduino.h: [#define abs(x) ((x)>0?(x):-(x))], here at type [float]. *)
Definition abs (x : float) : float := if ltb zero x then x else opp x.

End F32.

Abbreviation float := F32.float.

(** ** Configuration section *)

(** The calibration range is the part of the configuration the operator
    edits after running the calibration sketch. *)
Record Calibration : Type := {
  SENSOR_RAW_MIN : Z;   (* const long *)
  SENSOR_RAW_MAX : Z    (* const long *)
}.

Definition configured : Calibration :=
  {| SENSOR_RAW_MIN := 510; SENSOR_RAW_MAX := 9230 |}.

Definition H_MAX_METERS : float := F32.lit 145 1000.
Definition PIPE_D1_METERS : float := F32.lit 254 10000.
Definition PIPE_D2_METERS : float := F32.lit 127 10000.
Definition FLUID_DENSITY : float := F32.of_Z 1000.
Definition MANOMETER_DENSITY : float := F32.lit 1225 1000.
Definition DISCHARGE_COEFF : float := F32.lit 97 100.
Definition EMA_ALPHA : float := F32.lit 1 10.
Definition MIN_FLOW_HEIGHT : float := F32.lit 1 1000.

Definition EXTREME_MIN : Z := 0.
Definition EXTREME_MAX : Z := 15000.
Definition MAX_FAILURES : Z := 5.

Definition HEIGHT_STEPS : list float :=
  [ F32.lit 0 1000; F32.lit 10 1000; F32.lit 20 1000; F32.lit 30 1000;
    F32.lit 40 1000; F32.lit 50 1000; F32.lit 60 1000; F32.lit 70 1000;
    F32.lit 80 1000; F32.lit 90 1000; F32.lit 100 1000; F32.lit 110 1000;
    F32.lit 120 1000; F32.lit 130 1000; F32.lit 140 1000; F32.lit 145 1000 ].

Definition HEIGHT_STEPS_COUNT : Z := Z.of_nat (length HEIGHT_STEPS).

Definition GRAVITY : float := F32.lit 981 100.
Definition DENSITY_DIFF : float := F32.sub FLUID_DENSITY MANOMETER_DENSITY.

(** Arduino.h: [#define PI 3.1415926535897932384626433832795]; the nearest
    binary32 number is [13176795 * 2^-22]. *)
Definition PI : float := S754_finite false 13176795 (-22).

(** [pow(x, 2)] of the C library, taken as the correctly rounded square. *)
Definition pow2 (x : float) : float := F32.mul x x.

Definition AREA_1 : float :=
  F32.mul PI (pow2 (F32.div PIPE_D1_METERS (F32.of_Z 2))).
Definition AREA_2 : float :=
  F32.mul PI (pow2 (F32.div PIPE_D2_METERS (F32.of_Z 2))).
Definition AREA_RATIO_SQ : float := pow2 (F32.div AREA_2 AREA_1).
Definition FLOW_CONSTANT : float :=
  F32.mul (F32.mul DISCHARGE_COEFF AREA_2)
    (F32.sqrt (F32.div (F32.div (F32.of_Z 2) FLUID_DENSITY)
                       (F32.sub (F32.of_Z 1) AREA_RATIO_SQ))).


(** ** Global state variables *)

Record State : Type := {
  filteredReading : float;   (* EMA filter state *)
  lastValidHeight : float;   (* last valid height, for fallback *)
  failureCount : Z;          (* int: consecutive failed reads *)
  inFallbackMode : bool      (* fallback status flag *)
}.

Definition initial_state : State :=
  {| filteredReading := F32.zero;
     lastValidHeight := F32.zero;
     failureCount := 0;
     inFallbackMode := false |}.

(** The two notifications [loop] prints on the serial line when the mode
    changes. *)
Inductive Notice : Type :=
  | FallbackActivated
  | NormalRestored.

(** What one cycle hands to [displayData] and [outputSerialData]. *)
Record Frame : Type := {
  rawValue : Z;
  isValid : bool;
  heightCalculated : float;
  heightSnapped : float;
  pressureDiff : float;
  flowRate : float;
  notice : option Notice
}.

(** ** Validation and processing functions *)

(** [maxDelta = (SENSOR_RAW_MAX - SENSOR_RAW_MIN) * 0.5], a [long]. *)
Definition maxDelta (cal : Calibration) : Z :=
  F32.to_long
    (F32.mul (F32.of_Z (wrap_long (SENSOR_RAW_MAX cal - SENSOR_RAW_MIN cal)))
             (F32.lit 5 10)).

(** [validateReading] reads the global [filteredReading], passed here as
    [filtered]. *)
Definition validateReading (cal : Calibration) (filtered : float)
    (rawValue : Z) : bool :=
  if (rawValue <? EXTREME_MIN) || (EXTREME_MAX <? rawValue) then false
  else if F32.ltb F32.zero filtered then
    let delta := abs_long (wrap_long (rawValue - F32.to_long filtered)) in
    if maxDelta cal <? delta then false else true
  else true.

(** The body of the [for] loop of [snapToRealisticValue], over the entries
    of the table that are still to be visited; the pair is
    [(minDifference, nearestValue)]. *)
Fixpoint snap_loop (calculatedHeight : float) (steps : list float)
    (acc : float * float) : float * float :=
  match steps with
  | [] => acc
  | step :: rest =>
      let difference := F32.abs (F32.sub calculatedHeight step) in
      snap_loop calculatedHeight rest
        (if F32.ltb difference (fst acc) then (difference, step) else acc)
  end.

Definition snap_in (steps : list float) (calculatedHeight : float) : float :=
  snd (snap_loop calculatedHeight steps (F32.of_Z 1000, calculatedHeight)).

Definition snapToRealisticValue (calculatedHeight : float) : float :=
  snap_in HEIGHT_STEPS calculatedHeight.

(** The flow formula for a given [FLOW_CONSTANT], which the firmware
    computes once at start-up. *)
Definition flow_with (K : float) (height : float) : float :=
  if F32.ltb height MIN_FLOW_HEIGHT then F32.zero
  else
    let pressureDiff := F32.mul (F32.mul DENSITY_DIFF GRAVITY) height in
    let pressureDiff :=
      if F32.ltb pressureDiff F32.zero then F32.zero else pressureDiff in
    let flowRateCubicMeters := F32.mul K (F32.sqrt pressureDiff) in
    F32.mul flowRateCubicMeters (F32.of_Z 1000).

Definition calculateFlowRate (height : float) : float :=
  flow_with FLOW_CONSTANT height.

(** ** Filter and height mapping *)

(** [(EMA_ALPHA * raw) + ((1.0 - EMA_ALPHA) * filteredReading)]. *)
Definition ema (filtered : float) (raw : Z) : float :=
  F32.add (F32.mul EMA_ALPHA (F32.of_Z raw))
          (F32.mul (F32.sub (F32.of_Z 1) EMA_ALPHA) filtered).

(** Arduino.h:
    [#define constrain(amt,low,high) ((amt)<(low)?(low):((amt)>(high)?(high):(amt)))]
    with a [float] amount and [long] bounds. *)
Definition constrain (amt : float) (low high : Z) : float :=
  if F32.ltb amt (F32.of_Z low) then F32.of_Z low
  else if F32.ltb (F32.of_Z high) amt then F32.of_Z high
  else amt.

(** The divisor of the height mapping,
    [(float)(SENSOR_RAW_MAX - SENSOR_RAW_MIN)]. *)
Definition span (cal : Calibration) : float :=
  F32.of_Z (wrap_long (SENSOR_RAW_MAX cal - SENSOR_RAW_MIN cal)).

(** Lines 177-183 of [loop]: clamp, normalise, scale. *)
Definition mapHeight (cal : Calibration) (filtered : float) : float :=
  let clampedValue :=
    constrain filtered (SENSOR_RAW_MIN cal) (SENSOR_RAW_MAX cal) in
  let normalizedValue :=
    F32.div (F32.sub clampedValue (F32.of_Z (SENSOR_RAW_MIN cal)))
            (span cal) in
  F32.mul normalizedValue H_MAX_METERS.

(** ** Main loop: one cycle on the reading [raw] *)

Definition loop (cal : Calibration) (st : State) (raw : Z) : State * Frame :=
  let valid := validateReading cal (filteredReading st) raw in
  let '(st', hCalc, hSnap, note) :=
    if valid then
      let filtered := ema (filteredReading st) raw in
      let hCalc := mapHeight cal filtered in
      let hSnap := snapToRealisticValue hCalc in
      ({| filteredReading := filtered;
          lastValidHeight := hSnap;
          failureCount := 0;
          inFallbackMode := false |},
       hCalc, hSnap,
       if inFallbackMode st then Some NormalRestored else None)
    else
      let count := wrap_int (failureCount st + 1) in
      let enter := negb (inFallbackMode st) && (MAX_FAILURES <=? count) in
      ({| filteredReading := filteredReading st;
          lastValidHeight := lastValidHeight st;
          failureCount := count;
          inFallbackMode := if enter then true else inFallbackMode st |},
       lastValidHeight st, lastValidHeight st,
       if enter then Some FallbackActivated else None) in
  let p := F32.mul (F32.mul DENSITY_DIFF GRAVITY) hSnap in
  let p := if F32.ltb p F32.zero then F32.zero else p in
  (st',
   {| rawValue := raw;
      isValid := valid;
      heightCalculated := hCalc;
      heightSnapped := hSnap;
      pressureDiff := p;
      flowRate := calculateFlowRate hSnap;
      notice := note |}).

(** ** Initialisation *)

(** One iteration of the loop of [stabilizeFilter]. *)
Definition stabilize_step (filtered : float) (reading : Z) : float :=
  if 0 <=? reading then ema filtered reading else filtered.

(** [stabilizeFilter(samples)], reading the sensor from its call [from] on. *)
Fixpoint stabilizeFilter (samples : nat) (sensor : nat -> Z) (from : nat)
    (filtered : float) : float :=
  match samples with
  | O => filtered
  | S n =>
      stabilizeFilter n sensor (S from) (stabilize_step filtered (sensor from))
  end.

(** [initializeSystem]: the sensor is the sequence of the values its calls
    return since power-up. *)
Definition initializeSystem (cal : Calibration) (sensor : nat -> Z)
    (st : State) : State :=
  let initialValue := sensor O in
  let seed :=
    if validateReading cal (filteredReading st) initialValue
    then F32.of_Z initialValue
    else F32.div
           (F32.of_Z (wrap_long (SENSOR_RAW_MIN cal + SENSOR_RAW_MAX cal)))
           (F32.of_Z 2) in
  {| filteredReading := stabilizeFilter 20 sensor 1 seed;
     lastValidHeight := lastValidHeight st;
     failureCount := failureCount st;
     inFallbackMode := inFallbackMode st |}.

Definition setup (cal : Calibration) (sensor : nat -> Z) : State :=
  initializeSystem cal sensor initial_state.

(** The cycles of [loop] on a list of readings, with the frames they
    report. *)
Fixpoint cycles (cal : Calibration) (st : State) (raws : list Z)
    : State * list Frame :=
  match raws with
  | [] => (st, [])
  | raw :: rest =>
      let '(st1, fr) := loop cal st raw in
      let '(st2, frs) := cycles cal st1 rest in
      (st2, fr :: frs)
  end.

(** The program: [setup], then [n] cycles; the sensor calls [21], [22], ...
    are those of the cycles. *)
Definition run (cal : Calibration) (sensor : nat -> Z) (n : nat)
    : State * list Frame :=
  cycles cal (setup cal sensor) (map (fun i => sensor (21 + i)%nat) (seq 0 n)).


(** * The calibration sketch (Calibration_Code.ino) *)

Module CalibrationCode.

Definition EMA_ALPHA : float := F32.lit 1 10.

(** The globals of the sketch. *)
Record State : Type := {
  filteredValue : float;   (* filter state *)
  maxReading : Z;          (* long *)
  minReading : Z;          (* long *)
  sumReadings : Z;         (* long *)
  sampleCount : Z          (* unsigned int, 16 bits *)
}.

Definition power_up : State :=
  {| filteredValue := F32.zero;
     maxReading := 0;
     minReading := 999999;
     sumReadings := 0;
     sampleCount := 0 |}.

(** [(EMA_ALPHA * reading) + ((1.0 - EMA_ALPHA) * filteredValue)]. *)
Definition ema (filtered : float) (reading : Z) : float :=
  F32.add (F32.mul EMA_ALPHA (F32.of_Z reading))
          (F32.mul (F32.sub (F32.of_Z 1) EMA_ALPHA) filtered).

Definition with_filter (st : State) (f : float) : State :=
  {| filteredValue := f;
     maxReading := maxReading st;
     minReading := minReading st;
     sumReadings := sumReadings st;
     sampleCount := sampleCount st |}.

Definition initializeSensor (initialReading : Z) (st : State) : State :=
  with_filter st
    (if initialReading <? 0 then F32.of_Z 0 else F32.of_Z initialReading).

(** The 20 iterations of [stabilizeFilter], on the sensor calls from
    [from] on. *)
Fixpoint stabilize (samples : nat) (sensor : nat -> Z) (from : nat)
    (filtered : float) : float :=
  match samples with
  | O => filtered
  | S n =>
      let reading := sensor from in
      stabilize n sensor (S from)
        (if 0 <=? reading then ema filtered reading else filtered)
  end.

Definition stabilizeFilter (sensor : nat -> Z) (from : nat) (st : State)
    : State :=
  with_filter st (stabilize 20 sensor from (filteredValue st)).

(** A line of the CSV block: sample number, raw reading and filtered
    reading (the elapsed seconds, read from the clock, are left out). *)
Record Row : Type := {
  row_sample : Z;
  row_raw : Z;
  row_filtered : Z
}.

Definition collectData (st : State) (reading : Z) : State * Row :=
  let rawReading :=
    if reading <? 0 then F32.to_long (filteredValue st) else reading in
  let filtered := ema (filteredValue st) rawReading in
  let filteredInt := F32.to_long filtered in
  let count := (sampleCount st + 1) mod 2 ^ 16 in
  ({| filteredValue := filtered;
      maxReading :=
        if maxReading st <? filteredInt then filteredInt else maxReading st;
      minReading :=
        if filteredInt <? minReading st then filteredInt else minReading st;
      sumReadings := wrap_long (sumReadings st + filteredInt);
      sampleCount := count |},
   {| row_sample := count; row_raw := rawReading;
      row_filtered := filteredInt |}).

(** What [printCalibrationResults] prints. *)
Record Summary : Type := {
  total_samples : Z;
  MIN_reading : Z;
  MAX_reading : Z;
  AVERAGE : Z;
  RANGE : Z
}.

Definition printCalibrationResults (st : State) : Summary :=
  {| total_samples := sampleCount st;
     MIN_reading := minReading st;
     MAX_reading := maxReading st;
     AVERAGE :=
       if 0 <? sampleCount st
       then Z.quot (sumReadings st) (sampleCount st) else 0;
     RANGE := wrap_long (maxReading st - minReading st) |}.

Definition setup (sensor : nat -> Z) : State :=
  stabilizeFilter sensor 1 (initializeSensor (sensor O) power_up).

(** The calls of [collectData] on a list of readings. *)
Fixpoint collect (st : State) (readings : list Z) : State * list Row :=
  match readings with
  | [] => (st, [])
  | r :: rest =>
      let '(st1, row) := collectData st r in
      let '(st2, rows) := collect st1 rest in
      (st2, row :: rows)
  end.

(** The sketch: [setup], then [n] samples (as many as the clock allows in
    the calibration period); the sensor calls [21], [22], ... are those of
    [collectData]. *)
Definition calibrate (sensor : nat -> Z) (n : nat) : State * list Row :=
  collect (setup sensor) (map (fun i => sensor (21 + i)%nat) (seq 0 n)).

End CalibrationCode.

(** * The demonstration sketch with a simulated curve (src/unnamed/part_000) *)

Module SimulationCode.

Definition K_FACTOR : float := F32.lit 3656 10000.
Definition RHO_FLUID : float := F32.of_Z 1000.
Definition RHO_MANO : float := F32.of_Z 1590.
Definition G : float := F32.lit 981 100.
Definition H_MAX : float := F32.lit 175 1000.

Definition TOTAL_POINTS : Z := 51.

Definition H_VALS : list float :=
  [
    F32.lit 0 10000; F32.lit 10 10000; F32.lit 35 10000; F32.lit 75 10000; F32.lit 130 10000;
    F32.lit 200 10000; F32.lit 285 10000; F32.lit 380 10000; F32.lit 485 10000; F32.lit 595 10000;
    F32.lit 710 10000; F32.lit 825 10000; F32.lit 940 10000; F32.lit 1050 10000; F32.lit 1155 10000;
    F32.lit 1255 10000; F32.lit 1345 10000; F32.lit 1425 10000; F32.lit 1495 10000; F32.lit 1555 10000;
    F32.lit 1605 10000; F32.lit 1645 10000; F32.lit 1675 10000; F32.lit 1700 10000; F32.lit 1715 10000;
    F32.lit 1725 10000; F32.lit 1732 10000; F32.lit 1738 10000; F32.lit 1742 10000; F32.lit 1745 10000;
    F32.lit 1747 10000; F32.lit 1748 10000; F32.lit 1749 10000; F32.lit 1750 10000; F32.lit 1750 10000;
    F32.lit 1750 10000; F32.lit 1750 10000; F32.lit 1750 10000; F32.lit 1750 10000; F32.lit 1750 10000;
    F32.lit 1750 10000; F32.lit 1750 10000; F32.lit 1750 10000; F32.lit 1750 10000; F32.lit 1750 10000;
    F32.lit 1750 10000; F32.lit 1750 10000; F32.lit 1750 10000; F32.lit 1750 10000; F32.lit 1750 10000;
    F32.lit 1750 10000 ].

Definition Q_VALS : list float :=
  [
    F32.lit 0 1000; F32.lit 12 1000; F32.lit 22 1000; F32.lit 32 1000; F32.lit 42 1000;
    F32.lit 52 1000; F32.lit 62 1000; F32.lit 71 1000; F32.lit 81 1000; F32.lit 89 1000;
    F32.lit 97 1000; F32.lit 105 1000; F32.lit 112 1000; F32.lit 118 1000; F32.lit 124 1000;
    F32.lit 130 1000; F32.lit 134 1000; F32.lit 138 1000; F32.lit 141 1000; F32.lit 144 1000;
    F32.lit 146 1000; F32.lit 148 1000; F32.lit 150 1000; F32.lit 151 1000; F32.lit 151 1000;
    F32.lit 152 1000; F32.lit 152 1000; F32.lit 152 1000; F32.lit 153 1000; F32.lit 153 1000;
    F32.lit 153 1000; F32.lit 153 1000; F32.lit 153 1000; F32.lit 153 1000; F32.lit 153 1000;
    F32.lit 153 1000; F32.lit 153 1000; F32.lit 153 1000; F32.lit 153 1000; F32.lit 153 1000;
    F32.lit 153 1000; F32.lit 153 1000; F32.lit 153 1000; F32.lit 153 1000; F32.lit 153 1000;
    F32.lit 153 1000; F32.lit 153 1000; F32.lit 153 1000; F32.lit 153 1000; F32.lit 153 1000;
    F32.lit 153 1000 ].

Record State : Type := {
  zeroPoint : Z;       (* long *)
  isRealMode : bool;
  simIndex : Z         (* int *)
}.

(** What a step sends on the serial line and shows on the display: flow,
    height, the simulation marker and the pressure [p] of [updateDisplay]. *)
Record Output : Type := {
  out_Q : float;
  out_h : float;
  out_isSim : bool;
  out_p : float
}.

(** [updateDisplay]: [p = (RHO_MANO - RHO_FLUID) * G * h]. *)
Definition display_pressure (h : float) : float :=
  F32.mul (F32.mul (F32.sub RHO_MANO RHO_FLUID) G) h.

(** The auto-zero of [setup]: the mean of ten readings. *)
Definition auto_zero (readings : list Z) : Z :=
  Z.quot (fold_left (fun total r => wrap_long (total + r)) readings 0) 10.

(** The analysis phase of [loop] on the readings taken in its five
    seconds: the count of the readings more than 100 above the zero
    point. *)
Definition validSamples (zero : Z) (readings : list Z) : Z :=
  fold_left (fun count r =>
               if 100 <? wrap_long (r - zero) then wrap_long (count + 1)
               else count)
            readings 0.

Definition decide (zero : Z) (readings : list Z) : State :=
  {| zeroPoint := zero;
     isRealMode := 10 <? validSamples zero readings;
     simIndex := 0 |}.

Definition runReal (st : State) (r : Z) : Output :=
  let val := wrap_long (r - zeroPoint st) in
  let val := if val <? 0 then 0 else val in
  let fraction := F32.div (F32.of_Z val) (F32.of_Z 9000) in
  let fraction :=
    if F32.ltb (F32.of_Z 1) fraction then F32.of_Z 1 else fraction in
  let h := F32.mul fraction H_MAX in
  let Q :=
    if F32.ltb F32.zero h then F32.mul K_FACTOR (F32.sqrt h)
    else F32.of_Z 0 in
  {| out_Q := Q; out_h := h; out_isSim := false;
     out_p := display_pressure h |}.

(** [runSim]; [None] stands for a read outside the arrays. *)
Definition runSim (st : State) : option (State * Output) :=
  match nth_error H_VALS (Z.to_nat (simIndex st)),
        nth_error Q_VALS (Z.to_nat (simIndex st)) with
  | Some h, Some Q =>
      if simIndex st <? 0 then None
      else
        let next := wrap_int (simIndex st + 1) in
        let next := if TOTAL_POINTS <=? next then TOTAL_POINTS - 1 else next in
        Some ({| zeroPoint := zeroPoint st;
                 isRealMode := isRealMode st;
                 simIndex := next |},
              {| out_Q := Q; out_h := h; out_isSim := true;
                 out_p := display_pressure h |})
  | _, _ => None
  end.

(** [k] steps of the simulation. *)
Fixpoint simulate (k : nat) (st : State) : option (State * list Output) :=
  match k with
  | O => Some (st, [])
  | S k' =>
      match runSim st with
      | None => None
      | Some (st1, o) =>
          match simulate k' st1 with
          | None => None
          | Some (st2, os) => Some (st2, o :: os)
          end
      end
  end.

(** [(int) p] of [updateDisplay] is defined when [p] truncates into the
    16-bit range. *)
Definition int_castable (p : float) : bool :=
  match F32.trunc p with
  | Some z => (- 2 ^ 15 <=? z) && (z <=? 2 ^ 15 - 1)
  | None => false
  end.

End SimulationCode.

(** * Vocabulary of the statements *)

(** The validator as the specification words it: inside the envelope, and
    [|raw - filteredReading|] not above half the calibrated span. *)
Definition spec_validate (cal : Calibration) (filtered : float) (raw : Z)
    : bool :=
  (EXTREME_MIN <=? raw) && (raw <=? EXTREME_MAX) &&
  negb (F32.ltb (F32.mul (F32.lit 5 10) (span cal))
                (F32.abs (F32.sub (F32.of_Z raw) filtered))).

(** [abs(calculatedHeight - step)], the distance [snapToRealisticValue]
    computes for a table entry. *)
Definition difference (calculatedHeight step : float) : float :=
  F32.abs (F32.sub calculatedHeight step).

(** A calibration whose range is a single point. *)
Definition degenerate : Calibration :=
  {| SENSOR_RAW_MIN := 510; SENSOR_RAW_MAX := 510 |}.

(** Position of a float in the order [SFcompare] decides: class, then
    exponent, then mantissa; [None] for NaN. *)
Definition key (f : float) : option (Z * Z * Z) :=
  match f with
  | S754_nan => None
  | S754_infinity true => Some (-2, 0, 0)
  | S754_infinity false => Some (2, 0, 0)
  | S754_zero _ => Some (0, 0, 0)
  | S754_finite true m e => Some (-1, - e, - Zpos m)
  | S754_finite false m e => Some (1, e, Zpos m)
  end.

(** Lexicographic comparison of two positions. *)
Definition lex3 (a b : Z * Z * Z) : comparison :=
  let '(a1, a2, a3) := a in
  let '(b1, b2, b3) := b in
  match a1 ?= b1 with
  | Eq => match a2 ?= b2 with
          | Eq => a3 ?= b3
          | c => c
          end
  | c => c
  end.

(** The cycle of [loop] on [raw] from [st] rejects its reading. *)
Definition invalid_at (cal : Calibration) (st : State) (raw : Z) : Prop :=
  validateReading cal (filteredReading st) raw = false.

(** A streak: every reading of [raws] is rejected in its cycle.  The filter
    is held during rejected cycles, so the verdicts all refer to the filter
    value at the start of the streak. *)
Definition streak (cal : Calibration) (st : State) (raws : list Z) : Prop :=
  Forall (invalid_at cal st) raws.

(** The controller after [c] consecutive rejected readings. *)
Definition after_failures (c : Z) (st : State) : Prop :=
  failureCount st = wrap_int c /\ inFallbackMode st = (MAX_FAILURES <=? c).

(** The statement of the specification for the stabilisation phase: a
    reading the validator rejects leaves the filter as it is. *)
Definition stabilize_holds_rejected (cal : Calibration) : Prop :=
  forall (filtered : float) (reading : Z),
    validateReading cal filtered reading = false ->
    stabilize_step filtered reading = filtered.

(** ** Rounding: vocabulary *)

(** Powers of two as real numbers. *)
Definition bpow (e : Z) : R := powerRZ 2 e.

(** [x] lies in the cell [M] of the grid of step [2^e]; the sticky bit [s] is
    clear exactly when [x] is on the grid point. *)
Definition cell (x : R) (M e : Z) (s : bool) : Prop :=
  (IZR M * bpow e <= x < IZR (M + 1) * bpow e)%R /\
  (s = false <-> x = (IZR M * bpow e)%R).

(** A shift record read as a count of half-units: mantissa and round bit. *)
Definition recM (mrs : shr_record) : Z :=
  2 * shr_m mrs + (if shr_r mrs then 1 else 0).

(** Exponent of the numbers of magnitude [2^z] in binary32. *)
Definition fexp32 (z : Z) : Z := Z.max (z - 24) (-149).

(** [binary_round_aux] at binary32. *)
Definition bra := binary_round_aux 24 128.

(** Round the half-unit count [M] with sticky bit [s] to the nearest unit,
    ties to even. *)
Definition rne (M : Z) (s : bool) : Z :=
  if Z.odd M then
    if s then M / 2 + 1 else if Z.even (M / 2) then M / 2 else M / 2 + 1
  else M / 2.

(** The second normalisation and the range check of [binary_round_aux]. *)
Definition out (sx : bool) (m E : Z) : spec_float :=
  let '(mrs, e) := shr_fexp 24 128 m E loc_Exact in
  match shr_m mrs with
  | Z0 => S754_zero sx
  | Zpos p => if e <=? 128 - 24 then S754_finite sx p e else S754_infinity sx
  | Zneg _ => S754_nan
  end.

(** [(m, e, l)] locates the real [x] for [binary_round_aux], with enough
    digits in [m]. *)
Definition rnd_input (x : R) (m e : Z) (l : location) : Prop :=
  0 <= m /\ e <= fexp32 (Zdigits2 m + e) /\
  cell x (recM (shr_record_of_loc m l)) (e - 1)
       (shr_s (shr_record_of_loc m l)).

(** Position of [out false m E] in the order on floats. *)
Definition outkey (m E : Z) : Z * Z * Z :=
  if m =? 0 then (0, 0, 0)
  else if m <? 2 ^ 24 then (if E <=? 104 then (1, E, m) else (2, 0, 0))
  else (if E + 1 <=? 104 then (1, E + 1, 2 ^ 23) else (2, 0, 0)).

(** Non-negative numbers of the format, [+inf] included. *)
Definition nn (f : spec_float) : Prop :=
  match f with
  | S754_zero _ => True
  | S754_infinity false => True
  | S754_finite false m e => bounded 24 128 m e = true
  | _ => False
  end.

(** Real value of a finite float. *)
Definition F2R (f : spec_float) : R :=
  match f with
  | S754_finite s m e =>
      if s then (- (IZR (Zpos m) * bpow e))%R else (IZR (Zpos m) * bpow e)%R
  | _ => 0%R
  end.

(** Positive finite numbers of the format. *)
Definition posfin (f : spec_float) : Prop :=
  match f with
  | S754_finite false m e => bounded 24 128 m e = true
  | _ => False
  end.

(** The location [l] describes the fractional part [F]. *)
Definition loc_frac (l : location) (F : R) : Prop :=
  match l with
  | loc_Exact => F = 0%R
  | loc_Inexact Lt => (0 < F < / 2)%R
  | loc_Inexact Eq => F = (/ 2)%R
  | loc_Inexact Gt => (/ 2 < F < 1)%R
  end.

(** A float is finite when it is a zero or a finite number. *)
Definition finite (f : spec_float) : bool :=
  match f with
  | S754_zero _ | S754_finite _ _ _ => true
  | _ => false
  end.

(** The state invariant of the pipeline: the filter holds a non-negative
    number of the format and the held height is an entry of the table. *)
Definition state_ok (st : State) : Prop :=
  nn (filteredReading st) /\ In (lastValidHeight st) HEIGHT_STEPS.

(** The product [DENSITY_DIFF * GRAVITY * height] before the clamp, as both
    [loop] and [calculateFlowRate] compute it. *)
Definition pressure (height : float) : float :=
  F32.mul (F32.mul DENSITY_DIFF GRAVITY) height.

(** The start-up check the specification asks for: with a degenerate
    calibration range no measurement cycle is run. *)
Definition startup_guard : Prop :=
  forall (cal : Calibration) (sensor : nat -> Z) (n : nat),
    SENSOR_RAW_MAX cal = SENSOR_RAW_MIN cal -> snd (run cal sensor n) = [].

(** A bound the filter never exceeds: the largest float below [2^31]. *)
Definition FILTER_BOUND : float := S754_finite false 16777215 7.

(** The mode-change notices of a list of frames, in the order they are
    printed. *)
Definition notices (frs : list Frame) : list Notice :=
  flat_map (fun fr => match notice fr with Some x => [x] | None => [] end) frs.

(** Notices that alternate, starting with the one that leaves the mode
    [fallback]. *)
Fixpoint alternating (fallback : bool) (l : list Notice) : Prop :=
  match l with
  | [] => True
  | x :: rest =>
      x = (if fallback then NormalRestored else FallbackActivated) /\
      alternating (negb fallback) rest
  end.

(** The filtered column of the CSV block of the calibration sketch. *)
Definition logged (rows : list CalibrationCode.Row) : list Z :=
  map CalibrationCode.row_filtered rows.

(** Sum of a list of integers. *)
Definition zsum (l : list Z) : Z := fold_right Z.add 0 l.

(** The invariant of the calibration sketch: the filter is a non-negative
    number below [2^31], and the running extremes are on the right side of
    their initial values. *)
Definition calib_ok (st : CalibrationCode.State) : Prop :=
  nn (CalibrationCode.filteredValue st) /\
  F32.leb (CalibrationCode.filteredValue st) FILTER_BOUND = true /\
  0 <= CalibrationCode.maxReading st /\
  CalibrationCode.minReading st <= 999999.

(** The stages of [SimulationCode.runReal]: the reading above the zero
    point, cut at 0; the height of that value; the flow of that height. *)
Definition real_value (st : SimulationCode.State) (r : Z) : Z :=
  let val := wrap_long (r - SimulationCode.zeroPoint st) in
  if val <? 0 then 0 else val.

Definition real_height (val : Z) : float :=
  let fraction := F32.div (F32.of_Z val) (F32.of_Z 9000) in
  let fraction :=
    if F32.ltb (F32.of_Z 1) fraction then F32.of_Z 1 else fraction in
  F32.mul fraction SimulationCode.H_MAX.

Definition real_flow (h : float) : float :=
  if F32.ltb F32.zero h then
    F32.mul SimulationCode.K_FACTOR (F32.sqrt h)
  else F32.of_Z 0.

(** A reading counted as wet by the analysis phase. *)
Definition wet (zero r : Z) : bool := 100 <? wrap_long (r - zero).

(** * Properties *)

(** ** The order on floats *)

Lemma SFcompare_key (a b : float) :
  SFcompare a b =
    match key a, key b with
    | Some ka, Some kb => Some (lex3 ka kb)
    | _, _ => None
    end.
Proof.
  destruct a as [sa|sa| |sa ma ea], b as [sb|sb| |sb mb eb];
    try destruct sa; try destruct sb; try reflexivity; cbn -[Z.compare].
  rewrite Z.compare_opp.
  destruct (Z.compare_spec eb ea) as [E|E|E];
    destruct (Z.compare_spec ea eb) as [E'|E'|E']; try lia; reflexivity.
Qed.

Lemma lex3_lt_trans (a b c : Z * Z * Z) :
  lex3 a b = Lt -> lex3 b c = Lt -> lex3 a c = Lt.
Proof.
  destruct a as [[a1 a2] a3], b as [[b1 b2] b3], c as [[c1 c2] c3]. simpl.
  destruct (Z.compare_spec a1 b1), (Z.compare_spec b1 c1), (Z.compare_spec a1 c1);
    try lia; try discriminate; try reflexivity;
  destruct (Z.compare_spec a2 b2), (Z.compare_spec b2 c2), (Z.compare_spec a2 c2);
    try lia; try discriminate; try reflexivity;
  destruct (Z.compare_spec a3 b3), (Z.compare_spec b3 c3), (Z.compare_spec a3 c3);
    try lia; try discriminate; try reflexivity.
Qed.

Lemma lex3_le_lt_trans (a b c : Z * Z * Z) :
  lex3 a b <> Gt -> lex3 b c = Lt -> lex3 a c = Lt.
Proof.
  destruct a as [[a1 a2] a3], b as [[b1 b2] b3], c as [[c1 c2] c3]. simpl.
  destruct (Z.compare_spec a1 b1), (Z.compare_spec b1 c1), (Z.compare_spec a1 c1);
    try lia; try congruence;
  destruct (Z.compare_spec a2 b2), (Z.compare_spec b2 c2), (Z.compare_spec a2 c2);
    try lia; try congruence;
  destruct (Z.compare_spec a3 b3), (Z.compare_spec b3 c3), (Z.compare_spec a3 c3);
    try lia; try congruence.
Qed.

Lemma lex3_lt_le_trans (a b c : Z * Z * Z) :
  lex3 a b = Lt -> lex3 b c <> Gt -> lex3 a c = Lt.
Proof.
  destruct a as [[a1 a2] a3], b as [[b1 b2] b3], c as [[c1 c2] c3]. simpl.
  destruct (Z.compare_spec a1 b1), (Z.compare_spec b1 c1), (Z.compare_spec a1 c1);
    try lia; try congruence;
  destruct (Z.compare_spec a2 b2), (Z.compare_spec b2 c2), (Z.compare_spec a2 c2);
    try lia; try congruence;
  destruct (Z.compare_spec a3 b3), (Z.compare_spec b3 c3), (Z.compare_spec a3 c3);
    try lia; try congruence.
Qed.

Lemma lex3_le_trans (a b c : Z * Z * Z) :
  lex3 a b <> Gt -> lex3 b c <> Gt -> lex3 a c <> Gt.
Proof.
  destruct a as [[a1 a2] a3], b as [[b1 b2] b3], c as [[c1 c2] c3]. simpl.
  destruct (Z.compare_spec a1 b1), (Z.compare_spec b1 c1), (Z.compare_spec a1 c1);
    try lia; try congruence;
  destruct (Z.compare_spec a2 b2), (Z.compare_spec b2 c2), (Z.compare_spec a2 c2);
    try lia; try congruence;
  destruct (Z.compare_spec a3 b3), (Z.compare_spec b3 c3), (Z.compare_spec a3 c3);
    try lia; try congruence.
Qed.

Lemma lex3_antisym (a b : Z * Z * Z) : lex3 b a = CompOpp (lex3 a b).
Proof.
  destruct a as [[a1 a2] a3], b as [[b1 b2] b3]. simpl.
  rewrite (Z.compare_antisym a1 b1), (Z.compare_antisym a2 b2),
    (Z.compare_antisym a3 b3).
  destruct (a1 ?= b1), (a2 ?= b2), (a3 ?= b3); reflexivity.
Qed.

Lemma lex3_refl (a : Z * Z * Z) : lex3 a a = Eq.
Proof.
  destruct a as [[a1 a2] a3]. simpl. now rewrite !Z.compare_refl.
Qed.

Lemma ltb_trans (a b c : float) :
  F32.ltb a b = true -> F32.ltb b c = true -> F32.ltb a c = true.
Proof.
  unfold F32.ltb, SFltb. rewrite !SFcompare_key.
  destruct (key a) as [ka|], (key b) as [kb|], (key c) as [kc|];
    try discriminate.
  destruct (lex3 ka kb) eqn:E1; try discriminate.
  destruct (lex3 kb kc) eqn:E2; try discriminate.
  now rewrite (lex3_lt_trans _ _ _ E1 E2).
Qed.

Lemma leb_ltb_trans (a b c : float) :
  F32.leb a b = true -> F32.ltb b c = true -> F32.ltb a c = true.
Proof.
  unfold F32.ltb, F32.leb, SFltb, SFleb. rewrite !SFcompare_key.
  destruct (key a) as [ka|], (key b) as [kb|], (key c) as [kc|];
    try discriminate.
  intros H1 H2.
  destruct (lex3 kb kc) eqn:E2; try discriminate.
  rewrite (lex3_le_lt_trans ka kb kc); auto.
  destruct (lex3 ka kb); congruence.
Qed.

Lemma ltb_leb_trans (a b c : float) :
  F32.ltb a b = true -> F32.leb b c = true -> F32.ltb a c = true.
Proof.
  unfold F32.ltb, F32.leb, SFltb, SFleb. rewrite !SFcompare_key.
  destruct (key a) as [ka|], (key b) as [kb|], (key c) as [kc|];
    try discriminate.
  intros H1 H2.
  destruct (lex3 ka kb) eqn:E1; try discriminate.
  rewrite (lex3_lt_le_trans ka kb kc); auto.
  destruct (lex3 kb kc); congruence.
Qed.

Lemma leb_trans (a b c : float) :
  F32.leb a b = true -> F32.leb b c = true -> F32.leb a c = true.
Proof.
  unfold F32.leb, SFleb. rewrite !SFcompare_key.
  destruct (key a) as [ka|], (key b) as [kb|], (key c) as [kc|];
    try discriminate.
  intros H1 H2.
  assert (H : lex3 ka kc <> Gt).
  { apply (lex3_le_trans ka kb kc).
    - destruct (lex3 ka kb); congruence.
    - destruct (lex3 kb kc); congruence. }
  destruct (lex3 ka kc); congruence.
Qed.

Lemma ltb_irrefl (a : float) : F32.ltb a a = false.
Proof.
  unfold F32.ltb, SFltb. rewrite SFcompare_key.
  destruct (key a); [now rewrite lex3_refl | reflexivity].
Qed.

Lemma ltb_not_leb (a b : float) : F32.ltb a b = true -> F32.leb b a = false.
Proof.
  unfold F32.ltb, F32.leb, SFltb, SFleb. rewrite !SFcompare_key.
  destruct (key a) as [ka|], (key b) as [kb|]; try discriminate.
  rewrite (lex3_antisym ka kb). destruct (lex3 ka kb); simpl; congruence.
Qed.

Lemma ltb_asym (a b : float) : F32.ltb a b = true -> F32.ltb b a = false.
Proof.
  unfold F32.ltb, SFltb. rewrite !SFcompare_key.
  destruct (key a) as [ka|], (key b) as [kb|]; try discriminate.
  rewrite (lex3_antisym ka kb). destruct (lex3 ka kb); simpl; congruence.
Qed.

Lemma ltb_leb (a b : float) : F32.ltb a b = true -> F32.leb a b = true.
Proof.
  unfold F32.ltb, F32.leb, SFltb, SFleb.
  destruct (SFcompare a b) as [[]|]; congruence.
Qed.

Lemma key_nan (a : float) : F32.is_nan a = false -> key a <> None.
Proof. destruct a as [[]|[]| |[] ? ?]; simpl; congruence. Qed.

(** Away from NaN the order is total. *)
Lemma not_ltb_leb (a b : float) :
  F32.is_nan a = false -> F32.is_nan b = false ->
  F32.ltb a b = false -> F32.leb b a = true.
Proof.
  intros Ha Hb. apply key_nan in Ha, Hb.
  unfold F32.ltb, F32.leb, SFltb, SFleb. rewrite !SFcompare_key.
  destruct (key a) as [ka|], (key b) as [kb|]; try congruence.
  rewrite (lex3_antisym ka kb). destruct (lex3 ka kb); simpl; congruence.
Qed.

(** ** Rounding to nearest even *)

Lemma bpow_pos (e : Z) : (0 < bpow e)%R.
Proof. apply powerRZ_lt. lra. Qed.

Lemma bpow_add (a b : Z) : bpow (a + b) = (bpow a * bpow b)%R.
Proof. apply powerRZ_add. lra. Qed.

Lemma bpow_1 : bpow 1 = 2%R.
Proof. unfold bpow. simpl. lra. Qed.

Lemma bpow_0 : bpow 0 = 1%R.
Proof. reflexivity. Qed.

Lemma bpow_succ (e : Z) : bpow (e + 1) = (2 * bpow e)%R.
Proof. rewrite bpow_add, bpow_1. lra. Qed.

Lemma bpow_IZR (n : Z) : 0 <= n -> bpow n = IZR (2 ^ n).
Proof.
  intros H. pattern n. apply natlike_ind; [reflexivity | | exact H].
  intros k Hk IH. unfold Z.succ. rewrite bpow_succ, IH, Z.pow_add_r by lia.
  rewrite mult_IZR. change (2 ^ 1) with 2. lra.
Qed.

Lemma bpow_le (a b : Z) : a <= b -> (bpow a <= bpow b)%R.
Proof.
  intros H. replace b with (a + (b - a)) by lia.
  rewrite bpow_add, (bpow_IZR (b - a)) by lia.
  assert (1 <= 2 ^ (b - a)) by (apply Z.lt_pred_le, Z.pow_pos_nonneg; lia).
  apply IZR_le in H0. pose proof (bpow_pos a). nra.
Qed.

Lemma bpow_lt (a b : Z) : a < b -> (bpow a < bpow b)%R.
Proof.
  intros H. apply Rlt_le_trans with (bpow (a + 1)).
  - rewrite bpow_succ. pose proof (bpow_pos a). lra.
  - apply bpow_le. lia.
Qed.

Lemma bpow_lt_inv (a b : Z) : (bpow a < bpow b)%R -> a < b.
Proof.
  intros H. destruct (Z_lt_le_dec a b) as [L|L]; [exact L|].
  apply bpow_le in L. lra.
Qed.

Lemma cell_coarsen (x : R) (M e : Z) (s : bool) :
  cell x M e s -> cell x (M / 2) (e + 1) (Z.odd M || s).
Proof.
  intros [[Hlo Hhi] Hs].
  pose proof (Z.div_mod M 2 ltac:(lia)) as HM.
  pose proof (Z.mod_pos_bound M 2 ltac:(lia)) as Hb.
  assert (Hodd : Z.odd M = negb (M mod 2 =? 0)).
  { rewrite Zmod_odd. destruct (Z.odd M); reflexivity. }
  set (q := M / 2) in *. set (b := M mod 2) in *.
  assert (EM : IZR M = (2 * IZR q + IZR b)%R).
  { rewrite HM at 1. rewrite plus_IZR, mult_IZR. reflexivity. }
  assert (Hb0 : (0 <= IZR b)%R) by (apply IZR_le; lia).
  assert (Hb1 : (IZR b <= 1)%R) by (apply IZR_le; lia).
  pose proof (bpow_pos e) as Hp.
  rewrite plus_IZR in Hhi. rewrite EM in *.
  unfold cell. rewrite bpow_succ, plus_IZR.
  split; [split; nra|].
  split.
  - intros H. apply orb_false_iff in H. destruct H as [H1 H2].
    apply Hs in H2. rewrite Hodd in H1. apply negb_false_iff, Z.eqb_eq in H1.
    rewrite H1 in H2. rewrite H2. simpl. lra.
  - intros H. apply orb_false_iff.
    assert (b = 0).
    { destruct (Z.eq_dec b 0) as [E|E]; [exact E|].
      assert (b = 1) by lia. subst b. rewrite H0 in Hlo. nra. }
    split.
    + rewrite Hodd, H0. reflexivity.
    + apply Hs. rewrite H0. rewrite H. simpl. lra.
Qed.

Lemma div2_double (m b : Z) : 0 <= b < 2 -> (2 * m + b) / 2 = m.
Proof. intros H. symmetry. apply Z.div_unique with b; lia. Qed.

Lemma shr_1_spec (mrs : shr_record) :
  0 <= shr_m mrs ->
  shr_m (shr_1 mrs) = shr_m mrs / 2 /\
  recM (shr_1 mrs) = recM mrs / 2 /\
  shr_s (shr_1 mrs) = Z.odd (recM mrs) || shr_s mrs.
Proof.
  destruct mrs as [m r s]. unfold recM. cbn [shr_m shr_r shr_s].
  intros Hm.
  assert (Hdiv : (2 * m + (if r then 1 else 0)) / 2 = m)
    by (apply div2_double; destruct r; lia).
  assert (Hodd : Z.odd (2 * m + (if r then 1 else 0)) = r).
  { destruct r; [rewrite Z.add_comm, Z.odd_add_mul_2; reflexivity|].
    rewrite Z.add_0_r, Z.odd_mul. reflexivity. }
  rewrite Hdiv, Hodd.
  destruct m as [|p|p]; [| |lia].
  - simpl. auto.
  - destruct p as [p|p|]; cbn [shr_1 shr_m shr_r shr_s].
    + rewrite Pos2Z.inj_xI, (div2_double (Zpos p) 1) by lia. auto.
    + rewrite Pos2Z.inj_xO.
      replace (2 * Zpos p) with (2 * Zpos p + 0) at 1 by lia.
      rewrite (div2_double (Zpos p) 0) by lia. rewrite Z.add_0_r. auto.
    + simpl. auto.
Qed.

Lemma iter_pos_shr_1 (x : R) (p : positive) :
  forall (mrs : shr_record) (e : Z),
    0 <= shr_m mrs ->
    cell x (recM mrs) e (shr_s mrs) ->
    let mrs' := iter_pos shr_1 p mrs in
    shr_m mrs' = shr_m mrs / 2 ^ Zpos p /\
    cell x (recM mrs') (e + Zpos p) (shr_s mrs').
Proof.
  assert (step : forall mrs e, 0 <= shr_m mrs ->
            cell x (recM mrs) e (shr_s mrs) ->
            shr_m (shr_1 mrs) = shr_m mrs / 2 ^ 1 /\
            cell x (recM (shr_1 mrs)) (e + 1) (shr_s (shr_1 mrs))).
  { intros mrs e Hm Hc. destruct (shr_1_spec mrs Hm) as (H1 & H2 & H3).
    rewrite H1, H2, H3. split; [reflexivity | now apply cell_coarsen]. }
  assert (nonneg : forall m k, 0 <= m -> 0 <= k -> 0 <= m / 2 ^ k).
  { intros m k Hm Hk. apply Z.div_pos; [assumption|].
    apply Z.pow_pos_nonneg; lia. }
  induction p as [p IH|p IH|]; intros mrs e Hm Hc; cbn [iter_pos].
  - destruct (step mrs e Hm Hc) as [S1 S2].
    assert (Hm1 : 0 <= shr_m (shr_1 mrs)) by (rewrite S1; apply nonneg; lia).
    destruct (IH _ _ Hm1 S2) as [A1 A2]. cbv zeta in A1, A2.
    assert (Hm2 : 0 <= shr_m (iter_pos shr_1 p (shr_1 mrs)))
      by (rewrite A1; apply nonneg; lia).
    destruct (IH _ _ Hm2 A2) as [B1 B2]. cbv zeta in B1, B2.
    split.
    + rewrite B1, A1, S1, !Z.div_div by (try apply Z.pow_pos_nonneg; lia).
      rewrite <- !Z.pow_add_r by lia. f_equal. f_equal. lia.
    + replace (e + Zpos p~1) with (e + 1 + Zpos p + Zpos p) by lia. exact B2.
  - destruct (IH _ _ Hm Hc) as [A1 A2]. cbv zeta in A1, A2.
    assert (Hm2 : 0 <= shr_m (iter_pos shr_1 p mrs))
      by (rewrite A1; apply nonneg; lia).
    destruct (IH _ _ Hm2 A2) as [B1 B2]. cbv zeta in B1, B2.
    split.
    + rewrite B1, A1, !Z.div_div by (try apply Z.pow_pos_nonneg; lia).
      rewrite <- !Z.pow_add_r by lia. f_equal. f_equal. lia.
    + replace (e + Zpos p~0) with (e + Zpos p + Zpos p) by lia. exact B2.
  - apply step; assumption.
Qed.

Lemma fexp_fexp32 (z : Z) : fexp 24 128 z = fexp32 z.
Proof. reflexivity. Qed.

Lemma digits2_pos_bounds (p : positive) :
  2 ^ (Zpos (digits2_pos p) - 1) <= Zpos p < 2 ^ Zpos (digits2_pos p).
Proof.
  induction p as [p IH|p IH|]; cbn [digits2_pos]; [| |simpl; lia];
    rewrite Pos2Z.inj_succ;
    set (d := Zpos (digits2_pos p)) in *;
    assert (Hd : 0 < d) by (unfold d; lia);
    assert (E1 : 2 ^ d = 2 * 2 ^ (d - 1))
      by (rewrite <- Z.pow_succ_r by lia; f_equal; lia);
    replace (Z.succ d - 1) with d by lia;
    rewrite Z.pow_succ_r by lia; lia.
Qed.

Lemma Zdigits2_bounds (m : Z) :
  0 < m -> 2 ^ (Zdigits2 m - 1) <= m < 2 ^ Zdigits2 m /\ 0 < Zdigits2 m.
Proof.
  destruct m as [|p|p]; try lia. intros _. cbn [Zdigits2].
  split; [apply digits2_pos_bounds | lia].
Qed.

Lemma Zdigits2_le (m k : Z) : 0 <= k -> 0 <= m < 2 ^ k -> Zdigits2 m <= k.
Proof.
  intros Hk [H0 H1]. destruct (Z.eq_dec m 0) as [->|Hm]; [simpl; lia|].
  destruct (Zdigits2_bounds m ltac:(lia)) as [[Hlo _] Hd].
  destruct (Z_le_gt_dec (Zdigits2 m) k) as [L|G]; [exact L|].
  assert (2 ^ k <= 2 ^ (Zdigits2 m - 1)) by (apply Z.pow_le_mono_r; lia).
  lia.
Qed.

Lemma Zdigits2_ge (m k : Z) : 0 <= k -> 2 ^ k <= m -> k + 1 <= Zdigits2 m.
Proof.
  intros Hk H.
  assert (0 < m) by (pose proof (Z.pow_pos_nonneg 2 k); lia).
  destruct (Zdigits2_bounds m H0) as [[_ Hhi] Hd].
  destruct (Z_le_gt_dec (k + 1) (Zdigits2 m)) as [L|G]; [exact L|].
  assert (2 ^ Zdigits2 m <= 2 ^ k) by (apply Z.pow_le_mono_r; lia).
  lia.
Qed.

Lemma shr_nonpos (mrs : shr_record) (e n : Z) : n <= 0 -> shr mrs e n = (mrs, e).
Proof. destruct n; try reflexivity. lia. Qed.

Lemma shr_pos (x : R) (mrs : shr_record) (e n : Z) :
  0 <= n -> 0 <= shr_m mrs -> cell x (recM mrs) (e - 1) (shr_s mrs) ->
  snd (shr mrs e n) = e + n /\
  shr_m (fst (shr mrs e n)) = shr_m mrs / 2 ^ n /\
  cell x (recM (fst (shr mrs e n))) (e + n - 1) (shr_s (fst (shr mrs e n))).
Proof.
  intros Hn Hm Hc. destruct n as [|p|p]; [| |lia].
  - simpl. rewrite Z.div_1_r, Z.add_0_r. auto.
  - cbn [shr fst snd].
    destruct (iter_pos_shr_1 x p mrs (e - 1) Hm Hc) as [A B].
    cbv zeta in A, B. split; [reflexivity|]. split; [exact A|].
    replace (e + Zpos p - 1) with (e - 1 + Zpos p) by lia. exact B.
Qed.

Lemma recM_of_loc (m : Z) (l : location) :
  shr_m (shr_record_of_loc m l) = m.
Proof. destruct l as [|[]]; reflexivity. Qed.

(** The first normalisation of [binary_round_aux]. *)
Lemma shr_fexp_spec (x : R) (m e : Z) (l : location) :
  rnd_input x m e l ->
  let E := fexp32 (Zdigits2 m + e) in
  let mrs := fst (shr_fexp 24 128 m e l) in
  snd (shr_fexp 24 128 m e l) = E /\
  0 <= shr_m mrs < 2 ^ 24 /\
  (-149 < E -> 2 ^ 23 <= shr_m mrs) /\
  cell x (recM mrs) (E - 1) (shr_s mrs).
Proof.
  intros (Hm & He & Hc). cbv zeta.
  unfold shr_fexp. rewrite fexp_fexp32.
  set (E := fexp32 (Zdigits2 m + e)).
  assert (Hn : 0 <= E - e) by (unfold E; lia).
  destruct (shr_pos x (shr_record_of_loc m l) e (E - e) Hn) as (A & B & C).
  { now rewrite recM_of_loc. }
  { exact Hc. }
  set (mrs := fst (shr (shr_record_of_loc m l) e (E - e))) in *.
  rewrite recM_of_loc in B.
  replace (e + (E - e)) with E in A, C by lia.
  assert (P : 0 < 2 ^ (E - e)) by (apply Z.pow_pos_nonneg; lia).
  split; [exact A|]. split; [|split; [|exact C]].
  - rewrite B. split; [apply Z.div_pos; lia|].
    apply Z.div_lt_upper_bound; [exact P|].
    destruct (Z.eq_dec m 0) as [->|Hm0]; [lia|].
    destruct (Zdigits2_bounds m ltac:(lia)) as [[_ Hhi] Hd].
    rewrite <- Z.pow_add_r by lia.
    eapply Z.lt_le_trans; [exact Hhi|].
    apply Z.pow_le_mono_r; [lia|]. unfold E, fexp32. lia.
  - intros HE. rewrite B.
    destruct (Z.eq_dec m 0) as [->|Hm0].
    { exfalso. simpl in E. unfold E, fexp32 in *. lia. }
    destruct (Zdigits2_bounds m ltac:(lia)) as [[Hlo _] Hd].
    apply Z.div_le_lower_bound; [exact P|].
    rewrite <- Z.pow_add_r by lia.
    eapply Z.le_trans; [|exact Hlo].
    apply Z.pow_le_mono_r; [lia|]. unfold E, fexp32 in *. lia.
Qed.

Lemma rne_spec (mrs : shr_record) :
  0 <= shr_m mrs ->
  round_nearest_even (shr_m mrs) (loc_of_shr_record mrs) =
    rne (recM mrs) (shr_s mrs).
Proof.
  destruct mrs as [m r s]. unfold recM, rne. cbn [shr_m shr_r shr_s].
  intros Hm.
  assert (Hdiv : (2 * m + (if r then 1 else 0)) / 2 = m)
    by (apply div2_double; destruct r; lia).
  assert (Hodd : Z.odd (2 * m + (if r then 1 else 0)) = r).
  { destruct r; [rewrite Z.add_comm, Z.odd_add_mul_2; reflexivity|].
    rewrite Z.add_0_r, Z.odd_mul. reflexivity. }
  rewrite Hdiv, Hodd. destruct r, s; reflexivity.
Qed.

Lemma rne_bounds (M : Z) (s : bool) : M / 2 <= rne M s <= M / 2 + 1.
Proof. unfold rne. destruct (Z.odd M), s, (Z.even (M / 2)); lia. Qed.

Lemma rne_mono (M1 M2 : Z) (s1 s2 : bool) :
  M1 < M2 \/ (M1 = M2 /\ (s1 = true -> s2 = true)) ->
  rne M1 s1 <= rne M2 s2.
Proof.
  intros H.
  pose proof (Z.div_mod M1 2 ltac:(lia)) as D1.
  pose proof (Z.div_mod M2 2 ltac:(lia)) as D2.
  pose proof (Z.mod_pos_bound M1 2 ltac:(lia)) as B1.
  pose proof (Z.mod_pos_bound M2 2 ltac:(lia)) as B2.
  unfold rne. rewrite !Zodd_mod.
  destruct (Z.eqb_spec (M1 mod 2) 1) as [E1|E1];
    destruct (Z.eqb_spec (M2 mod 2) 1) as [E2|E2];
    destruct H as [H|[H Hs]];
    destruct s1, s2; try (specialize (Hs eq_refl); discriminate Hs);
    destruct (Z.even (M1 / 2)) eqn:V1; destruct (Z.even (M2 / 2)) eqn:V2;
    try lia;
    try (subst M2; rewrite V1 in V2; discriminate).
Qed.

Lemma bra_unfold (s : bool) (m e : Z) (l : location) :
  bra s m e l =
    out s (round_nearest_even (shr_m (fst (shr_fexp 24 128 m e l)))
             (loc_of_shr_record (fst (shr_fexp 24 128 m e l))))
        (snd (shr_fexp 24 128 m e l)).
Proof.
  unfold bra, binary_round_aux, out.
  destruct (shr_fexp 24 128 m e l) as [mrs' e']. reflexivity.
Qed.

Lemma out_cases (s : bool) (m E : Z) :
  -149 <= E -> 0 <= m <= 2 ^ 24 ->
  out s m E =
    if m =? 0 then S754_zero s
    else if m <? 2 ^ 24
         then (if E <=? 104 then S754_finite s (Z.to_pos m) E
               else S754_infinity s)
         else (if E + 1 <=? 104 then S754_finite s (2 ^ 23)%positive (E + 1)
               else S754_infinity s).
Proof.
  intros HE Hm. unfold out, shr_fexp. rewrite fexp_fexp32.
  destruct (Z.eqb_spec m 0) as [->|Hm0].
  - rewrite shr_nonpos by (simpl; unfold fexp32; lia). reflexivity.
  - destruct (Z.ltb_spec m (2 ^ 24)) as [Hlt|Hge].
    + assert (Hd : Zdigits2 m <= 24) by (apply Zdigits2_le; lia).
      rewrite shr_nonpos by (unfold fexp32; lia).
      cbn [shr_record_of_loc shr_m].
      destruct m as [|p|p]; try lia. reflexivity.
    + assert (m = 2 ^ 24) by lia. subst m.
      change (Zdigits2 (2 ^ 24)) with 25.
      replace (fexp32 (25 + E) - E) with 1 by (unfold fexp32; lia).
      cbn. replace (E + 1 <=? 104) with (E + 1 <=? 104) by reflexivity.
      reflexivity.
Qed.

Lemma key_out (m E : Z) :
  -149 <= E -> 0 <= m <= 2 ^ 24 ->
  key (out false m E) = Some (outkey m E).
Proof.
  intros HE Hm. rewrite out_cases by assumption. unfold outkey.
  destruct (m =? 0) eqn:E0; [reflexivity|].
  apply Z.eqb_neq in E0.
  destruct (m <? 2 ^ 24); [destruct (E <=? 104)|destruct (E + 1 <=? 104)];
    try reflexivity.
  cbn [key]. rewrite Z2Pos.id by lia. reflexivity.
Qed.

Lemma lex3_le_intro (a1 a2 a3 b1 b2 b3 : Z) :
  a1 < b1 \/ (a1 = b1 /\ (a2 < b2 \/ (a2 = b2 /\ a3 <= b3))) ->
  lex3 (a1, a2, a3) (b1, b2, b3) <> Gt.
Proof.
  intros H. simpl.
  destruct (Z.compare_spec a1 b1); try congruence; try lia.
  destruct (Z.compare_spec a2 b2); try congruence; try lia.
  destruct (Z.compare_spec a3 b3); try congruence; lia.
Qed.

Lemma outkey_mono_same (m1 m2 E : Z) :
  0 <= m1 -> m1 <= m2 -> lex3 (outkey m1 E) (outkey m2 E) <> Gt.
Proof.
  intros H0 H. unfold outkey.
  destruct (Z.eqb_spec m1 0), (Z.eqb_spec m2 0),
    (Z.ltb_spec m1 (2 ^ 24)), (Z.ltb_spec m2 (2 ^ 24)),
    (Z.leb_spec E 104), (Z.leb_spec (E + 1) 104);
    try lia; apply lex3_le_intro; lia.
Qed.

Lemma outkey_mono_lt (m1 m2 E1 E2 : Z) :
  0 <= m1 <= 2 ^ 24 -> 2 ^ 23 <= m2 -> E1 < E2 ->
  lex3 (outkey m1 E1) (outkey m2 E2) <> Gt.
Proof.
  intros H1 H2 HE. unfold outkey.
  destruct (Z.eqb_spec m1 0), (Z.eqb_spec m2 0),
    (Z.ltb_spec m1 (2 ^ 24)), (Z.ltb_spec m2 (2 ^ 24)),
    (Z.leb_spec E1 104), (Z.leb_spec (E1 + 1) 104),
    (Z.leb_spec E2 104), (Z.leb_spec (E2 + 1) 104);
    try lia; apply lex3_le_intro; lia.
Qed.

Lemma leb_of_key (a b : spec_float) (ka kb : Z * Z * Z) :
  key a = Some ka -> key b = Some kb -> lex3 ka kb <> Gt -> SFleb a b = true.
Proof.
  intros Ha Hb H. unfold SFleb. rewrite SFcompare_key, Ha, Hb.
  destruct (lex3 ka kb); congruence.
Qed.

Lemma cell_order (x y : R) (M1 M2 e : Z) (s1 s2 : bool) :
  (x <= y)%R -> cell x M1 e s1 -> cell y M2 e s2 ->
  M1 < M2 \/ (M1 = M2 /\ (s1 = true -> s2 = true)).
Proof.
  intros Hxy [[L1 U1] S1] [[L2 U2] S2].
  pose proof (bpow_pos e) as P.
  assert (H : M1 < M2 + 1).
  { apply lt_IZR. apply Rmult_lt_reg_r with (bpow e); [exact P | lra]. }
  destruct (Z.eq_dec M1 M2) as [->|N]; [right | left; lia].
  split; [reflexivity|]. intros ->.
  destruct s2; [reflexivity|].
  assert (E2 : y = (IZR M2 * bpow e)%R) by now apply S2.
  assert (E1 : x = (IZR M2 * bpow e)%R) by lra.
  apply S1 in E1. discriminate.
Qed.

(** What [binary_round_aux] returns on a rounding input. *)
Lemma bra_out (x : R) (s : bool) (m e : Z) (l : location) :
  rnd_input x m e l ->
  exists (M : Z) (st : bool),
    let E := fexp32 (Zdigits2 m + e) in
    cell x M (E - 1) st /\
    0 <= M / 2 < 2 ^ 24 /\
    (-149 < E -> 2 ^ 23 <= M / 2) /\
    bra s m e l = out s (rne M st) E.
Proof.
  intros Hin. destruct (shr_fexp_spec x m e l Hin) as (A & B & C & D).
  cbv zeta in A, B, C, D.
  set (mrs := fst (shr_fexp 24 128 m e l)) in *.
  assert (Hhalf : recM mrs / 2 = shr_m mrs).
  { unfold recM. apply div2_double. destruct (shr_r mrs); lia. }
  exists (recM mrs), (shr_s mrs). cbv zeta.
  rewrite Hhalf. split; [exact D|]. split; [exact B|]. split; [exact C|].
  rewrite bra_unfold. fold mrs. rewrite A, rne_spec by lia. reflexivity.
Qed.

Lemma fexp32_mono (a b : Z) : a <= b -> fexp32 a <= fexp32 b.
Proof. unfold fexp32. lia. Qed.

(** Magnitude of a rounding input. *)
Lemma rnd_input_mag (x : R) (m e : Z) (l : location) :
  rnd_input x m e l ->
  (x < bpow (Zdigits2 m + e))%R /\
  (0 < m -> (bpow (Zdigits2 m + e - 1) <= x)%R) /\ (0 <= x)%R.
Proof.
  intros (Hm & He & [[Lo Hi] _]).
  pose proof (bpow_pos (e - 1)) as P.
  assert (B : bpow e = (2 * bpow (e - 1))%R).
  { replace e with (e - 1 + 1) at 1 by lia. apply bpow_succ. }
  assert (HM : (2 * IZR m <= IZR (recM (shr_record_of_loc m l)) <= 2 * IZR m + 1)%R).
  { unfold recM. rewrite recM_of_loc.
    rewrite plus_IZR, mult_IZR.
    destruct (shr_r (shr_record_of_loc m l)); simpl; lra. }
  rewrite plus_IZR in Hi.
  assert (Hx : (IZR m * bpow e <= x < IZR (m + 1) * bpow e)%R).
  { rewrite plus_IZR, B. split; nra. }
  destruct Hx as [Hx1 Hx2].
  assert (Hm0 : (0 <= IZR m)%R) by (apply IZR_le; lia).
  pose proof (bpow_pos e) as Pe.
  split; [|split].
  - destruct (Z.eq_dec m 0) as [->|N].
    + simpl. simpl in Hx2. lra.
    + destruct (Zdigits2_bounds m ltac:(lia)) as [[_ Hhi] Hd].
      rewrite bpow_add, (bpow_IZR (Zdigits2 m)) by lia.
      assert (IZR (m + 1) <= IZR (2 ^ Zdigits2 m))%R by (apply IZR_le; lia).
      nra.
  - intros Hpos. destruct (Zdigits2_bounds m Hpos) as [[Hlo _] Hd].
    replace (Zdigits2 m + e - 1) with (Zdigits2 m - 1 + e) by lia.
    rewrite bpow_add, (bpow_IZR (Zdigits2 m - 1)) by lia.
    apply IZR_le in Hlo. nra.
  - nra.
Qed.

(** Rounding to nearest even is monotone. *)
Theorem bra_mono (x y : R) (m1 e1 m2 e2 : Z) (l1 l2 : location) :
  (x <= y)%R -> rnd_input x m1 e1 l1 -> rnd_input y m2 e2 l2 ->
  SFleb (bra false m1 e1 l1) (bra false m2 e2 l2) = true.
Proof.
  intros Hxy I1 I2.
  destruct (bra_out x false m1 e1 l1 I1) as (M1 & s1 & C1 & B1 & N1 & R1).
  destruct (bra_out y false m2 e2 l2 I2) as (M2 & s2 & C2 & B2 & N2 & R2).
  cbv zeta in *.
  set (E1 := fexp32 (Zdigits2 m1 + e1)) in *.
  set (E2 := fexp32 (Zdigits2 m2 + e2)) in *.
  assert (HE1 : -149 <= E1) by (unfold E1, fexp32; lia).
  assert (HE2 : -149 <= E2) by (unfold E2, fexp32; lia).
  pose proof (rne_bounds M1 s1) as Q1. pose proof (rne_bounds M2 s2) as Q2.
  rewrite R1, R2.
  apply leb_of_key with (outkey (rne M1 s1) E1) (outkey (rne M2 s2) E2);
    try (apply key_out; lia).
  destruct (rnd_input_mag x m1 e1 l1 I1) as (U1 & L1 & P1).
  destruct (rnd_input_mag y m2 e2 l2 I2) as (U2 & L2 & P2).
  assert (HE : E1 <= E2).
  { destruct I1 as (Hm1 & Hp1 & _).
    destruct (Z.eq_dec m1 0) as [->|N].
    - simpl in Hp1. unfold E1, E2, fexp32 in *. simpl. lia.
    - apply fexp32_mono.
      assert (H : Zdigits2 m1 + e1 - 1 < Zdigits2 m2 + e2).
      { apply bpow_lt_inv. specialize (L1 ltac:(lia)). lra. }
      lia. }
  destruct (Z.eq_dec E1 E2) as [EE|NE].
  - rewrite <- EE.
    apply outkey_mono_same; [lia|].
    apply rne_mono. apply (cell_order x y M1 M2 (E1 - 1) s1 s2 Hxy C1).
    rewrite EE. exact C2.
  - apply outkey_mono_lt; try lia.
Qed.

Lemma bounded_spec (m : positive) (e : Z) :
  bounded 24 128 m e = true <->
  (fexp32 (Zpos (digits2_pos m) + e) = e /\ e <= 104).
Proof.
  unfold bounded, canonical_mantissa. rewrite fexp_fexp32.
  rewrite andb_true_iff, Z.eqb_eq, Z.leb_le. reflexivity.
Qed.

(** Shape of a canonical mantissa. *)
Lemma bounded_digits (m : positive) (e : Z) :
  bounded 24 128 m e = true ->
  let d := Zpos (digits2_pos m) in
  1 <= d <= 24 /\ -149 <= e <= 104 /\ (d = 24 \/ e = -149).
Proof.
  intros H. apply bounded_spec in H. destruct H as [H1 H2].
  cbv zeta. unfold fexp32 in H1. lia.
Qed.

Lemma out_nn (m E : Z) :
  -149 <= E -> 0 <= m <= 2 ^ 24 -> (-149 < E -> 2 ^ 23 <= m) ->
  nn (out false m E).
Proof.
  intros HE Hm Hn. rewrite out_cases by assumption.
  destruct (Z.eqb_spec m 0) as [->|N]; [exact I|].
  destruct (Z.ltb_spec m (2 ^ 24)) as [L|G].
  - destruct (Z.leb_spec E 104) as [L1|G1]; [|exact I].
    cbn [nn]. apply bounded_spec. split; [|exact L1].
    destruct (Zdigits2_bounds m ltac:(lia)) as [[Hlo Hhi] Hd].
    assert (D : Zdigits2 m <= 24) by (apply Zdigits2_le; lia).
    change (Zpos (digits2_pos (Z.to_pos m))) with (Zdigits2 (Zpos (Z.to_pos m))).
    rewrite Z2Pos.id by lia.
    destruct (Z.eq_dec E (-149)) as [->|NE]; [unfold fexp32; lia|].
    assert (24 <= Zdigits2 m) by (apply (Zdigits2_ge m 23); lia).
    unfold fexp32. lia.
  - destruct (Z.leb_spec (E + 1) 104) as [L1|G1]; [|exact I].
    cbn [nn]. apply bounded_spec. split; [|exact L1].
    change (Zpos (digits2_pos (2 ^ 23))) with 24. unfold fexp32. lia.
Qed.

Lemma bra_nn (x : R) (m e : Z) (l : location) :
  rnd_input x m e l -> nn (bra false m e l).
Proof.
  intros Hin.
  destruct (bra_out x false m e l Hin) as (M & st & C & B & N & ->).
  cbv zeta in *. pose proof (rne_bounds M st).
  apply out_nn; unfold fexp32 in *; lia.
Qed.

Lemma nn_key (f : spec_float) : nn f -> exists k, key f = Some k /\ lex3 (0, 0, 0) k <> Gt.
Proof.
  destruct f as [s|[]| |[] m e]; simpl; try tauto; intros _.
  - exists (0, 0, 0). split; [reflexivity|]. simpl. discriminate.
  - exists (2, 0, 0). split; [reflexivity|]. simpl. discriminate.
  - exists (1, e, Zpos m). split; [reflexivity|]. simpl. discriminate.
Qed.

Lemma nn_not_nan (f : spec_float) : nn f -> f <> S754_nan.
Proof. destruct f; simpl; congruence || tauto. Qed.

Lemma zero_leb_nn (s : bool) (f : spec_float) : nn f -> SFleb (S754_zero s) f = true.
Proof.
  intros H. destruct (nn_key f H) as (k & Hk & Hl).
  eapply leb_of_key; [reflexivity | exact Hk | exact Hl].
Qed.

Lemma nn_leb_inf (f : spec_float) : nn f -> SFleb f (S754_infinity false) = true.
Proof.
  destruct f as [s|[]| |[] m e]; simpl; try tauto; reflexivity.
Qed.

(** On canonical floats the order of [SFcompare] is that of the values. *)
Lemma leb_F2R (m1 m2 : positive) (e1 e2 : Z) :
  bounded 24 128 m1 e1 = true -> bounded 24 128 m2 e2 = true ->
  SFleb (S754_finite false m1 e1) (S754_finite false m2 e2) = true ->
  (F2R (S754_finite false m1 e1) <= F2R (S754_finite false m2 e2))%R.
Proof.
  intros B1 B2 H. cbn [F2R].
  pose proof (bounded_digits m1 e1 B1) as D1.
  pose proof (bounded_digits m2 e2 B2) as D2.
  apply bounded_spec in B1, B2. cbv zeta in D1, D2.
  pose proof (digits2_pos_bounds m1) as P1.
  pose proof (digits2_pos_bounds m2) as P2.
  set (d1 := Zpos (digits2_pos m1)) in *.
  set (d2 := Zpos (digits2_pos m2)) in *.
  unfold SFleb, SFcompare in H.
  destruct (Z.compare_spec e1 e2) as [E|L|G].
  - subst e2. change (Pos.compare_cont Eq m1 m2) with (Pos.compare m1 m2) in H.
    assert (Zpos m1 <= Zpos m2).
    { destruct (Pos.compare_spec m1 m2); try lia; discriminate. }
    apply IZR_le in H0. pose proof (bpow_pos e1). nra.
  - assert (Hd : d1 + e1 <= d2 + e2 - 1) by (unfold fexp32 in *; lia).
    apply Rle_trans with (bpow (d1 + e1)).
    + rewrite bpow_add, (bpow_IZR d1) by lia.
      pose proof (bpow_pos e1).
      assert (IZR (Zpos m1) <= IZR (2 ^ d1))%R by (apply IZR_le; lia). nra.
    + apply Rle_trans with (bpow (d2 - 1 + e2)).
      * apply bpow_le. lia.
      * rewrite bpow_add, (bpow_IZR (d2 - 1)) by lia.
        pose proof (bpow_pos e2).
        assert (IZR (2 ^ (d2 - 1)) <= IZR (Zpos m2))%R by (apply IZR_le; lia). nra.
  - discriminate.
Qed.

Lemma Zdigits2_shift (m n : Z) :
  0 < m -> 0 <= n -> Zdigits2 (m * 2 ^ n) = Zdigits2 m + n.
Proof.
  intros Hm Hn.
  destruct (Zdigits2_bounds m Hm) as [[Hlo Hhi] Hd].
  assert (P : 0 < 2 ^ n) by (apply Z.pow_pos_nonneg; lia).
  assert (A : Zdigits2 (m * 2 ^ n) <= Zdigits2 m + n).
  { apply Zdigits2_le; [lia|]. rewrite Z.pow_add_r by lia. nia. }
  assert (B : Zdigits2 m - 1 + n + 1 <= Zdigits2 (m * 2 ^ n)).
  { apply Zdigits2_ge; [lia|]. rewrite Z.pow_add_r by lia. nia. }
  lia.
Qed.

Lemma iter_xO (p n : positive) : Zpos (Pos.iter xO p n) = Zpos p * 2 ^ Zpos n.
Proof.
  revert p. induction n as [n IH|n IH|]; intros p; cbn [Pos.iter].
  - rewrite Pos2Z.inj_xO, !IH.
    replace (Zpos n~1) with (Zpos n + Zpos n + 1) by lia.
    rewrite !Z.pow_add_r by lia. change (2 ^ 1) with 2. ring.
  - rewrite !IH.
    replace (Zpos n~0) with (Zpos n + Zpos n) by lia.
    rewrite !Z.pow_add_r by lia. ring.
  - rewrite Pos2Z.inj_xO. change (2 ^ 1) with 2. lia.
Qed.

Lemma shl_align_spec (m : positive) (e e' : Z) :
  let r := shl_align m e e' in
  (e' <= e -> snd r = e' /\ Zpos (fst r) = Zpos m * 2 ^ (e - e')) /\
  (e <= e' -> r = (m, e)).
Proof.
  cbv zeta. unfold shl_align.
  destruct (e' - e) as [|d|d] eqn:D.
  - split; intros H; [|reflexivity]. cbn [fst snd].
    replace (e - e') with 0 by lia. simpl. lia.
  - split; intros H; [lia | reflexivity].
  - split; intros H; [|lia]. cbn [fst snd].
    split; [reflexivity|]. rewrite iter_xO. f_equal. f_equal. lia.
Qed.

Lemma rnd_input_exact (m e : Z) :
  0 <= m -> e <= fexp32 (Zdigits2 m + e) ->
  rnd_input (IZR m * bpow e) m e loc_Exact.
Proof.
  intros Hm He. unfold rnd_input. split; [exact Hm|]. split; [exact He|].
  unfold recM, cell. cbn [shr_record_of_loc shr_m shr_r shr_s].
  rewrite Z.add_0_r.
  assert (V : bpow e = (2 * bpow (e - 1))%R).
  { replace e with ((e - 1) + 1) at 1 by lia. apply bpow_succ. }
  rewrite plus_IZR, mult_IZR, V. pose proof (bpow_pos (e - 1)).
  split; [split; lra|]. split; [intros _; lra | reflexivity].
Qed.

(** [binary_round] hands [binary_round_aux] a rounding input of the exact
    value. *)
Lemma binary_round_input (s : bool) (p : positive) (e : Z) :
  exists (mz ez : Z),
    binary_round 24 128 s p e = bra s mz ez loc_Exact /\
    rnd_input (IZR (Zpos p) * bpow e) mz ez loc_Exact /\
    Zdigits2 mz + ez = Zpos (digits2_pos p) + e.
Proof.
  unfold binary_round. rewrite fexp_fexp32.
  set (E := fexp32 (Zpos (digits2_pos p) + e)).
  destruct (shl_align_spec p e E) as [A B]. cbv zeta in A, B.
  destruct (shl_align p e E) as [mz ez] eqn:S. cbn [fst snd] in A, B.
  exists (Zpos mz), ez. split; [reflexivity|].
  destruct (Z_le_gt_dec E e) as [L|G].
  - destruct (A L) as [-> Hm]. rewrite Hm.
    assert (Hd : Zdigits2 (Zpos p * 2 ^ (e - E)) + E = Zpos (digits2_pos p) + e).
    { rewrite Zdigits2_shift by lia. cbn [Zdigits2]. lia. }
    split; [|exact Hd].
    replace (IZR (Zpos p) * bpow e)%R
      with (IZR (Zpos p * 2 ^ (e - E)) * bpow E)%R.
    + apply rnd_input_exact; [lia|]. rewrite Hd. fold E. lia.
    + rewrite mult_IZR, <- bpow_IZR by lia.
      replace e with ((e - E) + E) at 2 by lia.
      rewrite bpow_add. ring.
  - injection (B ltac:(lia)) as -> ->.
    split; [|reflexivity].
    apply rnd_input_exact; [lia|]. cbn [Zdigits2]. fold E. lia.
Qed.

Lemma posfin_nn (f : spec_float) : posfin f -> nn f.
Proof. destruct f as [?|?| |[] ? ?]; simpl; tauto. Qed.

Lemma F2R_pos (f : spec_float) : posfin f -> (0 < F2R f)%R.
Proof.
  destruct f as [?|?| |[] m e]; simpl; try tauto. intros _.
  pose proof (bpow_pos e). assert (0 < IZR (Zpos m))%R by (apply IZR_lt; lia).
  nra.
Qed.

Lemma posfin_leb_F2R (a b : spec_float) :
  posfin a -> posfin b -> SFleb a b = true -> (F2R a <= F2R b)%R.
Proof.
  destruct a as [?|?| |[] ma ea]; simpl; try tauto.
  destruct b as [?|?| |[] mb eb]; simpl; try tauto.
  intros Ha Hb H. now apply (leb_F2R ma mb ea eb).
Qed.

(** Case analysis of [x <= y] on non-negative numbers. *)
Lemma nn_leb_cases (x y : spec_float) :
  nn x -> nn y -> SFleb x y = true ->
  (exists s, x = S754_zero s) \/
  y = S754_infinity false \/
  (posfin x /\ posfin y).
Proof.
  destruct x as [s|[]| |[] mx ex]; simpl; try tauto; intros Hx;
    destruct y as [s'|[]| |[] my ey]; simpl; try tauto; intros Hy H;
    try discriminate H; eauto.
Qed.

Lemma mul_input (mx mc : positive) (ex ec : Z) :
  bounded 24 128 mx ex = true -> bounded 24 128 mc ec = true ->
  rnd_input (F2R (S754_finite false mc ec) * F2R (S754_finite false mx ex))
            (Zpos (mc * mx)) (ec + ex) loc_Exact.
Proof.
  intros Bx Bc.
  pose proof (bounded_digits mx ex Bx) as Dx.
  pose proof (bounded_digits mc ec Bc) as Dc. cbv zeta in Dx, Dc.
  pose proof (digits2_pos_bounds mx) as Px.
  pose proof (digits2_pos_bounds mc) as Pc.
  set (dx := Zpos (digits2_pos mx)) in *.
  set (dc := Zpos (digits2_pos mc)) in *.
  cbn [F2R].
  replace (IZR (Zpos mc) * bpow ec * (IZR (Zpos mx) * bpow ex))%R
    with (IZR (Zpos (mc * mx)) * bpow (ec + ex))%R
    by (rewrite Pos2Z.inj_mul, mult_IZR, bpow_add; ring).
  apply rnd_input_exact; [lia|].
  assert (D : dc - 1 + (dx - 1) + 1 <= Zdigits2 (Zpos (mc * mx))).
  { apply Zdigits2_ge; [lia|]. rewrite Z.pow_add_r, Pos2Z.inj_mul by lia.
    apply Z.mul_le_mono_nonneg; try lia; apply Z.pow_nonneg; lia. }
  unfold fexp32. lia.
Qed.

Lemma mul_finite (mx mc : positive) (ex ec : Z) :
  SFmul 24 128 (S754_finite false mc ec) (S754_finite false mx ex) =
    bra false (Zpos (mc * mx)) (ec + ex) loc_Exact.
Proof. reflexivity. Qed.

Lemma mul_nn (c x : spec_float) : posfin c -> nn x -> nn (SFmul 24 128 c x).
Proof.
  destruct c as [?|?| |[] mc ec]; try (simpl; tauto). intros Hc.
  destruct x as [s|[]| |[] mx ex]; try (simpl; tauto). intros Hx.
  rewrite mul_finite. eapply bra_nn. now apply mul_input.
Qed.

(** Multiplication by a positive constant is monotone. *)
Theorem mul_mono (c x y : spec_float) :
  posfin c -> nn x -> nn y -> SFleb x y = true ->
  SFleb (SFmul 24 128 c x) (SFmul 24 128 c y) = true.
Proof.
  intros Hc Hx Hy H.
  pose proof (mul_nn c x Hc Hx) as Nx. pose proof (mul_nn c y Hc Hy) as Ny.
  destruct (nn_leb_cases x y Hx Hy H) as [[s ->] | [-> | [Px Py]]].
  - destruct c as [?|?| |[] mc ec]; simpl in Hc; try tauto.
    cbn [SFmul xorb]. now apply zero_leb_nn.
  - destruct c as [?|?| |[] mc ec]; simpl in Hc; try tauto.
    replace (SFmul 24 128 (S754_finite false mc ec) (S754_infinity false))
      with (S754_infinity false) by reflexivity.
    now apply nn_leb_inf.
  - pose proof (posfin_leb_F2R x y Px Py H) as HR.
    pose proof (F2R_pos c Hc) as Pc.
    destruct c as [?|?| |[] mc ec]; simpl in Hc; try tauto.
    destruct x as [?|?| |[] mx ex]; simpl in Px; try tauto.
    destruct y as [?|?| |[] my ey]; simpl in Py; try tauto.
    rewrite !mul_finite.
    eapply bra_mono; [|apply mul_input; eassumption|apply mul_input; eassumption].
    apply Rmult_le_compat_l; [lra | exact HR].
Qed.

Lemma SFmul_comm (a b : spec_float) : SFmul 24 128 a b = SFmul 24 128 b a.
Proof.
  destruct a as [sa|sa| |sa ma ea], b as [sb|sb| |sb mb eb]; cbn [SFmul];
    try rewrite (xorb_comm sa sb); try reflexivity.
  now rewrite (Pos.mul_comm ma mb), (Z.add_comm ea eb).
Qed.

(** ** Subtraction of a constant *)

Lemma sub_finite (mx mc : positive) (ex ec : Z) :
  SFsub 24 128 (S754_finite false mx ex) (S754_finite false mc ec) =
    binary_normalize 24 128
      (Zpos (fst (shl_align mx ex (Z.min ex ec))) -
       Zpos (fst (shl_align mc ec (Z.min ex ec)))) (Z.min ex ec) false.
Proof. reflexivity. Qed.

Lemma sub_value (mx mc : positive) (ex ec : Z) :
  let k := Zpos (fst (shl_align mx ex (Z.min ex ec))) -
           Zpos (fst (shl_align mc ec (Z.min ex ec))) in
  (IZR k * bpow (Z.min ex ec) =
   F2R (S754_finite false mx ex) - F2R (S754_finite false mc ec))%R.
Proof.
  cbv zeta. set (ez := Z.min ex ec).
  destruct (shl_align_spec mx ex ez) as [Ax _].
  destruct (shl_align_spec mc ec ez) as [Ac _]. cbv zeta in Ax, Ac.
  destruct (Ax ltac:(unfold ez; lia)) as [_ ->].
  destruct (Ac ltac:(unfold ez; lia)) as [_ ->].
  cbn [F2R]. rewrite minus_IZR, !mult_IZR.
  rewrite <- !bpow_IZR by (unfold ez; lia).
  assert (Ex : bpow ex = (bpow (ex - ez) * bpow ez)%R)
    by (rewrite <- bpow_add; f_equal; lia).
  assert (Ec : bpow ec = (bpow (ec - ez) * bpow ez)%R)
    by (rewrite <- bpow_add; f_equal; lia).
  rewrite Ex, Ec. ring.
Qed.

(** The difference of two positive finite numbers, the smaller taken from
    the larger, goes through [binary_round_aux] on its exact value. *)
Lemma sub_input (x c : spec_float) :
  posfin x -> posfin c -> SFleb c x = true ->
  SFsub 24 128 x c = S754_zero false /\ (F2R x - F2R c = 0)%R \/
  exists (mz ez : Z),
    SFsub 24 128 x c = bra false mz ez loc_Exact /\
    rnd_input (F2R x - F2R c) mz ez loc_Exact /\ (0 < F2R x - F2R c)%R.
Proof.
  intros Px Pc H. pose proof (posfin_leb_F2R c x Pc Px H) as HR.
  destruct x as [?|?| |[] mx ex]; simpl in Px; try tauto.
  destruct c as [?|?| |[] mc ec]; simpl in Pc; try tauto.
  rewrite sub_finite. pose proof (sub_value mx mc ex ec) as V. cbv zeta in V.
  set (k := Zpos (fst (shl_align mx ex (Z.min ex ec))) -
            Zpos (fst (shl_align mc ec (Z.min ex ec)))) in *.
  pose proof (bpow_pos (Z.min ex ec)) as P.
  destruct k as [|p|p] eqn:K.
  - left. split; [reflexivity|]. rewrite <- V. simpl. lra.
  - right. cbn [binary_normalize].
    destruct (binary_round_input false p (Z.min ex ec)) as (mz & ez & E1 & E2 & _).
    exists mz, ez. rewrite <- V. split; [exact E1|]. split; [exact E2|].
    assert (0 < IZR (Zpos p))%R by (apply IZR_lt; lia). nra.
  - exfalso. assert (IZR (Zneg p) < 0)%R by (apply IZR_lt; lia). nra.
Qed.

Lemma sub_nn (x c : spec_float) :
  posfin x -> posfin c -> SFleb c x = true -> nn (SFsub 24 128 x c).
Proof.
  intros Px Pc H.
  destruct (sub_input x c Px Pc H) as [[-> _] | (mz & ez & -> & I & _)].
  - exact I.
  - eapply bra_nn. exact I.
Qed.

(** Subtracting a constant is monotone above the constant. *)
Theorem sub_mono (c x y : spec_float) :
  posfin c -> posfin x -> posfin y ->
  SFleb c x = true -> SFleb x y = true ->
  SFleb (SFsub 24 128 x c) (SFsub 24 128 y c) = true.
Proof.
  intros Pc Px Py Hcx Hxy.
  assert (Hcy : SFleb c y = true) by (eapply leb_trans; eassumption).
  pose proof (posfin_leb_F2R x y Px Py Hxy) as HR.
  pose proof (sub_nn y c Py Pc Hcy) as Ny.
  destruct (sub_input x c Px Pc Hcx) as [[-> _] | (m1 & e1 & -> & I1 & V1)].
  - now apply zero_leb_nn.
  - destruct (sub_input y c Py Pc Hcy) as [[_ V2] | (m2 & e2 & -> & I2 & _)].
    + exfalso. lra.
    + eapply bra_mono; [|exact I1|exact I2]. lra.
Qed.

Lemma cell_loc (x F : R) (q e : Z) (l : location) :
  x = ((IZR q + F) * bpow e)%R -> loc_frac l F ->
  cell x (recM (shr_record_of_loc q l)) (e - 1)
       (shr_s (shr_record_of_loc q l)).
Proof.
  intros -> HF.
  assert (V : bpow e = (2 * bpow (e - 1))%R).
  { replace e with ((e - 1) + 1) at 1 by lia. apply bpow_succ. }
  pose proof (bpow_pos (e - 1)) as P. rewrite V.
  unfold cell, recM.
  destruct l as [|[]]; cbn [shr_record_of_loc shr_m shr_r shr_s loc_frac] in *;
    rewrite !plus_IZR, !mult_IZR; try rewrite Z.add_0_r;
    (split; [split; nra|]); (split; [intros H; try discriminate H; nra|]);
    intros H; try reflexivity; exfalso; nra.
Qed.

Lemma div_core_input (m1 m2 : positive) (e1 e2 : Z) :
  let '(q, e', l) := SFdiv_core_binary 24 128 (Zpos m1) e1 (Zpos m2) e2 in
  rnd_input (IZR (Zpos m1) * bpow e1 / (IZR (Zpos m2) * bpow e2)) q e' l.
Proof.
  unfold SFdiv_core_binary. rewrite fexp_fexp32.
  set (d1 := Zdigits2 (Zpos m1)). set (d2 := Zdigits2 (Zpos m2)).
  set (e' := Z.min (fexp32 (d1 + e1 - (d2 + e2))) (e1 - e2)).
  set (s := e1 - e2 - e').
  assert (Hs : 0 <= s) by (unfold s, e'; lia).
  set (m' := match s with Zpos _ => Z.shiftl (Zpos m1) s | Z0 => Zpos m1
             | Zneg _ => 0 end).
  assert (Hm' : m' = Zpos m1 * 2 ^ s).
  { unfold m'. destruct s as [|p|p]; [simpl; lia | | lia].
    apply Z.shiftl_mul_pow2. lia. }
  clearbody m'.
  pose proof (Z_div_mod m' (Zpos m2) ltac:(lia)) as DM.
  destruct (Z.div_eucl m' (Zpos m2)) as [q r]. destruct DM as [DM Hr].
  destruct (Zdigits2_bounds (Zpos m1) ltac:(lia)) as [[L1 U1] D1].
  destruct (Zdigits2_bounds (Zpos m2) ltac:(lia)) as [[L2 U2] D2].
  fold d1 in L1, U1, D1. fold d2 in L2, U2, D2.
  assert (P2s : 0 < 2 ^ s) by (apply Z.pow_pos_nonneg; lia).
  assert (Hq : 0 <= q) by nia.
  set (x := (IZR (Zpos m1) * bpow e1 / (IZR (Zpos m2) * bpow e2))%R).
  set (F := (IZR r / IZR (Zpos m2))%R).
  assert (Pm2 : (0 < IZR (Zpos m2))%R) by (apply IZR_lt; lia).
  assert (Hx : x = ((IZR q + F) * bpow e')%R).
  { unfold x, F.
    assert (E1 : bpow e1 = (bpow s * bpow e2 * bpow e')%R).
    { rewrite <- !bpow_add. f_equal. unfold s. lia. }
    assert (Em : (IZR (Zpos m1) * bpow s = IZR (Zpos m2) * IZR q + IZR r)%R).
    { rewrite bpow_IZR by lia. rewrite <- mult_IZR, <- Hm', DM.
      now rewrite plus_IZR, mult_IZR. }
    pose proof (bpow_pos e2). pose proof (bpow_pos s).
    rewrite E1. field_simplify; try lra.
    replace (IZR (Zpos m1) * bpow s * bpow e')%R
      with ((IZR (Zpos m1) * bpow s) * bpow e')%R by ring.
    rewrite Em. field. lra. }
  assert (HF : (F * IZR (Zpos m2) = IZR r)%R) by (unfold F; field; lra).
  assert (Hr0 : (0 <= IZR r)%R) by (apply IZR_le; lia).
  assert (Hr1 : (IZR r < IZR (Zpos m2))%R) by (apply IZR_lt; lia).
  unfold rnd_input. split; [exact Hq|]. split.
  - (* enough digits *)
    set (t := d1 + e1 - (d2 + e2) - e').
    destruct (Z_le_gt_dec t 0) as [T|T].
    + assert (e' <= -149) by (unfold e', t, fexp32 in *; lia).
      unfold fexp32. lia.
    + assert (Q : 2 ^ (t - 1) <= q).
      { assert (A : 2 ^ (t - 1) * 2 ^ d2 <= m').
        { rewrite Hm', <- Z.pow_add_r by lia.
          replace (t - 1 + d2) with (d1 - 1 + s) by (unfold t, s; lia).
          rewrite Z.pow_add_r by lia. nia. }
        assert (P : 0 < 2 ^ (t - 1)) by (apply Z.pow_pos_nonneg; lia).
        destruct (Z_le_gt_dec (2 ^ (t - 1)) q) as [G|G]; [exact G|]. nia. }
      assert (t - 1 + 1 <= Zdigits2 q) by (apply Zdigits2_ge; lia).
      apply Z.le_trans with (fexp32 (t + e')).
      * replace (t + e') with (d1 + e1 - (d2 + e2)) by (unfold t; lia).
        unfold e'. lia.
      * apply fexp32_mono. lia.
  - apply (cell_loc x F q e'); [exact Hx|].
    unfold new_location, new_location_even, new_location_odd.
    assert (R0 : forall b : bool, (r = 0 -> b = true) -> True) by auto.
    destruct (Z.even (Zpos m2)) eqn:Ev.
    + destruct (Z.eqb_spec r 0) as [->|N]; cbn [loc_frac].
      * simpl in HF. nra.
      * assert (0 < IZR r)%R by (apply IZR_lt; lia).
        destruct (Z.compare_spec (2 * r) (Zpos m2)) as [E|L|G]; cbn [loc_frac].
        -- apply (f_equal IZR) in E. rewrite mult_IZR in E. nra.
        -- apply IZR_lt in L. rewrite mult_IZR in L. split; nra.
        -- apply IZR_lt in G. rewrite mult_IZR in G. split; nra.
    + destruct (Z.eqb_spec r 0) as [->|N]; cbn [loc_frac].
      * simpl in HF. nra.
      * assert (0 < IZR r)%R by (apply IZR_lt; lia).
        destruct (Z.compare_spec (2 * r + 1) (Zpos m2)) as [E|L|G]; cbn [loc_frac].
        -- assert (L : 2 * r < Zpos m2) by lia.
           apply IZR_lt in L. rewrite mult_IZR in L. split; nra.
        -- assert (L' : 2 * r < Zpos m2) by lia.
           apply IZR_lt in L'. rewrite mult_IZR in L'. split; nra.
        -- assert (G' : Zpos m2 < 2 * r).
           { assert (Zpos m2 <> 2 * r); [|lia].
             intros E. rewrite E, Z.even_mul in Ev. discriminate. }
           apply IZR_lt in G'. rewrite mult_IZR in G'. split; nra.
Qed.

Lemma div_finite (mx mc : positive) (ex ec : Z) :
  SFdiv 24 128 (S754_finite false mx ex) (S754_finite false mc ec) =
    let '(q, e', l) := SFdiv_core_binary 24 128 (Zpos mx) ex (Zpos mc) ec in
    bra false q e' l.
Proof. reflexivity. Qed.

Lemma div_input (mx mc : positive) (ex ec : Z) :
  exists (q e' : Z) (l : location),
    SFdiv 24 128 (S754_finite false mx ex) (S754_finite false mc ec) =
      bra false q e' l /\
    rnd_input (F2R (S754_finite false mx ex) / F2R (S754_finite false mc ec))
              q e' l.
Proof.
  rewrite div_finite. pose proof (div_core_input mx mc ex ec) as H.
  destruct (SFdiv_core_binary 24 128 (Zpos mx) ex (Zpos mc) ec) as [[q e'] l].
  exists q, e', l. split; [reflexivity | exact H].
Qed.

Lemma div_nn (c x : spec_float) : posfin c -> nn x -> nn (SFdiv 24 128 x c).
Proof.
  destruct c as [?|?| |[] mc ec]; try (simpl; tauto). intros Hc.
  destruct x as [s|[]| |[] mx ex]; try (simpl; tauto). intros Hx.
  destruct (div_input mx mc ex ec) as (q & e' & l & -> & I).
  eapply bra_nn. exact I.
Qed.

(** Division by a positive constant is monotone. *)
Theorem div_mono (c x y : spec_float) :
  posfin c -> nn x -> nn y -> SFleb x y = true ->
  SFleb (SFdiv 24 128 x c) (SFdiv 24 128 y c) = true.
Proof.
  intros Hc Hx Hy H.
  pose proof (div_nn c x Hc Hx) as Nx. pose proof (div_nn c y Hc Hy) as Ny.
  destruct (nn_leb_cases x y Hx Hy H) as [[s ->] | [-> | [Px Py]]].
  - destruct c as [?|?| |[] mc ec]; simpl in Hc; try tauto.
    cbn [SFdiv xorb]. now apply zero_leb_nn.
  - destruct c as [?|?| |[] mc ec]; simpl in Hc; try tauto.
    replace (SFdiv 24 128 (S754_infinity false) (S754_finite false mc ec))
      with (S754_infinity false) by reflexivity.
    now apply nn_leb_inf.
  - pose proof (posfin_leb_F2R x y Px Py H) as HR.
    pose proof (F2R_pos c Hc) as Pc.
    destruct c as [?|?| |[] mc ec]; simpl in Hc; try tauto.
    destruct x as [?|?| |[] mx ex]; simpl in Px; try tauto.
    destruct y as [?|?| |[] my ey]; simpl in Py; try tauto.
    destruct (div_input mx mc ex ec) as (q1 & e1 & l1 & -> & I1).
    destruct (div_input my mc ey ec) as (q2 & e2 & l2 & -> & I2).
    eapply bra_mono; [|exact I1|exact I2].
    unfold Rdiv. apply Rmult_le_compat_r; [|exact HR].
    apply Rlt_le, Rinv_0_lt_compat. exact Pc.
Qed.

(** ** Square root *)

Lemma sqrt_core_input (m : positive) (e : Z) :
  let '(q, e', l) := SFsqrt_core_binary 24 128 (Zpos m) e in
  rnd_input (sqrt (IZR (Zpos m) * bpow e)) q e' l.
Proof.
  unfold SFsqrt_core_binary. rewrite fexp_fexp32.
  set (d := Zdigits2 (Zpos m)).
  set (g := Z.div2 (d + e + 1)).
  set (e' := Z.min (fexp32 g) (Z.div2 e)).
  set (s := e - 2 * e').
  assert (Hg : 2 * g <= d + e + 1 <= 2 * g + 1).
  { unfold g. rewrite Z.div2_div.
    pose proof (Z.div_mod (d + e + 1) 2 ltac:(lia)).
    pose proof (Z.mod_pos_bound (d + e + 1) 2 ltac:(lia)). lia. }
  assert (He2 : 2 * Z.div2 e <= e).
  { rewrite Z.div2_div. pose proof (Z.div_mod e 2 ltac:(lia)).
    pose proof (Z.mod_pos_bound e 2 ltac:(lia)). lia. }
  assert (Hs : 0 <= s) by (unfold s, e'; lia).
  set (m' := match s with Zpos _ => Z.shiftl (Zpos m) s | Z0 => Zpos m
             | Zneg _ => 0 end).
  assert (Hm' : m' = Zpos m * 2 ^ s).
  { unfold m'. destruct s as [|p|p]; [simpl; lia | | lia].
    apply Z.shiftl_mul_pow2. lia. }
  clearbody m'.
  assert (P2s : 0 < 2 ^ s) by (apply Z.pow_pos_nonneg; lia).
  pose proof (Z.sqrtrem_spec m' ltac:(nia)) as SP.
  destruct (Z.sqrtrem m') as [q r]. destruct SP as [SP Hr].
  destruct (Zdigits2_bounds (Zpos m) ltac:(lia)) as [[L1 U1] D1].
  fold d in L1, U1, D1.
  assert (Hq : 0 <= q) by lia.
  set (S := sqrt (IZR m')).
  assert (Pm' : (0 <= IZR m')%R) by (apply IZR_le; nia).
  assert (SS : (S * S = IZR q * IZR q + IZR r)%R).
  { unfold S. rewrite sqrt_sqrt by exact Pm'.
    rewrite SP, plus_IZR, mult_IZR. reflexivity. }
  assert (S0 : (0 <= S)%R) by apply sqrt_pos.
  assert (Q0 : (0 <= IZR q)%R) by (apply IZR_le; lia).
  assert (R0 : (0 <= IZR r)%R) by (apply IZR_le; lia).
  assert (R1 : (IZR r <= 2 * IZR q)%R)
    by (rewrite <- mult_IZR; apply IZR_le; lia).
  set (F := (S - IZR q)%R).
  assert (F0 : (0 <= F)%R) by (unfold F; nra).
  assert (F1 : (F < 1)%R) by (unfold F; nra).
  assert (FF : (2 * IZR q * F + F * F = IZR r)%R) by (unfold F; nra).
  assert (Hx : sqrt (IZR (Zpos m) * bpow e) = ((IZR q + F) * bpow e')%R).
  { unfold F. replace (IZR q + (S - IZR q))%R with S by ring.
    assert (E : (IZR (Zpos m) * bpow e = IZR m' * (bpow e' * bpow e'))%R).
    { rewrite Hm', mult_IZR, <- bpow_IZR, <- !bpow_add by lia.
      rewrite Rmult_assoc, <- bpow_add. f_equal. f_equal. unfold s. lia. }
    rewrite E, sqrt_mult; [|exact Pm'|pose proof (bpow_pos e'); nra].
    rewrite sqrt_square by (apply Rlt_le, bpow_pos). reflexivity. }
  unfold rnd_input. split; [exact Hq|]. split.
  - set (t := g - e').
    destruct (Z_le_gt_dec t 0) as [T|T].
    + assert (e' <= -149) by (unfold e', t, fexp32 in *; lia).
      unfold fexp32. lia.
    + assert (Q : 2 ^ (t - 1) <= q).
      { assert (A : 2 ^ (t - 1) * 2 ^ (t - 1) <= m').
        { rewrite Hm', <- Z.pow_add_r by lia.
          apply Z.le_trans with (2 ^ (d - 1 + s)).
          - apply Z.pow_le_mono_r; [lia|]. unfold t, s. lia.
          - rewrite Z.pow_add_r by lia. nia. }
        assert (P : 0 < 2 ^ (t - 1)) by (apply Z.pow_pos_nonneg; lia).
        destruct (Z_le_gt_dec (2 ^ (t - 1)) q) as [G|G]; [exact G|]. nia. }
      assert (t - 1 + 1 <= Zdigits2 q) by (apply Zdigits2_ge; lia).
      apply Z.le_trans with (fexp32 g); [unfold e'; lia|].
      apply fexp32_mono. unfold t in *. lia.
  - apply (cell_loc _ F q e'); [exact Hx|].
    destruct (Z.eqb_spec r 0) as [->|N]; cbn [loc_frac].
    + simpl in FF. nra.
    + assert (0 < r) by lia. apply IZR_lt in H.
      destruct (Z.leb_spec r q) as [L|G]; cbn [loc_frac].
      * apply IZR_le in L. split; nra.
      * assert (G' : q + 1 <= r) by lia. apply IZR_le in G'.
        rewrite plus_IZR in G'. split; nra.
Qed.

Lemma sqrt_input (m : positive) (e : Z) :
  exists (q e' : Z) (l : location),
    SFsqrt 24 128 (S754_finite false m e) = bra false q e' l /\
    rnd_input (sqrt (F2R (S754_finite false m e))) q e' l.
Proof.
  cbn [SFsqrt F2R]. pose proof (sqrt_core_input m e) as H.
  destruct (SFsqrt_core_binary 24 128 (Zpos m) e) as [[q e'] l].
  exists q, e', l. split; [reflexivity | exact H].
Qed.

Lemma sqrt_nn (x : spec_float) : nn x -> nn (SFsqrt 24 128 x).
Proof.
  destruct x as [s|[]| |[] mx ex]; try (simpl; tauto). intros Hx.
  destruct (sqrt_input mx ex) as (q & e' & l & -> & I).
  eapply bra_nn. exact I.
Qed.

(** The square root is monotone. *)
Theorem sqrt_mono (x y : spec_float) :
  nn x -> nn y -> SFleb x y = true ->
  SFleb (SFsqrt 24 128 x) (SFsqrt 24 128 y) = true.
Proof.
  intros Hx Hy H.
  pose proof (sqrt_nn x Hx) as Nx. pose proof (sqrt_nn y Hy) as Ny.
  destruct (nn_leb_cases x y Hx Hy H) as [[s ->] | [-> | [Px Py]]].
  - cbn [SFsqrt]. now apply zero_leb_nn.
  - cbn [SFsqrt]. now apply nn_leb_inf.
  - pose proof (posfin_leb_F2R x y Px Py H) as HR.
    destruct x as [?|?| |[] mx ex]; simpl in Px; try tauto.
    destruct y as [?|?| |[] my ey]; simpl in Py; try tauto.
    destruct (sqrt_input mx ex) as (q1 & e1 & l1 & -> & I1).
    destruct (sqrt_input my ey) as (q2 & e2 & l2 & -> & I2).
    eapply bra_mono; [|exact I1|exact I2].
    apply sqrt_le_1_alt. exact HR.
Qed.

(** ** No NaN out of rounding *)

Lemma out_not_nan (s : bool) (m E : Z) :
  -149 <= E -> 0 <= m <= 2 ^ 24 -> F32.is_nan (out s m E) = false.
Proof.
  intros HE Hm. rewrite out_cases by assumption.
  destruct (m =? 0), (m <? 2 ^ 24), (E <=? 104), (E + 1 <=? 104); reflexivity.
Qed.

Lemma bra_not_nan (x : R) (s : bool) (m e : Z) (l : location) :
  rnd_input x m e l -> F32.is_nan (bra s m e l) = false.
Proof.
  intros Hin.
  destruct (bra_out x s m e l Hin) as (M & st & C & B & N & ->).
  cbv zeta in *. pose proof (rne_bounds M st).
  apply out_not_nan; unfold fexp32 in *; lia.
Qed.

Lemma binary_normalize_not_nan (z e : Z) (sz : bool) :
  F32.is_nan (binary_normalize 24 128 z e sz) = false.
Proof.
  destruct z as [|p|p]; cbn [binary_normalize]; [reflexivity| |].
  - destruct (binary_round_input false p e) as (mz & ez & -> & I & _).
    eapply bra_not_nan; exact I.
  - destruct (binary_round_input true p e) as (mz & ez & -> & I & _).
    eapply bra_not_nan; exact I.
Qed.

Lemma sub_not_nan (a b : spec_float) :
  finite a = true -> finite b = true -> F32.is_nan (SFsub 24 128 a b) = false.
Proof.
  destruct a as [sa|?| |sa ma ea], b as [sb|?| |sb mb eb];
    try discriminate; intros _ _; cbn [SFsub].
  - destruct sa, sb; reflexivity.
  - reflexivity.
  - reflexivity.
  - apply binary_normalize_not_nan.
Qed.

(** Rounding a number of the format returns it. *)
Lemma bra_id (m : positive) (e : Z) :
  bounded 24 128 m e = true ->
  bra false (Zpos m) e loc_Exact = S754_finite false m e /\
  rnd_input (F2R (S754_finite false m e)) (Zpos m) e loc_Exact.
Proof.
  intros B. pose proof (bounded_digits m e B) as D. cbv zeta in D.
  apply bounded_spec in B. destruct B as [B1 B2].
  pose proof (digits2_pos_bounds m) as P.
  split.
  - rewrite bra_unfold. unfold shr_fexp. rewrite fexp_fexp32.
    cbn [Zdigits2]. rewrite B1, Z.sub_diag. cbn [shr fst snd].
    cbn [shr_record_of_loc shr_m loc_of_shr_record round_nearest_even].
    rewrite out_cases; [|lia|].
    + destruct (Z.eqb_spec (Zpos m) 0); [lia|].
      assert (L : Zpos m < 2 ^ 24).
      { eapply Z.lt_le_trans; [apply P|]. apply Z.pow_le_mono_r; lia. }
      destruct (Z.ltb_spec (Zpos m) (2 ^ 24)); [|lia].
      destruct (Z.leb_spec e 104); [|lia]. reflexivity.
    + split; [lia|]. apply Z.lt_le_incl.
      eapply Z.lt_le_trans; [apply P|]. apply Z.pow_le_mono_r; lia.
  - cbn [F2R]. apply rnd_input_exact; [lia|]. cbn [Zdigits2]. lia.
Qed.

(** ** Addition *)

Lemma add_finite (mx my : positive) (ex ey : Z) :
  SFadd 24 128 (S754_finite false mx ex) (S754_finite false my ey) =
    binary_normalize 24 128
      (Zpos (fst (shl_align mx ex (Z.min ex ey))) +
       Zpos (fst (shl_align my ey (Z.min ex ey)))) (Z.min ex ey) false.
Proof. reflexivity. Qed.

Lemma add_input (mx my : positive) (ex ey : Z) :
  exists (mz ez : Z),
    SFadd 24 128 (S754_finite false mx ex) (S754_finite false my ey) =
      bra false mz ez loc_Exact /\
    rnd_input (F2R (S754_finite false mx ex) + F2R (S754_finite false my ey))
              mz ez loc_Exact.
Proof.
  rewrite add_finite. set (ez := Z.min ex ey).
  destruct (shl_align_spec mx ex ez) as [Ax _].
  destruct (shl_align_spec my ey ez) as [Ay _]. cbv zeta in Ax, Ay.
  destruct (Ax ltac:(unfold ez; lia)) as [_ Vx].
  destruct (Ay ltac:(unfold ez; lia)) as [_ Vy].
  set (k := Zpos (fst (shl_align mx ex ez)) + Zpos (fst (shl_align my ey ez))).
  assert (V : (IZR k * bpow ez =
               F2R (S754_finite false mx ex) + F2R (S754_finite false my ey))%R).
  { unfold k. rewrite Vx, Vy. cbn [F2R]. rewrite plus_IZR, !mult_IZR.
    rewrite <- !bpow_IZR by (unfold ez; lia).
    assert (Ex : bpow ex = (bpow (ex - ez) * bpow ez)%R)
      by (rewrite <- bpow_add; f_equal; lia).
    assert (Ey : bpow ey = (bpow (ey - ez) * bpow ez)%R)
      by (rewrite <- bpow_add; f_equal; lia).
    rewrite Ex, Ey. ring. }
  destruct k as [|p|p] eqn:K; try (unfold k in K; lia).
  cbn [binary_normalize].
  destruct (binary_round_input false p ez) as (mz & e' & E1 & E2 & _).
  exists mz, e'. rewrite <- V. split; assumption.
Qed.

Lemma add_nn (a b : spec_float) : nn a -> nn b -> nn (SFadd 24 128 a b).
Proof.
  destruct a as [sa|[]| |[] ma ea]; try (simpl; tauto); intros Ha;
    destruct b as [sb|[]| |[] mb eb]; try (simpl; tauto); intros Hb;
    try exact I; try exact Ha; try exact Hb.
  - cbn [SFadd]. destruct sa, sb; exact I.
  - destruct (add_input ma mb ea eb) as (mz & ez & -> & I).
    eapply bra_nn. exact I.
Qed.

Lemma SFadd_comm_nn (a b : spec_float) :
  nn a -> nn b ->
  SFleb (SFadd 24 128 a b) (SFadd 24 128 b a) = true /\
  SFleb (SFadd 24 128 b a) (SFadd 24 128 a b) = true.
Proof.
  destruct a as [sa|[]| |[] ma ea]; try (simpl; tauto); intros Ha;
    destruct b as [sb|[]| |[] mb eb]; try (simpl; tauto); intros Hb;
    cbn [SFadd]; try (split; reflexivity).
  - destruct sa, sb; split; reflexivity.
  - split; eapply leb_of_key; try reflexivity; rewrite lex3_refl; discriminate.
  - split; eapply leb_of_key; try reflexivity; rewrite lex3_refl; discriminate.
  - rewrite (Z.min_comm eb ea), (Z.add_comm (Zpos (fst (shl_align mb eb (Z.min ea eb))))).
    pose proof (add_nn (S754_finite false ma ea) (S754_finite false mb eb) Ha Hb) as N.
    rewrite add_finite in N.
    destruct (nn_key _ N) as (k & Hk & _).
    split; eapply leb_of_key; try exact Hk; rewrite lex3_refl; discriminate.
Qed.

Lemma leb_refl_nn (a : spec_float) : nn a -> SFleb a a = true.
Proof.
  intros N. destruct (nn_key _ N) as (k & Hk & _).
  eapply leb_of_key; try exact Hk. rewrite lex3_refl. discriminate.
Qed.

(** Addition of a non-negative constant is monotone. *)
Lemma add_mono_l (b x y : spec_float) :
  nn b -> nn x -> nn y -> SFleb x y = true ->
  SFleb (SFadd 24 128 x b) (SFadd 24 128 y b) = true.
Proof.
  intros Hb Hx Hy H.
  pose proof (add_nn x b Hx Hb) as Nx. pose proof (add_nn y b Hy Hb) as Ny.
  destruct b as [sb|[]| |[] mb eb]; try (simpl in Hb; tauto).
  - (* b = 0 *)
    destruct (nn_leb_cases x y Hx Hy H) as [[s ->] | [-> | [Px Py]]].
    + apply leb_trans with (S754_zero false).
      * cbn [SFadd]. destruct s, sb; reflexivity.
      * now apply zero_leb_nn.
    + now apply nn_leb_inf.
    + destruct x as [?|?| |[] mx ex]; simpl in Px; try tauto.
      destruct y as [?|?| |[] my ey]; simpl in Py; try tauto; try exact H.
  - (* b = +inf *)
    destruct x as [?|[]| |[] ? ?]; try (simpl in Hx; tauto);
      destruct y as [?|[]| |[] ? ?]; try (simpl in Hy; tauto); reflexivity.
  - (* b positive *)
    destruct (nn_leb_cases x y Hx Hy H) as [[s ->] | [-> | [Px Py]]].
    + replace (SFadd 24 128 (S754_zero s) (S754_finite false mb eb))
        with (S754_finite false mb eb) by reflexivity.
      destruct y as [?|[]| |[] my ey]; try (simpl in Hy; tauto);
        try reflexivity.
      * now apply leb_refl_nn.
      * destruct (bra_id mb eb Hb) as [Eb Ib]. rewrite <- Eb at 1.
        destruct (add_input my mb ey eb) as (mz & ez & -> & I2).
        eapply bra_mono; [|exact Ib|exact I2].
        pose proof (F2R_pos (S754_finite false my ey) Hy). lra.
    + replace (SFadd 24 128 (S754_infinity false) (S754_finite false mb eb))
        with (S754_infinity false) by reflexivity.
      now apply nn_leb_inf.
    + pose proof (posfin_leb_F2R x y Px Py H) as HR.
      destruct x as [?|?| |[] mx ex]; simpl in Px; try tauto.
      destruct y as [?|?| |[] my ey]; simpl in Py; try tauto.
      destruct (add_input mx mb ex eb) as (m1 & e1 & -> & I1).
      destruct (add_input my mb ey eb) as (m2 & e2 & -> & I2).
      eapply bra_mono; [|exact I1|exact I2]. lra.
Qed.

Theorem add_mono (a a' b b' : spec_float) :
  nn a -> nn a' -> nn b -> nn b' ->
  SFleb a a' = true -> SFleb b b' = true ->
  SFleb (SFadd 24 128 a b) (SFadd 24 128 a' b') = true.
Proof.
  intros Ha Ha' Hb Hb' H1 H2.
  apply leb_trans with (SFadd 24 128 a' b).
  - now apply add_mono_l.
  - apply leb_trans with (SFadd 24 128 b a').
    + now apply SFadd_comm_nn.
    + apply leb_trans with (SFadd 24 128 b' a').
      * now apply add_mono_l.
      * now apply SFadd_comm_nn.
Qed.

(** ** Conversion of integers *)

Lemma of_Z_input (p : positive) :
  exists (mz ez : Z),
    binary_normalize 24 128 (Zpos p) 0 false = bra false mz ez loc_Exact /\
    rnd_input (IZR (Zpos p)) mz ez loc_Exact.
Proof.
  cbn [binary_normalize].
  destruct (binary_round_input false p 0) as (mz & ez & E1 & E2 & _).
  exists mz, ez. split; [exact E1|].
  rewrite bpow_0, Rmult_1_r in E2. exact E2.
Qed.

Lemma of_Z_nn (z : Z) : 0 <= z -> nn (binary_normalize 24 128 z 0 false).
Proof.
  intros Hz. destruct z as [|p|p]; [exact I| |lia].
  destruct (of_Z_input p) as (mz & ez & -> & I). eapply bra_nn. exact I.
Qed.

Theorem of_Z_mono (a b : Z) :
  0 <= a <= b ->
  SFleb (binary_normalize 24 128 a 0 false)
        (binary_normalize 24 128 b 0 false) = true.
Proof.
  intros [Ha Hab].
  pose proof (of_Z_nn b ltac:(lia)) as Nb.
  destruct a as [|p|p]; [now apply zero_leb_nn| |lia].
  destruct b as [|q|q]; try lia.
  destruct (of_Z_input p) as (m1 & e1 & -> & I1).
  destruct (of_Z_input q) as (m2 & e2 & -> & I2).
  eapply bra_mono; [|exact I1|exact I2]. apply IZR_le. exact Hab.
Qed.

(** A non-zero [long] converts to a non-zero finite float. *)
Lemma of_Z_finite (z : Z) :
  z <> 0 -> - 2 ^ 32 < z < 2 ^ 32 ->
  exists s m e, binary_normalize 24 128 z 0 false = S754_finite s m e.
Proof.
  intros Hz Hr.
  assert (G : forall s p, Zpos p < 2 ^ 32 ->
            exists m e, binary_round 24 128 s p 0 = S754_finite s m e).
  { intros s p Hp.
    destruct (binary_round_input s p 0) as (mz & ez & -> & I & D).
    destruct (bra_out _ s mz ez loc_Exact I) as (M & st & C & B & N & ->).
    cbv zeta in *. rewrite D in *. rewrite Z.add_0_r in *.
    assert (Hd : 1 <= Zpos (digits2_pos p) <= 32).
    { split; [lia|]. apply (Zdigits2_le (Zpos p) 32); lia. }
    pose proof (rne_bounds M st) as Q.
    set (E := fexp32 (Zpos (digits2_pos p))) in *.
    assert (HE : -149 < E <= 8) by (unfold E, fexp32; lia).
    specialize (N ltac:(lia)).
    rewrite out_cases by lia.
    destruct (Z.eqb_spec (rne M st) 0); [lia|].
    destruct (Z.ltb_spec (rne M st) (2 ^ 24)).
    - destruct (Z.leb_spec E 104); [eauto | lia].
    - destruct (Z.leb_spec (E + 1) 104); [eauto | lia]. }
  destruct z as [|p|p]; [congruence | |]; cbn [binary_normalize].
  - destruct (G false p ltac:(lia)) as (m & e & ->). eauto.
  - destruct (G true p ltac:(lia)) as (m & e & ->). eauto.
Qed.

(** ** Truncation *)

Lemma trunc_floor (m : positive) (e : Z) :
  exists z, F32.trunc (S754_finite false m e) = Some z /\ 0 <= z /\
            (IZR z <= F2R (S754_finite false m e) < IZR z + 1)%R.
Proof.
  cbn [F32.trunc F2R].
  destruct e as [|p|p].
  - exists (Zpos m). split; [reflexivity|]. split; [lia|].
    rewrite bpow_0. lra.
  - exists (Zpos m * 2 ^ Zpos p). split.
    + f_equal. apply Z.shiftl_mul_pow2. lia.
    + split; [lia|]. rewrite mult_IZR, <- bpow_IZR by lia. lra.
  - exists (Zpos m / 2 ^ Zpos p). split.
    + f_equal. apply Z.shiftr_div_pow2. lia.
    + assert (P : 0 < 2 ^ Zpos p) by (apply Z.pow_pos_nonneg; lia).
      pose proof (Z.div_mod (Zpos m) (2 ^ Zpos p) ltac:(lia)) as DM.
      pose proof (Z.mod_pos_bound (Zpos m) (2 ^ Zpos p) P) as MB.
      split; [apply Z.div_pos; lia|].
      set (q := Zpos m / 2 ^ Zpos p) in *. set (r := Zpos m mod 2 ^ Zpos p) in *.
      assert (B : (bpow (Zneg p) * IZR (2 ^ Zpos p) = 1)%R).
      { rewrite <- bpow_IZR, <- bpow_add by lia.
        replace (Zneg p + Zpos p) with 0 by lia. apply bpow_0. }
      assert (EM : (IZR (Zpos m) = IZR (2 ^ Zpos p) * IZR q + IZR r)%R).
      { rewrite DM at 1. now rewrite plus_IZR, mult_IZR. }
      assert (R0 : (0 <= IZR r)%R) by (apply IZR_le; lia).
      assert (R1 : (IZR r < IZR (2 ^ Zpos p))%R) by (apply IZR_lt; lia).
      pose proof (bpow_pos (Zneg p)) as Pb.
      rewrite EM.
      replace ((IZR (2 ^ Zpos p) * IZR q + IZR r) * bpow (Zneg p))%R
        with (IZR q * (bpow (Zneg p) * IZR (2 ^ Zpos p)) + IZR r * bpow (Zneg p))%R
        by ring.
      rewrite B. split; nra.
Qed.

(** Below a bound that casts to [long], a non-negative float casts too. *)
Lemma trunc_bounded (f b : spec_float) (zb : Z) :
  nn f -> posfin b -> SFleb f b = true -> F32.trunc b = Some zb ->
  exists z, F32.trunc f = Some z /\ 0 <= z <= zb.
Proof.
  intros Hf Hb H Tb.
  destruct (nn_leb_cases f b Hf (posfin_nn b Hb) H) as [[s ->] | [-> | [Pf Pb]]].
  - exists 0. split; [reflexivity|].
    destruct b as [?|?| |[] mb eb]; simpl in Hb; try tauto.
    destruct (trunc_floor mb eb) as (z & Tz & Z0 & _).
    rewrite Tz in Tb. injection Tb as <-. lia.
  - simpl in Hb. tauto.
  - pose proof (posfin_leb_F2R f b Pf Pb H) as HR.
    destruct f as [?|?| |[] mf ef]; simpl in Pf; try tauto.
    destruct b as [?|?| |[] mb eb]; simpl in Pb; try tauto.
    destruct (trunc_floor mf ef) as (z & Tz & Z0 & [Lf Uf]).
    destruct (trunc_floor mb eb) as (z' & Tz' & Z0' & [Lb Ub]).
    rewrite Tz' in Tb. injection Tb as <-.
    exists z. split; [exact Tz|]. split; [exact Z0|].
    assert (IZR z < IZR (z' + 1))%R by (rewrite plus_IZR; lra).
    apply lt_IZR in H0. lia.
Qed.

(** ** Machine integers *)

Lemma wrap_small (bits z : Z) :
  0 < bits -> - 2 ^ (bits - 1) <= z < 2 ^ (bits - 1) -> wrap bits z = z.
Proof.
  intros Hb Hz. unfold wrap.
  assert (E : 2 ^ bits = 2 * 2 ^ (bits - 1)).
  { replace bits with (Z.succ (bits - 1)) at 1 by lia.
    apply Z.pow_succ_r. lia. }
  rewrite Z.mod_small by lia. lia.
Qed.

Lemma wrap_int_small (z : Z) : -32768 <= z < 32768 -> wrap_int z = z.
Proof. intros H. apply wrap_small; simpl; lia. Qed.

Lemma wrap_long_small (z : Z) : in_long z -> wrap_long z = z.
Proof.
  unfold in_long, LONG_MIN, LONG_MAX. intros H.
  apply wrap_small; simpl in *; lia.
Qed.

Lemma wrap_int_succ (k : Z) : wrap_int (wrap_int k + 1) = wrap_int (k + 1).
Proof.
  unfold wrap_int, wrap.
  replace ((k + 2 ^ (16 - 1)) mod 2 ^ 16 - 2 ^ (16 - 1) + 1 + 2 ^ (16 - 1))
    with ((k + 2 ^ (16 - 1)) mod 2 ^ 16 + 1) by lia.
  rewrite Z.add_mod_idemp_l by (simpl; lia).
  replace (k + 2 ^ (16 - 1) + 1) with (k + 1 + 2 ^ (16 - 1)) by lia.
  reflexivity.
Qed.

(** ** The two branches of a cycle *)

Lemma loop_invalid_state (cal : Calibration) (st : State) (raw : Z) :
  invalid_at cal st raw ->
  fst (loop cal st raw) =
    {| filteredReading := filteredReading st;
       lastValidHeight := lastValidHeight st;
       failureCount := wrap_int (failureCount st + 1);
       inFallbackMode :=
         if negb (inFallbackMode st) &&
            (MAX_FAILURES <=? wrap_int (failureCount st + 1))
         then true else inFallbackMode st |}.
Proof. unfold invalid_at, loop. intros ->. reflexivity. Qed.

Lemma loop_invalid_frame (cal : Calibration) (st : State) (raw : Z) :
  invalid_at cal st raw ->
  let fr := snd (loop cal st raw) in
  isValid fr = false /\
  heightSnapped fr = lastValidHeight st /\
  heightCalculated fr = lastValidHeight st /\
  notice fr =
    if negb (inFallbackMode st) &&
       (MAX_FAILURES <=? wrap_int (failureCount st + 1))
    then Some FallbackActivated else None.
Proof. unfold invalid_at, loop. intros ->. simpl. auto. Qed.

Lemma loop_valid_state (cal : Calibration) (st : State) (raw : Z) :
  validateReading cal (filteredReading st) raw = true ->
  fst (loop cal st raw) =
    {| filteredReading := ema (filteredReading st) raw;
       lastValidHeight :=
         snapToRealisticValue (mapHeight cal (ema (filteredReading st) raw));
       failureCount := 0;
       inFallbackMode := false |}.
Proof. unfold loop. intros ->. reflexivity. Qed.

Lemma loop_valid_frame (cal : Calibration) (st : State) (raw : Z) :
  validateReading cal (filteredReading st) raw = true ->
  let fr := snd (loop cal st raw) in
  isValid fr = true /\
  heightCalculated fr = mapHeight cal (ema (filteredReading st) raw) /\
  heightSnapped fr = snapToRealisticValue (heightCalculated fr) /\
  notice fr = if inFallbackMode st then Some NormalRestored else None.
Proof. unfold loop. intros ->. simpl. auto. Qed.

Lemma cycles_cons (cal : Calibration) (st : State) (raw : Z) (rest : list Z) :
  cycles cal st (raw :: rest) =
    (fst (cycles cal (fst (loop cal st raw)) rest),
     snd (loop cal st raw) :: snd (cycles cal (fst (loop cal st raw)) rest)).
Proof.
  simpl. destruct (loop cal st raw) as [st1 fr].
  simpl. destruct (cycles cal st1 rest). reflexivity.
Qed.

Lemma cycles_length (cal : Calibration) (raws : list Z) :
  forall st, length (snd (cycles cal st raws)) = length raws.
Proof.
  induction raws as [|raw rest IH]; intros st.
  - reflexivity.
  - rewrite cycles_cons. simpl. now rewrite IH.
Qed.

(** ** The fallback controller *)

Lemma after_failures_step (cal : Calibration) (st : State) (raw c : Z) :
  0 <= c -> after_failures c st -> invalid_at cal st raw ->
  after_failures (c + 1) (fst (loop cal st raw)) /\
  notice (snd (loop cal st raw)) =
    (if c + 1 =? MAX_FAILURES then Some FallbackActivated else None).
Proof.
  intros Hc [Hcount Hmode] Hinv.
  destruct (loop_invalid_frame cal st raw Hinv) as (_ & _ & _ & Hnote).
  rewrite Hnote, (loop_invalid_state cal st raw Hinv).
  unfold after_failures; simpl.
  rewrite Hcount, wrap_int_succ, Hmode. unfold MAX_FAILURES.
  destruct (5 <=? c) eqn:E5; simpl.
  - apply Z.leb_le in E5.
    repeat split; auto.
    + symmetry; apply Z.leb_le; lia.
    + destruct (c + 1 =? 5) eqn:E; [apply Z.eqb_eq in E; lia | reflexivity].
  - apply Z.leb_gt in E5.
    rewrite (wrap_int_small (c + 1)) by lia.
    repeat split; auto.
    + destruct (5 <=? c + 1); reflexivity.
    + destruct (5 <=? c + 1) eqn:E6; destruct (c + 1 =? 5) eqn:E; auto.
      * apply Z.leb_le in E6. apply Z.eqb_neq in E. lia.
      * apply Z.leb_gt in E6. apply Z.eqb_eq in E. lia.
Qed.

Lemma streak_step (cal : Calibration) (st : State) (raw : Z) (rest : list Z) :
  invalid_at cal st raw ->
  streak cal st rest -> streak cal (fst (loop cal st raw)) rest.
Proof.
  intros Hinv H. unfold streak, invalid_at in *.
  now rewrite (loop_invalid_state cal st raw Hinv).
Qed.

Lemma streak_controller (cal : Calibration) (raws : list Z) :
  forall (c : Z) (st : State),
    0 <= c -> after_failures c st -> streak cal st raws ->
    after_failures (c + Z.of_nat (length raws)) (fst (cycles cal st raws)) /\
    forall (k : nat) (fr : Frame),
      nth_error (snd (cycles cal st raws)) k = Some fr ->
      notice fr =
        if c + Z.of_nat k + 1 =? MAX_FAILURES
        then Some FallbackActivated else None.
Proof.
  induction raws as [|raw rest IH]; intros c st Hc H Hs.
  - simpl. rewrite Z.add_0_r. split; [assumption|].
    intros [|k] fr; discriminate.
  - inversion Hs as [|? ? Hraw Hrest]; subst.
    destruct (after_failures_step cal st raw c Hc H Hraw) as [H1 Hn].
    destruct (IH (c + 1) (fst (loop cal st raw))) as [IH1 IH2];
      [lia | assumption | now apply streak_step |].
    rewrite cycles_cons. cbn [fst snd length].
    split.
    + replace (c + Z.of_nat (S (length rest)))
        with (c + 1 + Z.of_nat (length rest)) by lia.
      exact IH1.
    + intros [|k] fr Hk; cbn [nth_error] in Hk.
      * injection Hk as <-. now rewrite Hn, Z.add_0_r.
      * rewrite (IH2 k fr Hk).
        now replace (c + Z.of_nat (S k) + 1) with (c + 1 + Z.of_nat k + 1)
          by lia.
Qed.

(** C1.  From a state with [failureCount = 0] and [inFallbackMode = false],
    after a streak of [n] rejected readings the controller is in fallback
    mode exactly when [n >= MAX_FAILURES = 5]; the activation notice is
    printed in the fifth cycle of the streak and in no other; and whatever
    the length of the streak, a reading that is accepted next sets
    [failureCount] to 0 and [inFallbackMode] to false. *)
Theorem fallback_after_max_failures
    (cal : Calibration) (st : State) (raws : list Z) :
  failureCount st = 0 ->
  inFallbackMode st = false ->
  streak cal st raws ->
  let st' := fst (cycles cal st raws) in
  inFallbackMode st' = (5 <=? Z.of_nat (length raws)) /\
  failureCount st' = wrap_int (Z.of_nat (length raws)) /\
  (forall (k : nat) (fr : Frame),
      nth_error (snd (cycles cal st raws)) k = Some fr ->
      notice fr = Some FallbackActivated <-> k = 4%nat) /\
  (forall raw : Z,
      validateReading cal (filteredReading st') raw = true ->
      failureCount (fst (loop cal st' raw)) = 0 /\
      inFallbackMode (fst (loop cal st' raw)) = false).
Proof.
  intros Hc Hm Hs st'.
  destruct (streak_controller cal raws 0 st) as [[H1 H2] H3];
    [lia | split; [exact Hc | exact Hm] | exact Hs |].
  fold st' in H1, H2. simpl in H1, H2.
  repeat split.
  - exact H2.
  - exact H1.
  - rewrite (H3 k fr H). unfold MAX_FAILURES.
    destruct (0 + Z.of_nat k + 1 =? 5) eqn:E; [|discriminate].
    apply Z.eqb_eq in E. lia.
  - intros ->. rewrite (H3 4%nat fr H). reflexivity.
  - rewrite (loop_valid_state cal st' raw H). reflexivity.
  - rewrite (loop_valid_state cal st' raw H). reflexivity.
Qed.

Lemma fallback_after_max_failures_witness :
  inFallbackMode (fst (cycles configured initial_state [-2; -2; -2; -2])) = false /\
  inFallbackMode (fst (cycles configured initial_state [-2; -2; -2; -2; -2])) = true.
Proof.
  split.
  - apply (fallback_after_max_failures configured initial_state [-2; -2; -2; -2]);
      try reflexivity.
    repeat constructor.
  - apply (fallback_after_max_failures configured initial_state
             [-2; -2; -2; -2; -2]); try reflexivity.
    repeat constructor.
Defined.

(** ** Hold last known good *)

Lemma streak_holds (cal : Calibration) (raws : list Z) :
  forall st : State,
    streak cal st raws ->
    lastValidHeight (fst (cycles cal st raws)) = lastValidHeight st /\
    filteredReading (fst (cycles cal st raws)) = filteredReading st /\
    Forall (fun fr => isValid fr = false /\
                      heightSnapped fr = lastValidHeight st /\
                      heightCalculated fr = lastValidHeight st)
           (snd (cycles cal st raws)).
Proof.
  induction raws as [|raw rest IH]; intros st Hs.
  - simpl. auto.
  - inversion Hs as [|? ? Hraw Hrest]; subst.
    destruct (IH (fst (loop cal st raw)) (streak_step cal st raw rest Hraw Hrest))
      as (IH1 & IH2 & IH3).
    destruct (loop_invalid_frame cal st raw Hraw) as (F1 & F2 & F3 & _).
    assert (E1 : lastValidHeight (fst (loop cal st raw)) = lastValidHeight st)
      by now rewrite (loop_invalid_state cal st raw Hraw).
    assert (E2 : filteredReading (fst (loop cal st raw)) = filteredReading st)
      by now rewrite (loop_invalid_state cal st raw Hraw).
    rewrite E1 in IH1, IH3. rewrite E2 in IH2.
    rewrite cycles_cons. cbn [fst snd].
    split; [exact IH1 | split; [exact IH2 | constructor; auto]].
Qed.

(** C2.  In a cycle whose reading is rejected, in fallback mode or not, the
    reported [heightSnapped] and [heightCalculated] both equal
    [lastValidHeight], which the cycle leaves unchanged; [lastValidHeight] is
    the snapped height an accepted cycle stored; and over any streak of
    rejected readings every cycle reports that same held value. *)
Theorem invalid_cycle_reports_last_valid
    (cal : Calibration) (st : State) (raw : Z) (raws : list Z) :
  (validateReading cal (filteredReading st) raw = true ->
   lastValidHeight (fst (loop cal st raw)) =
     heightSnapped (snd (loop cal st raw))) /\
  (invalid_at cal st raw ->
   heightSnapped (snd (loop cal st raw)) = lastValidHeight st /\
   heightCalculated (snd (loop cal st raw)) = lastValidHeight st /\
   lastValidHeight (fst (loop cal st raw)) = lastValidHeight st) /\
  (streak cal st raws ->
   lastValidHeight (fst (cycles cal st raws)) = lastValidHeight st /\
   Forall (fun fr => heightSnapped fr = lastValidHeight st /\
                     heightCalculated fr = lastValidHeight st)
          (snd (cycles cal st raws))).
Proof.
  split; [|split].
  - intros Hv.
    destruct (loop_valid_frame cal st raw Hv) as (_ & F2 & F3 & _).
    rewrite (loop_valid_state cal st raw Hv), F3, F2. reflexivity.
  - intros Hinv.
    destruct (loop_invalid_frame cal st raw Hinv) as (_ & F2 & F3 & _).
    rewrite (loop_invalid_state cal st raw Hinv). auto.
  - intros Hs. destruct (streak_holds cal raws st Hs) as (H1 & _ & H3).
    split; [assumption|].
    eapply Forall_impl; [|exact H3]. simpl. tauto.
Qed.

(** ** Height mapping at the ends of the calibrated range *)

(** C6.  With the configured range, the height mapping gives [0.000] when
    the filtered value is [SENSOR_RAW_MIN = 510] and [0.145 = H_MAX_METERS]
    when it is [SENSOR_RAW_MAX = 9230]. *)
Theorem mapHeight_endpoints :
  mapHeight configured (F32.of_Z 510) = F32.zero /\
  mapHeight configured (F32.of_Z 9230) = F32.lit 145 1000 /\
  F32.lit 145 1000 = H_MAX_METERS /\
  SENSOR_RAW_MIN configured = 510 /\
  SENSOR_RAW_MAX configured = 9230.
Proof. repeat split; vm_compute; reflexivity. Qed.

(** ** The filter is held on rejected readings *)

Lemma stabilize_updates_rejected :
  validateReading configured (F32.of_Z 4870) 20000 = false /\
  stabilize_step (F32.of_Z 4870) 20000 = F32.of_Z 6383 /\
  F32.of_Z 6383 <> F32.of_Z 4870.
Proof. repeat split; try (vm_compute; reflexivity). vm_compute. discriminate. Qed.

(** The filter of [stabilizeFilter] moves on the out-of-envelope reading
    20000, which [validateReading] rejects. *)
Lemma stabilize_holds_rejected_fails : ~ stabilize_holds_rejected configured.
Proof.
  intros H.
  destruct stabilize_updates_rejected as (Hv & Hs & Hne).
  apply Hne. rewrite <- Hs. apply H. exact Hv.
Qed.

(** C7 (amended).  In the main loop a rejected reading leaves
    [filteredReading] unchanged and an accepted one applies the EMA update;
    during stabilisation the filter is held exactly for the negative
    readings, and every reading [>= 0] applies the update, accepted by
    [validateReading] or not. *)
Theorem filter_held_on_rejected
    (cal : Calibration) (st : State) (raw : Z) (filtered : float) :
  (invalid_at cal st raw ->
   filteredReading (fst (loop cal st raw)) = filteredReading st) /\
  (validateReading cal (filteredReading st) raw = true ->
   filteredReading (fst (loop cal st raw)) = ema (filteredReading st) raw) /\
  (raw < 0 -> stabilize_step filtered raw = filtered) /\
  (0 <= raw -> stabilize_step filtered raw = ema filtered raw).
Proof.
  repeat split.
  - intros H. now rewrite (loop_invalid_state cal st raw H).
  - intros H. now rewrite (loop_valid_state cal st raw H).
  - intros H. unfold stabilize_step.
    destruct (0 <=? raw) eqn:E; [apply Z.leb_le in E; lia | reflexivity].
  - intros H. unfold stabilize_step.
    destruct (0 <=? raw) eqn:E; [reflexivity | apply Z.leb_gt in E; lia].
Qed.

(** ** Snapping *)

(** What the loop of [snapToRealisticValue] leaves in
    [(minDifference, nearestValue)]: either nothing in the table is closer
    than the initial [minDifference] and the pair is as it was, or the pair
    is that of the first entry at the least distance. *)
Lemma snap_loop_spec (h : float) (steps : list float) :
  forall (m n : float),
    (snap_loop h steps (m, n) = (m, n) /\
     forall v, In v steps -> F32.ltb (difference h v) m = false)
    \/
    (exists (i : nat) (v : float),
        nth_error steps i = Some v /\
        snap_loop h steps (m, n) = (difference h v, v) /\
        F32.ltb (difference h v) m = true /\
        (forall j u, (j < i)%nat -> nth_error steps j = Some u ->
                     F32.leb (difference h u) (difference h v) = false) /\
        (forall j u, nth_error steps j = Some u ->
                     F32.ltb (difference h u) (difference h v) = false)).
Proof.
  induction steps as [|step rest IH]; intros m n.
  - left. split; [reflexivity | intros v []].
  - cbn [snap_loop]. fold (difference h step). cbn [fst].
    destruct (F32.ltb (difference h step) m) eqn:E.
    + right.
      destruct (IH (difference h step) step)
        as [[Heq Hall] | (i & v & Hi & Heq & Hlt & Hbefore & Hmin)].
      * exists O, step. repeat split; auto.
        -- intros j u Hj. lia.
        -- intros [|j] u Hu; cbn [nth_error] in Hu.
           ++ injection Hu as <-. apply ltb_irrefl.
           ++ apply Hall. eapply nth_error_In; eassumption.
      * exists (S i), v. repeat split; auto.
        -- eapply ltb_trans; eassumption.
        -- intros [|j] u Hj Hu; cbn [nth_error] in Hu.
           ++ injection Hu as <-. now apply ltb_not_leb.
           ++ apply (Hbefore j u); [lia | assumption].
        -- intros [|j] u Hu; cbn [nth_error] in Hu.
           ++ injection Hu as <-. now apply ltb_asym.
           ++ apply (Hmin j u Hu).
    + destruct (IH m n)
        as [[Heq Hall] | (i & v & Hi & Heq & Hlt & Hbefore & Hmin)].
      * left. split; [assumption|].
        intros v [<- | Hv]; [assumption | now apply Hall].
      * right. exists (S i), v. repeat split; auto.
        -- intros [|j] u Hj Hu; cbn [nth_error] in Hu.
           ++ injection Hu as <-.
              destruct (F32.leb (difference h step) (difference h v)) eqn:L;
                [|reflexivity].
              rewrite (leb_ltb_trans _ _ _ L Hlt) in E. discriminate.
           ++ apply (Hbefore j u); [lia | assumption].
        -- intros [|j] u Hu; cbn [nth_error] in Hu.
           ++ injection Hu as <-.
              destruct (F32.ltb (difference h step) (difference h v)) eqn:L;
                [|reflexivity].
              rewrite (ltb_trans _ _ _ L Hlt) in E. discriminate.
           ++ apply (Hmin j u Hu).
Qed.

(** The height 2000 m is further than 1000 from every entry of the table:
    it is returned as it is, and it is not in the table. *)
Lemma snap_far_not_in_table :
  snapToRealisticValue (F32.of_Z 2000) = F32.of_Z 2000 /\
  ~ In (snapToRealisticValue (F32.of_Z 2000)) HEIGHT_STEPS /\
  ~ (forall h : float, In (snapToRealisticValue h) HEIGHT_STEPS).
Proof.
  assert (N : ~ In (snapToRealisticValue (F32.of_Z 2000)) HEIGHT_STEPS).
  { vm_compute. intros H.
    repeat (destruct H as [H|H]; [discriminate H|]). exact H. }
  split; [vm_compute; reflexivity|]. split; [exact N|].
  intros H. exact (N (H (F32.of_Z 2000))).
Qed.

(** ** The operations of [F32] *)

Lemma fmul_comm (a b : float) : F32.mul a b = F32.mul b a.
Proof. exact (SFmul_comm a b). Qed.

Lemma fmul_nn (c x : float) : posfin c -> nn x -> nn (F32.mul c x).
Proof. exact (mul_nn c x). Qed.

Lemma fmul_mono (c x y : float) :
  posfin c -> nn x -> nn y -> F32.leb x y = true ->
  F32.leb (F32.mul c x) (F32.mul c y) = true.
Proof. exact (mul_mono c x y). Qed.

Lemma fdiv_nn (c x : float) : posfin c -> nn x -> nn (F32.div x c).
Proof. exact (div_nn c x). Qed.

Lemma fdiv_mono (c x y : float) :
  posfin c -> nn x -> nn y -> F32.leb x y = true ->
  F32.leb (F32.div x c) (F32.div y c) = true.
Proof. exact (div_mono c x y). Qed.

Lemma fsub_nn (x c : float) :
  posfin x -> posfin c -> F32.leb c x = true -> nn (F32.sub x c).
Proof. exact (sub_nn x c). Qed.

Lemma fsub_mono (c x y : float) :
  posfin c -> posfin x -> posfin y ->
  F32.leb c x = true -> F32.leb x y = true ->
  F32.leb (F32.sub x c) (F32.sub y c) = true.
Proof. exact (sub_mono c x y). Qed.

Lemma fsqrt_nn (x : float) : nn x -> nn (F32.sqrt x).
Proof. exact (sqrt_nn x). Qed.

Lemma fsqrt_mono (x y : float) :
  nn x -> nn y -> F32.leb x y = true ->
  F32.leb (F32.sqrt x) (F32.sqrt y) = true.
Proof. exact (sqrt_mono x y). Qed.

Lemma fadd_nn (a b : float) : nn a -> nn b -> nn (F32.add a b).
Proof. exact (add_nn a b). Qed.

Lemma fadd_mono (a a' b b' : float) :
  nn a -> nn a' -> nn b -> nn b' ->
  F32.leb a a' = true -> F32.leb b b' = true ->
  F32.leb (F32.add a b) (F32.add a' b') = true.
Proof. exact (add_mono a a' b b'). Qed.

Lemma fof_Z_nn (z : Z) : 0 <= z -> nn (F32.of_Z z).
Proof. exact (of_Z_nn z). Qed.

Lemma fof_Z_mono (a b : Z) :
  0 <= a <= b -> F32.leb (F32.of_Z a) (F32.of_Z b) = true.
Proof. exact (of_Z_mono a b). Qed.

Lemma fsub_not_nan (a b : float) :
  finite a = true -> finite b = true -> F32.is_nan (F32.sub a b) = false.
Proof. exact (sub_not_nan a b). Qed.

(** ** The constants of the firmware are numbers of the format *)

Lemma posfin_EMA_ALPHA : posfin EMA_ALPHA.
Proof. vm_compute. reflexivity. Qed.

Lemma posfin_one_minus_alpha : posfin (F32.sub (F32.of_Z 1) EMA_ALPHA).
Proof. vm_compute. reflexivity. Qed.

Lemma posfin_density_gravity : posfin (F32.mul DENSITY_DIFF GRAVITY).
Proof. vm_compute. reflexivity. Qed.

Lemma posfin_H_MAX : posfin H_MAX_METERS.
Proof. vm_compute. reflexivity. Qed.

Lemma posfin_MIN_FLOW_HEIGHT : posfin MIN_FLOW_HEIGHT.
Proof. vm_compute. reflexivity. Qed.

Lemma posfin_FLOW_CONSTANT : posfin FLOW_CONSTANT.
Proof. vm_compute. reflexivity. Qed.

Lemma posfin_thousand : posfin (F32.of_Z 1000).
Proof. vm_compute. reflexivity. Qed.

Lemma posfin_span : posfin (span configured).
Proof. vm_compute. reflexivity. Qed.

Lemma posfin_raw_min : posfin (F32.of_Z (SENSOR_RAW_MIN configured)).
Proof. vm_compute. reflexivity. Qed.

Lemma posfin_raw_max : posfin (F32.of_Z (SENSOR_RAW_MAX configured)).
Proof. vm_compute. reflexivity. Qed.

(** ** Order facts used below *)

Lemma nn_not_neg (f : float) : nn f -> F32.ltb f F32.zero = false.
Proof. destruct f as [?|[]| |[] ? ?]; simpl; tauto || reflexivity. Qed.

Lemma nn_zero_leb (f : float) : nn f -> F32.leb F32.zero f = true.
Proof. apply zero_leb_nn. Qed.

Lemma nn_is_nan (f : float) : nn f -> F32.is_nan f = false.
Proof. destruct f as [?|[]| |[] ? ?]; simpl; tauto || reflexivity. Qed.

(** Above a positive number, a well-formed float is non-negative. *)
Lemma above_posfin_nn (c h : float) :
  posfin c -> valid_binary 24 128 h = true -> F32.leb c h = true -> nn h.
Proof.
  destruct c as [?|?| |[] mc ec]; simpl; try tauto. intros _.
  destruct h as [?|[]| |[] mh eh]; simpl; try discriminate; auto.
Qed.

(** Between two positive finite numbers lies a positive finite number. *)
Lemma between_posfin (a b f : float) :
  posfin a -> posfin b -> nn f ->
  F32.leb a f = true -> F32.leb f b = true -> posfin f.
Proof.
  destruct a as [?|?| |[] ma ea]; simpl; try tauto. intros _.
  destruct b as [?|?| |[] mb eb]; simpl; try tauto. intros _.
  destruct f as [?|[]| |[] mf ef]; simpl; try tauto; try discriminate.
Qed.

(** ** The flow model *)

Lemma flow_with_nn (K h : float) :
  posfin K -> nn h -> nn (flow_with K h).
Proof.
  intros HK Hh. unfold flow_with.
  destruct (F32.ltb h MIN_FLOW_HEIGHT); [exact I|].
  pose proof (fmul_nn _ h posfin_density_gravity Hh) as Np.
  rewrite (nn_not_neg _ Np), fmul_comm.
  apply fmul_nn; [exact posfin_thousand|].
  apply fmul_nn; [exact HK|]. apply fsqrt_nn. exact Np.
Qed.

Lemma flow_with_mono (K h1 h2 : float) :
  posfin K -> nn h1 -> nn h2 ->
  F32.leb MIN_FLOW_HEIGHT h1 = true -> F32.leb h1 h2 = true ->
  F32.leb (flow_with K h1) (flow_with K h2) = true.
Proof.
  intros HK N1 N2 Hmin H12.
  assert (Hmin2 : F32.leb MIN_FLOW_HEIGHT h2 = true)
    by (eapply leb_trans; eassumption).
  unfold flow_with.
  assert (L1 : F32.ltb h1 MIN_FLOW_HEIGHT = false).
  { destruct (F32.ltb h1 MIN_FLOW_HEIGHT) eqn:E; [|reflexivity].
    apply ltb_not_leb in E. congruence. }
  assert (L2 : F32.ltb h2 MIN_FLOW_HEIGHT = false).
  { destruct (F32.ltb h2 MIN_FLOW_HEIGHT) eqn:E; [|reflexivity].
    apply ltb_not_leb in E. congruence. }
  rewrite L1, L2.
  pose proof (fmul_nn _ h1 posfin_density_gravity N1) as P1.
  pose proof (fmul_nn _ h2 posfin_density_gravity N2) as P2.
  rewrite (nn_not_neg _ P1), (nn_not_neg _ P2).
  rewrite !(fmul_comm _ (F32.of_Z 1000)).
  apply fmul_mono; [exact posfin_thousand | | |].
  - apply fmul_nn; [exact HK | apply fsqrt_nn; exact P1].
  - apply fmul_nn; [exact HK | apply fsqrt_nn; exact P2].
  - apply fmul_mono;
      [exact HK | apply fsqrt_nn; exact P1 | apply fsqrt_nn; exact P2 |].
    apply fsqrt_mono; [exact P1 | exact P2 |].
    apply fmul_mono;
      [exact posfin_density_gravity | exact N1 | exact N2 | exact H12].
Qed.

(** C5.  [calculateFlowRate h] is exactly [0.0] for every [h] below
    [MIN_FLOW_HEIGHT], and on the numbers of the format that are at least
    [MIN_FLOW_HEIGHT] it is monotonically non-decreasing. *)
Theorem calculateFlowRate_zero_then_monotone :
  (forall h : float,
      F32.ltb h MIN_FLOW_HEIGHT = true -> calculateFlowRate h = F32.zero) /\
  (forall h1 h2 : float,
      valid_binary 24 128 h1 = true -> valid_binary 24 128 h2 = true ->
      F32.leb MIN_FLOW_HEIGHT h1 = true -> F32.leb h1 h2 = true ->
      F32.leb (calculateFlowRate h1) (calculateFlowRate h2) = true).
Proof.
  split.
  - intros h H. unfold calculateFlowRate, flow_with. now rewrite H.
  - intros h1 h2 V1 V2 Hmin H12.
    assert (N1 : nn h1)
      by (eapply above_posfin_nn; [exact posfin_MIN_FLOW_HEIGHT | |]; eassumption).
    assert (N2 : nn h2).
    { eapply above_posfin_nn; [exact posfin_MIN_FLOW_HEIGHT | exact V2 |].
      eapply leb_trans; eassumption. }
    apply flow_with_mono; auto. exact posfin_FLOW_CONSTANT.
Qed.

(** ** The filter stays a non-negative number *)

Lemma validate_in_envelope (cal : Calibration) (filtered : float) (raw : Z) :
  validateReading cal filtered raw = true ->
  EXTREME_MIN <= raw <= EXTREME_MAX.
Proof.
  unfold validateReading.
  destruct (Z.ltb_spec raw EXTREME_MIN); [discriminate|].
  destruct (Z.ltb_spec EXTREME_MAX raw); [discriminate|]. lia.
Qed.

Lemma ema_nn (filtered : float) (raw : Z) :
  nn filtered -> 0 <= raw -> nn (ema filtered raw).
Proof.
  intros Hf Hr. unfold ema. apply fadd_nn.
  - apply fmul_nn; [exact posfin_EMA_ALPHA | apply fof_Z_nn; exact Hr].
  - apply fmul_nn; [exact posfin_one_minus_alpha | exact Hf].
Qed.

Lemma stabilize_step_nn (filtered : float) (reading : Z) :
  nn filtered -> nn (stabilize_step filtered reading).
Proof.
  intros Hf. unfold stabilize_step.
  destruct (Z.leb_spec 0 reading); [apply ema_nn; assumption | exact Hf].
Qed.

Lemma stabilizeFilter_nn (sensor : nat -> Z) (samples : nat) :
  forall (from : nat) (filtered : float),
    nn filtered -> nn (stabilizeFilter samples sensor from filtered).
Proof.
  induction samples as [|n IH]; intros from filtered Hf; cbn [stabilizeFilter].
  - exact Hf.
  - apply IH. apply stabilize_step_nn. exact Hf.
Qed.

(** ** Range of the height mapping *)

Lemma constrain_range (filtered : float) :
  nn filtered ->
  let c := constrain filtered (SENSOR_RAW_MIN configured)
                              (SENSOR_RAW_MAX configured) in
  posfin c /\
  F32.leb (F32.of_Z (SENSOR_RAW_MIN configured)) c = true /\
  F32.leb c (F32.of_Z (SENSOR_RAW_MAX configured)) = true.
Proof.
  intros Hf. cbv zeta. unfold constrain.
  set (lo := F32.of_Z (SENSOR_RAW_MIN configured)).
  set (hi := F32.of_Z (SENSOR_RAW_MAX configured)).
  assert (Plo : posfin lo) by exact posfin_raw_min.
  assert (Phi : posfin hi) by exact posfin_raw_max.
  assert (Hlh : F32.leb lo hi = true) by (vm_compute; reflexivity).
  destruct (F32.ltb filtered lo) eqn:E1.
  - split; [exact Plo|]. split; [|exact Hlh].
    apply leb_refl_nn, posfin_nn, Plo.
  - destruct (F32.ltb hi filtered) eqn:E2.
    + split; [exact Phi|]. split; [exact Hlh|].
      apply leb_refl_nn, posfin_nn, Phi.
    + assert (L1 : F32.leb lo filtered = true).
      { apply not_ltb_leb; [apply nn_is_nan, Hf | | exact E1].
        apply nn_is_nan, posfin_nn, Plo. }
      assert (L2 : F32.leb filtered hi = true).
      { apply not_ltb_leb; [ | apply nn_is_nan, Hf | exact E2].
        apply nn_is_nan, posfin_nn, Phi. }
      split; [|split; [exact L1 | exact L2]].
      exact (between_posfin lo hi filtered Plo Phi Hf L1 L2).
Qed.

Lemma mapHeight_range (filtered : float) :
  nn filtered ->
  nn (mapHeight configured filtered) /\
  F32.leb F32.zero (mapHeight configured filtered) = true /\
  F32.leb (mapHeight configured filtered) H_MAX_METERS = true.
Proof.
  intros Hf. destruct (constrain_range filtered Hf) as (Pc & Lc & Uc).
  cbv zeta in Pc, Lc, Uc. unfold mapHeight.
  set (c := constrain filtered (SENSOR_RAW_MIN configured)
                               (SENSOR_RAW_MAX configured)) in *.
  set (lo := F32.of_Z (SENSOR_RAW_MIN configured)) in *.
  set (hi := F32.of_Z (SENSOR_RAW_MAX configured)) in *.
  assert (Plo : posfin lo) by exact posfin_raw_min.
  assert (Phi : posfin hi) by exact posfin_raw_max.
  assert (Hlh : F32.leb lo hi = true) by (eapply leb_trans; eassumption).
  assert (N1 : nn (F32.sub c lo)) by (apply fsub_nn; assumption).
  assert (N1' : nn (F32.sub hi lo)) by (apply fsub_nn; assumption).
  assert (M1 : F32.leb (F32.sub c lo) (F32.sub hi lo) = true)
    by (apply fsub_mono; assumption).
  assert (N2 : nn (F32.div (F32.sub c lo) (span configured)))
    by (apply fdiv_nn; [exact posfin_span | exact N1]).
  assert (N2' : nn (F32.div (F32.sub hi lo) (span configured)))
    by (apply fdiv_nn; [exact posfin_span | exact N1']).
  assert (M2 : F32.leb (F32.div (F32.sub c lo) (span configured))
                       (F32.div (F32.sub hi lo) (span configured)) = true)
    by (apply fdiv_mono; [exact posfin_span | exact N1 | exact N1' | exact M1]).
  rewrite fmul_comm.
  assert (N3 : nn (F32.mul H_MAX_METERS
                     (F32.div (F32.sub c lo) (span configured))))
    by (apply fmul_nn; [exact posfin_H_MAX | exact N2]).
  split; [exact N3|]. split; [apply nn_zero_leb; exact N3|].
  assert (Top : F32.mul H_MAX_METERS
                  (F32.div (F32.sub hi lo) (span configured)) = H_MAX_METERS)
    by (vm_compute; reflexivity).
  rewrite <- Top at 2.
  apply fmul_mono; [exact posfin_H_MAX | exact N2 | exact N2' | exact M2].
Qed.

(** ** Snapping inside the calibrated range *)

Lemma difference_first_entry (h : float) :
  nn h -> F32.leb h H_MAX_METERS = true ->
  F32.ltb (difference h (F32.lit 0 1000)) (F32.of_Z 1000) = true.
Proof.
  intros Hh Hle.
  replace (F32.lit 0 1000) with (S754_zero false) by (vm_compute; reflexivity).
  destruct h as [s|[]| |[] m e]; try (simpl in Hh; tauto);
    try discriminate Hle.
  - destruct s; vm_compute; reflexivity.
  - change (difference (S754_finite false m e) (S754_zero false))
      with (S754_finite false m e).
    apply (leb_ltb_trans _ H_MAX_METERS _ Hle). vm_compute. reflexivity.
Qed.

(** When some entry of the table is at distance below 1000, the result is
    the first entry at the least distance. *)
Lemma snap_in_first_nearest (steps : list float) (h : float) :
  (exists v, In v steps /\
             F32.ltb (difference h v) (F32.of_Z 1000) = true) ->
  exists i : nat,
    nth_error steps i = Some (snap_in steps h) /\
    (forall j u, (j < i)%nat -> nth_error steps j = Some u ->
       F32.leb (difference h u) (difference h (snap_in steps h)) = false) /\
    (forall u, In u steps ->
       F32.ltb (difference h u) (difference h (snap_in steps h)) = false).
Proof.
  intros (v0 & Hin & Hlt). unfold snap_in.
  destruct (snap_loop_spec h steps (F32.of_Z 1000) h)
    as [[_ Hall] | (i & v & Hi & -> & _ & Hbefore & Hmin)].
  - rewrite (Hall v0 Hin) in Hlt. discriminate.
  - cbn [snd]. exists i. split; [exact Hi|]. split; [exact Hbefore|].
    intros u Hu. destruct (In_nth_error _ _ Hu) as [j Hj].
    exact (Hmin j u Hj).
Qed.

Lemma snap_in_table (h : float) :
  nn h -> F32.leb h H_MAX_METERS = true ->
  In (snapToRealisticValue h) HEIGHT_STEPS.
Proof.
  intros Hh Hle. unfold snapToRealisticValue.
  destruct (snap_in_first_nearest HEIGHT_STEPS h) as (i & Hi & _).
  - exists (F32.lit 0 1000). split; [left; reflexivity|].
    now apply difference_first_entry.
  - eapply nth_error_In. exact Hi.
Qed.

(** ** The table invariant *)

Lemma initial_state_ok : state_ok initial_state.
Proof. split; [exact I | left; vm_compute; reflexivity]. Qed.

Lemma setup_ok (sensor : nat -> Z) : state_ok (setup configured sensor).
Proof.
  unfold setup, initializeSystem, state_ok. cbn [filteredReading lastValidHeight].
  split; [|exact (proj2 initial_state_ok)].
  apply stabilizeFilter_nn.
  destruct (validateReading configured (filteredReading initial_state) (sensor O))
    eqn:E.
  - apply fof_Z_nn. apply validate_in_envelope in E. unfold EXTREME_MIN in E. lia.
  - vm_compute. reflexivity.
Qed.

(** One cycle from a state that satisfies the invariant. *)
Lemma loop_ok (st : State) (raw : Z) :
  state_ok st ->
  state_ok (fst (loop configured st raw)) /\
  In (heightSnapped (snd (loop configured st raw))) HEIGHT_STEPS /\
  (isValid (snd (loop configured st raw)) = true ->
   F32.leb F32.zero (heightCalculated (snd (loop configured st raw))) = true /\
   F32.leb (heightCalculated (snd (loop configured st raw))) H_MAX_METERS = true /\
   heightSnapped (snd (loop configured st raw)) =
     snapToRealisticValue (heightCalculated (snd (loop configured st raw)))) /\
  (isValid (snd (loop configured st raw)) = false ->
   heightSnapped (snd (loop configured st raw)) = lastValidHeight st).
Proof.
  intros [Hf Hl].
  destruct (validateReading configured (filteredReading st) raw) eqn:V.
  - destruct (loop_valid_frame configured st raw V) as (F1 & F2 & F3 & _).
    cbv zeta in F1, F2, F3.
    pose proof (validate_in_envelope _ _ _ V) as Hraw. unfold EXTREME_MIN in Hraw.
    assert (Ne : nn (ema (filteredReading st) raw)) by (apply ema_nn; [exact Hf | lia]).
    destruct (mapHeight_range _ Ne) as (Nh & L0 & L1).
    assert (Hin : In (snapToRealisticValue
                        (mapHeight configured (ema (filteredReading st) raw)))
                     HEIGHT_STEPS) by (apply snap_in_table; assumption).
    rewrite (loop_valid_state configured st raw V), F3, F2, F1.
    split; [split; [exact Ne | exact Hin]|].
    split; [exact Hin|].
    split; [intros _; split; [exact L0 | split; [exact L1 | reflexivity]]|].
    intros H; discriminate H.
  - destruct (loop_invalid_frame configured st raw V) as (F1 & F2 & _).
    cbv zeta in F1, F2.
    rewrite (loop_invalid_state configured st raw V), F2, F1.
    split; [split; [exact Hf | exact Hl]|].
    split; [exact Hl|].
    split; [intros H; discriminate H | reflexivity].
Qed.

Lemma cycles_ok (raws : list Z) :
  forall st : State,
    state_ok st ->
    state_ok (fst (cycles configured st raws)) /\
    Forall (fun fr =>
              In (heightSnapped fr) HEIGHT_STEPS /\
              (isValid fr = true ->
               F32.leb F32.zero (heightCalculated fr) = true /\
               F32.leb (heightCalculated fr) H_MAX_METERS = true /\
               heightSnapped fr = snapToRealisticValue (heightCalculated fr)))
           (snd (cycles configured st raws)).
Proof.
  induction raws as [|raw rest IH]; intros st Hst.
  - split; [exact Hst | constructor].
  - destruct (loop_ok st raw Hst) as (H1 & H2 & H3 & _).
    destruct (IH _ H1) as [I1 I2].
    rewrite cycles_cons. cbn [fst snd]. split; [exact I1|].
    constructor; [split; assumption | exact I2].
Qed.

(** C9.  The held height starts as [HEIGHT_STEPS[0] = 0.0]; after [setup]
    and any number of cycles, on any sensor, [lastValidHeight] is an entry of
    [HEIGHT_STEPS], and so is the [heightSnapped] of every frame; in a cycle
    that accepts its reading [heightCalculated] lies in [0, H_MAX_METERS]
    and [heightSnapped] is its snap, an entry of the table; in a cycle that
    rejects it the held entry is reported again. *)
Theorem heights_stay_in_table (sensor : nat -> Z) (n : nat) :
  nth_error HEIGHT_STEPS 0 = Some (lastValidHeight initial_state) /\
  In (lastValidHeight (fst (run configured sensor n))) HEIGHT_STEPS /\
  Forall (fun fr =>
            In (heightSnapped fr) HEIGHT_STEPS /\
            (isValid fr = true ->
             F32.leb F32.zero (heightCalculated fr) = true /\
             F32.leb (heightCalculated fr) H_MAX_METERS = true /\
             heightSnapped fr = snapToRealisticValue (heightCalculated fr)))
         (snd (run configured sensor n)) /\
  (forall raw : Z,
      invalid_at configured (fst (run configured sensor n)) raw ->
      heightSnapped (snd (loop configured (fst (run configured sensor n)) raw))
        = lastValidHeight (fst (run configured sensor n)) /\
      In (heightSnapped
            (snd (loop configured (fst (run configured sensor n)) raw)))
         HEIGHT_STEPS).
Proof.
  unfold run.
  destruct (cycles_ok (map (fun i => sensor (21 + i)%nat) (seq 0 n))
              (setup configured sensor) (setup_ok sensor)) as [[Hf Hl] Hfr].
  split; [vm_compute; reflexivity|]. split; [exact Hl|].
  split; [exact Hfr|].
  intros raw Hinv.
  destruct (loop_invalid_frame configured _ raw Hinv) as (_ & F2 & _).
  cbv zeta in F2. rewrite F2. split; [reflexivity | exact Hl].
Qed.

(** ** Pressure is never negative *)

Lemma table_pressure (v : float) :
  In v HEIGHT_STEPS ->
  F32.leb F32.zero v = true /\
  F32.ltb (pressure v) F32.zero = false /\
  F32.leb F32.zero (pressure v) = true.
Proof.
  intros H.
  assert (A : forallb (fun v => F32.leb F32.zero v &&
                                negb (F32.ltb (pressure v) F32.zero) &&
                                F32.leb F32.zero (pressure v))
                      HEIGHT_STEPS = true) by (vm_compute; reflexivity).
  rewrite forallb_forall in A. specialize (A v H).
  apply andb_true_iff in A. destruct A as [A A3].
  apply andb_true_iff in A. destruct A as [A1 A2].
  apply negb_true_iff in A2. auto.
Qed.

Lemma loop_pressure (cal : Calibration) (st : State) (raw : Z) :
  pressureDiff (snd (loop cal st raw)) =
    (if F32.ltb (pressure (heightSnapped (snd (loop cal st raw)))) F32.zero
     then F32.zero
     else pressure (heightSnapped (snd (loop cal st raw)))) /\
  flowRate (snd (loop cal st raw)) =
    calculateFlowRate (heightSnapped (snd (loop cal st raw))).
Proof.
  unfold loop, pressure.
  destruct (validateReading cal (filteredReading st) raw);
    cbv beta iota zeta; cbn [snd pressureDiff flowRate heightSnapped];
    split; reflexivity.
Qed.

Lemma cycles_frames (cal : Calibration) (P : Frame -> Prop) (raws : list Z) :
  forall st : State,
    (forall st' raw, P (snd (loop cal st' raw))) ->
    Forall P (snd (cycles cal st raws)).
Proof.
  induction raws as [|raw rest IH]; intros st HP.
  - constructor.
  - rewrite cycles_cons. cbn [snd]. constructor; [apply HP | now apply IH].
Qed.

Lemma heights_table_frames (sensor : nat -> Z) (n : nat) :
  Forall (fun fr => In (heightSnapped fr) HEIGHT_STEPS)
         (snd (run configured sensor n)) /\
  Forall (fun fr =>
            pressureDiff fr =
              (if F32.ltb (pressure (heightSnapped fr)) F32.zero
               then F32.zero else pressure (heightSnapped fr)) /\
            flowRate fr = calculateFlowRate (heightSnapped fr))
         (snd (run configured sensor n)).
Proof.
  unfold run. split.
  - destruct (cycles_ok (map (fun i => sensor (21 + i)%nat) (seq 0 n))
                (setup configured sensor) (setup_ok sensor)) as [_ Hfr].
    eapply Forall_impl; [|exact Hfr]. simpl. tauto.
  - apply cycles_frames. intros st' raw. apply loop_pressure.
Qed.

(** C10.  [DENSITY_DIFF] is positive, and in every cycle after [setup] the
    reported [heightSnapped] is non-negative, the product
    [DENSITY_DIFF * GRAVITY * heightSnapped] is not below zero, so that
    neither clamp is taken: [pressureDiff] is that product, it is
    non-negative, and the flow rate is the unclamped formula, whose square
    root is taken of that non-negative product. *)
Theorem pressure_never_negative (sensor : nat -> Z) (n : nat) :
  F32.ltb F32.zero DENSITY_DIFF = true /\
  DENSITY_DIFF = F32.sub FLUID_DENSITY MANOMETER_DENSITY /\
  Forall (fun fr =>
            F32.leb F32.zero (heightSnapped fr) = true /\
            F32.ltb (pressure (heightSnapped fr)) F32.zero = false /\
            pressureDiff fr = pressure (heightSnapped fr) /\
            F32.leb F32.zero (pressureDiff fr) = true /\
            flowRate fr =
              (if F32.ltb (heightSnapped fr) MIN_FLOW_HEIGHT then F32.zero
               else F32.mul
                      (F32.mul FLOW_CONSTANT
                         (F32.sqrt (pressure (heightSnapped fr))))
                      (F32.of_Z 1000)))
         (snd (run configured sensor n)).
Proof.
  split; [vm_compute; reflexivity|]. split; [reflexivity|].
  destruct (heights_table_frames sensor n) as [Hin Hp].
  rewrite Forall_forall in *. intros fr Hfr.
  destruct (table_pressure _ (Hin fr Hfr)) as (T1 & T2 & T3).
  destruct (Hp fr Hfr) as [P1 P2].
  rewrite T2 in P1. rewrite P1.
  repeat split; try assumption.
  rewrite P2. unfold calculateFlowRate, flow_with. fold (pressure (heightSnapped fr)).
  now rewrite T2.
Qed.

(** ** The validator *)

Lemma wrap_long_range (z : Z) : in_long (wrap_long z).
Proof.
  unfold in_long, wrap_long, wrap, LONG_MIN, LONG_MAX.
  pose proof (Z.mod_pos_bound (z + 2 ^ (32 - 1)) (2 ^ 32) ltac:(simpl; lia)).
  simpl in *. lia.
Qed.

(** A positive float that casts to [long] casts to a non-negative one. *)
Lemma to_long_positive (f : float) :
  F32.long_castable f = true -> F32.ltb F32.zero f = true ->
  0 <= F32.to_long f <= LONG_MAX.
Proof.
  unfold F32.long_castable, F32.to_long.
  destruct f as [s|[]| |[] m e]; try discriminate.
  intros Hc _.
  destruct (trunc_floor m e) as (z & Tz & Z0 & _).
  rewrite Tz in *. rewrite Hc.
  apply andb_true_iff in Hc. destruct Hc as [_ Hc]. apply Z.leb_le in Hc. lia.
Qed.

Lemma abs_long_small (x : Z) :
  - LONG_MAX <= x <= LONG_MAX -> abs_long x = Z.abs x.
Proof.
  unfold abs_long, LONG_MAX. intros H.
  destruct (Z.ltb_spec 0 x); [lia|].
  rewrite wrap_long_small by (unfold in_long, LONG_MIN, LONG_MAX; simpl in *; lia).
  lia.
Qed.

(** The validator and the wording of the specification part on the first
    reading after power-up: the filter is still 0.0 and the jump rule is
    skipped. *)
Lemma validate_skips_jump_rule_at_zero :
  validateReading configured F32.zero 15000 = true /\
  spec_validate configured F32.zero 15000 = false.
Proof. split; vm_compute; reflexivity. Qed.

Lemma validate_not_spec_validate :
  ~ (forall (filtered : float) (raw : Z),
        validateReading configured filtered raw =
          spec_validate configured filtered raw).
Proof.
  intros H. destruct validate_skips_jump_rule_at_zero as [A B].
  rewrite H, B in A. discriminate.
Qed.

(** C3 (amended).  For a filter value whose cast to [long] is defined,
    [validateReading] accepts [raw] exactly when [raw] lies in
    [[EXTREME_MIN, EXTREME_MAX] = [0, 15000]] and, if the filter value is
    positive, [|raw - (long) filteredReading|] is at most
    [maxDelta = (long) (0.5 * (SENSOR_RAW_MAX - SENSOR_RAW_MIN))], which is
    4360 as configured; when the filter value is not positive the jump rule
    is skipped. *)
Theorem validateReading_accepts_iff
    (cal : Calibration) (filtered : float) (raw : Z) :
  F32.long_castable filtered = true ->
  (validateReading cal filtered raw = true <->
   EXTREME_MIN <= raw <= EXTREME_MAX /\
   (F32.ltb F32.zero filtered = true ->
    Z.abs (raw - F32.to_long filtered) <= maxDelta cal)) /\
  EXTREME_MIN = 0 /\ EXTREME_MAX = 15000 /\ maxDelta configured = 4360.
Proof.
  intros Hc.
  split; [|repeat split; vm_compute; reflexivity].
  unfold validateReading, EXTREME_MIN, EXTREME_MAX.
  destruct (Z.ltb_spec raw 0) as [L|L]; cbn [orb].
  { split; [discriminate | lia]. }
  destruct (Z.ltb_spec 15000 raw) as [U|U].
  { split; [discriminate | lia]. }
  destruct (F32.ltb F32.zero filtered) eqn:P.
  - pose proof (to_long_positive filtered Hc P) as T.
    unfold LONG_MAX in T.
    rewrite wrap_long_small
      by (unfold in_long, LONG_MIN, LONG_MAX; simpl in *; lia).
    rewrite abs_long_small by (unfold LONG_MAX; simpl in *; lia).
    destruct (Z.ltb_spec (maxDelta cal) (Z.abs (raw - F32.to_long filtered))).
    + split; [discriminate|]. intros [_ H']. specialize (H' eq_refl). lia.
    + split; [|reflexivity]. intros _. split; [lia|]. intros _. assumption.
  - split; [|reflexivity]. intros _. split; [lia | discriminate].
Qed.

Lemma validateReading_accepts_iff_witness :
  validateReading configured (F32.of_Z 4870) 5000 = true <->
  EXTREME_MIN <= 5000 <= EXTREME_MAX /\
  (F32.ltb F32.zero (F32.of_Z 4870) = true ->
   Z.abs (5000 - F32.to_long (F32.of_Z 4870)) <= maxDelta configured).
Proof.
  apply (validateReading_accepts_iff configured (F32.of_Z 4870) 5000).
  vm_compute. reflexivity.
Defined.

(** ** Snapping: the statement on every input *)

Lemma abs_is_nan (x : float) : F32.is_nan (F32.abs x) = F32.is_nan x.
Proof.
  unfold F32.abs. destruct (F32.ltb F32.zero x); [reflexivity|].
  destruct x; reflexivity.
Qed.

Lemma difference_not_nan (h v : float) :
  finite h = true -> finite v = true -> F32.is_nan (difference h v) = false.
Proof.
  intros Hh Hv. unfold difference. rewrite abs_is_nan.
  now apply fsub_not_nan.
Qed.

Lemma table_finite (v : float) : In v HEIGHT_STEPS -> finite v = true.
Proof.
  intros H.
  assert (A : forallb finite HEIGHT_STEPS = true) by (vm_compute; reflexivity).
  rewrite forallb_forall in A. exact (A v H).
Qed.

Lemma below_posfin_finite (h b : float) :
  nn h -> posfin b -> F32.leb h b = true -> finite h = true.
Proof.
  destruct b as [?|?| |[] mb eb]; simpl; try tauto.
  destruct h as [?|[]| |[] mh eh]; simpl; try tauto; try discriminate;
    reflexivity.
Qed.

(** C4 (amended).  When some entry of [HEIGHT_STEPS] is at a computed
    distance [abs(h - v)] below 1000, [snapToRealisticValue h] is an entry
    of the table, no entry is at a smaller distance, and every earlier entry
    is at a strictly larger one (the first entry wins a tie); when no entry
    is that close (or [h] is NaN) the input is returned unchanged.  Every
    well-formed [h] in [[0, H_MAX_METERS]], the range of the height
    mapping, is of the first kind, and there
    [|snap(h) - h| <= |v - h|] for every entry [v]. *)
Theorem snap_nearest_first (h : float) :
  ((exists v, In v HEIGHT_STEPS /\
              F32.ltb (difference h v) (F32.of_Z 1000) = true) ->
   exists i : nat,
     nth_error HEIGHT_STEPS i = Some (snapToRealisticValue h) /\
     (forall j u, (j < i)%nat -> nth_error HEIGHT_STEPS j = Some u ->
        F32.leb (difference h u)
                (difference h (snapToRealisticValue h)) = false) /\
     (forall u, In u HEIGHT_STEPS ->
        F32.ltb (difference h u)
                (difference h (snapToRealisticValue h)) = false)) /\
  ((forall v, In v HEIGHT_STEPS ->
              F32.ltb (difference h v) (F32.of_Z 1000) = false) ->
   snapToRealisticValue h = h) /\
  (nn h -> F32.leb h H_MAX_METERS = true ->
   In (snapToRealisticValue h) HEIGHT_STEPS /\
   forall v, In v HEIGHT_STEPS ->
     F32.leb (difference h (snapToRealisticValue h)) (difference h v) = true).
Proof.
  split; [|split].
  - exact (snap_in_first_nearest HEIGHT_STEPS h).
  - intros Hall. unfold snapToRealisticValue, snap_in.
    destruct (snap_loop_spec h HEIGHT_STEPS (F32.of_Z 1000) h)
      as [[-> _] | (i & v & Hi & _ & Hlt & _)]; [reflexivity|].
    rewrite (Hall v (nth_error_In _ _ Hi)) in Hlt. discriminate.
  - intros Hh Hle.
    pose proof (snap_in_table h Hh Hle) as Hin. split; [exact Hin|].
    intros v Hv.
    destruct (snap_in_first_nearest HEIGHT_STEPS h) as (i & _ & _ & Hmin).
    { exists (F32.lit 0 1000). split; [left; reflexivity|].
      apply difference_first_entry; assumption. }
    pose proof (below_posfin_finite h _ Hh posfin_H_MAX Hle) as Fh.
    apply not_ltb_leb.
    + apply difference_not_nan; [exact Fh | apply table_finite; exact Hv].
    + apply difference_not_nan; [exact Fh | apply table_finite; exact Hin].
    + apply Hmin. exact Hv.
Qed.

(** ** The calibration range is not checked *)

Lemma run_length (cal : Calibration) (sensor : nat -> Z) (n : nat) :
  length (snd (run cal sensor n)) = n.
Proof.
  unfold run. now rewrite cycles_length, length_map, length_seq.
Qed.

(** With [SENSOR_RAW_MAX = SENSOR_RAW_MIN = 510] and a sensor that reads 0,
    the first cycle accepts its reading and divides by a zero span: the
    calculated height is NaN. *)
Lemma degenerate_range_runs :
  SENSOR_RAW_MAX degenerate = SENSOR_RAW_MIN degenerate /\
  span degenerate = F32.zero /\
  map isValid (snd (run degenerate (fun _ => 0) 1)) = [true] /\
  map heightCalculated (snd (run degenerate (fun _ => 0) 1)) = [S754_nan] /\
  ~ startup_guard.
Proof.
  split; [reflexivity|]. split; [vm_compute; reflexivity|].
  split; [vm_compute; reflexivity|]. split; [vm_compute; reflexivity|].
  intros H. specialize (H degenerate (fun _ => 0) 1%nat eq_refl).
  apply (f_equal (@length Frame)) in H. rewrite run_length in H.
  discriminate H.
Qed.

Lemma wrap_long_difference (lo hi : Z) :
  in_long lo -> in_long hi -> lo < hi ->
  wrap_long (hi - lo) <> 0 /\ - 2 ^ 32 < wrap_long (hi - lo) < 2 ^ 32.
Proof.
  unfold in_long, LONG_MIN, LONG_MAX. intros Hlo Hhi Hlt.
  split.
  - unfold wrap_long, wrap. change (2 ^ (32 - 1)) with 2147483648.
    change (2 ^ 32) with 4294967296. simpl in Hlo, Hhi.
    destruct (Z_lt_le_dec (hi - lo) 2147483648) as [S|L].
    + rewrite Z.mod_small by lia. lia.
    + replace (hi - lo + 2147483648)
        with (hi - lo - 2147483648 + 1 * 4294967296) by lia.
      rewrite Z.mod_add by lia. rewrite Z.mod_small by lia. lia.
  - pose proof (wrap_long_range (hi - lo)) as R.
    unfold in_long, LONG_MIN, LONG_MAX in R. simpl in *. lia.
Qed.

(** C8 (amended).  No start-up check of the calibration range exists:
    whatever the range, [setup] completes and [n] cycles report [n] frames,
    and a cycle that accepts its reading divides by
    [(float)(SENSOR_RAW_MAX - SENSOR_RAW_MIN)].  For every range with
    [SENSOR_RAW_MIN < SENSOR_RAW_MAX] that divisor is a non-zero finite
    number, so the division is well defined; as configured it is 8720. *)
Theorem calibration_range_unchecked
    (cal : Calibration) (sensor : nat -> Z) (n : nat) :
  length (snd (run cal sensor n)) = n /\
  (forall (st : State) (raw : Z),
      validateReading cal (filteredReading st) raw = true ->
      heightCalculated (snd (loop cal st raw)) =
        F32.mul
          (F32.div
             (F32.sub (constrain (ema (filteredReading st) raw)
                         (SENSOR_RAW_MIN cal) (SENSOR_RAW_MAX cal))
                      (F32.of_Z (SENSOR_RAW_MIN cal)))
             (span cal))
          H_MAX_METERS) /\
  (in_long (SENSOR_RAW_MIN cal) -> in_long (SENSOR_RAW_MAX cal) ->
   SENSOR_RAW_MIN cal < SENSOR_RAW_MAX cal ->
   exists s m e, span cal = S754_finite s m e) /\
  span configured = F32.of_Z 8720.
Proof.
  split; [apply run_length|]. split; [|split].
  - intros st raw V.
    destruct (loop_valid_frame cal st raw V) as (_ & F2 & _).
    cbv zeta in F2. rewrite F2. reflexivity.
  - intros Hlo Hhi Hlt. unfold span.
    destruct (wrap_long_difference _ _ Hlo Hhi Hlt) as [Hz Hr].
    exact (of_Z_finite _ Hz Hr).
  - vm_compute. reflexivity.
Qed.

(** ** The cast in [validateReading] is defined *)

Lemma ema_mono (f f' : float) (r r' : Z) :
  nn f -> nn f' -> F32.leb f f' = true -> 0 <= r <= r' ->
  F32.leb (ema f r) (ema f' r') = true.
Proof.
  intros Hf Hf' H Hr. unfold ema. apply fadd_mono.
  - apply fmul_nn; [exact posfin_EMA_ALPHA | apply fof_Z_nn; lia].
  - apply fmul_nn; [exact posfin_EMA_ALPHA | apply fof_Z_nn; lia].
  - apply fmul_nn; [exact posfin_one_minus_alpha | exact Hf].
  - apply fmul_nn; [exact posfin_one_minus_alpha | exact Hf'].
  - apply fmul_mono; [exact posfin_EMA_ALPHA | apply fof_Z_nn; lia
                      | apply fof_Z_nn; lia | apply fof_Z_mono; exact Hr].
  - apply fmul_mono; [exact posfin_one_minus_alpha | exact Hf | exact Hf'
                      | exact H].
Qed.

Lemma posfin_FILTER_BOUND : posfin FILTER_BOUND.
Proof. vm_compute. reflexivity. Qed.

Lemma ema_below_bound (f : float) (r : Z) :
  nn f -> F32.leb f FILTER_BOUND = true -> 0 <= r <= LONG_MAX ->
  F32.leb (ema f r) FILTER_BOUND = true.
Proof.
  intros Hf H Hr.
  apply leb_trans with (ema FILTER_BOUND LONG_MAX).
  - apply ema_mono; [exact Hf | exact (posfin_nn _ posfin_FILTER_BOUND)
                     | exact H | exact Hr].
  - vm_compute. reflexivity.
Qed.

Lemma stabilizeFilter_below_bound (sensor : nat -> Z) (samples : nat) :
  (forall i, in_long (sensor i)) ->
  forall (from : nat) (f : float),
    nn f -> F32.leb f FILTER_BOUND = true ->
    F32.leb (stabilizeFilter samples sensor from f) FILTER_BOUND = true.
Proof.
  intros Hs. induction samples as [|k IH]; intros from f Hf H;
    cbn [stabilizeFilter]; [exact H|].
  apply IH; [apply stabilize_step_nn; exact Hf|].
  unfold stabilize_step. destruct (Z.leb_spec 0 (sensor from)); [|exact H].
  apply ema_below_bound; [exact Hf | exact H |].
  destruct (Hs from). lia.
Qed.

Lemma setup_below_bound (sensor : nat -> Z) :
  (forall i, in_long (sensor i)) ->
  F32.leb (filteredReading (setup configured sensor)) FILTER_BOUND = true.
Proof.
  intros Hs. unfold setup, initializeSystem. cbn [filteredReading].
  destruct (validateReading configured (filteredReading initial_state)
              (sensor O)) eqn:E.
  - apply validate_in_envelope in E. unfold EXTREME_MIN, EXTREME_MAX in E.
    apply stabilizeFilter_below_bound;
      [exact Hs | apply fof_Z_nn; lia |].
    apply leb_trans with (F32.of_Z 15000);
      [apply fof_Z_mono; lia | vm_compute; reflexivity].
  - apply stabilizeFilter_below_bound;
      [exact Hs | vm_compute; reflexivity | vm_compute; reflexivity].
Qed.

Lemma cycles_below_bound (raws : list Z) :
  forall st : State,
    nn (filteredReading st) ->
    F32.leb (filteredReading st) FILTER_BOUND = true ->
    F32.leb (filteredReading (fst (cycles configured st raws))) FILTER_BOUND
      = true.
Proof.
  induction raws as [|raw rest IH]; intros st Hf H; [exact H|].
  rewrite cycles_cons. cbn [fst].
  destruct (validateReading configured (filteredReading st) raw) eqn:V.
  - pose proof (validate_in_envelope _ _ _ V) as Hr.
    unfold EXTREME_MIN, EXTREME_MAX in Hr.
    apply IH; rewrite (loop_valid_state configured st raw V);
      cbn [filteredReading].
    + apply ema_nn; [exact Hf | lia].
    + apply ema_below_bound; [exact Hf | exact H |].
      unfold LONG_MAX. simpl. lia.
  - apply IH; rewrite (loop_invalid_state configured st raw V);
      cbn [filteredReading]; assumption.
Qed.

(** X1.  In every state the program reaches, [(long) filteredReading] is defined:
    the filter is a non-negative number below [2^31]. *)
Theorem filter_cast_defined (sensor : nat -> Z) (n : nat) :
  (forall i, in_long (sensor i)) ->
  F32.long_castable (filteredReading (fst (run configured sensor n))) = true.
Proof.
  intros Hs. unfold run.
  set (raws := map (fun i => sensor (21 + i)%nat) (seq 0 n)).
  pose proof (setup_ok sensor) as [N0 _].
  pose proof (setup_below_bound sensor Hs) as B0.
  pose proof (cycles_below_bound raws _ N0 B0) as B.
  destruct (cycles_ok raws _ (setup_ok sensor)) as [[N _] _].
  destruct (trunc_bounded _ FILTER_BOUND 2147483520 N posfin_FILTER_BOUND B)
    as (z & Tz & Hz); [vm_compute; reflexivity|].
  unfold F32.long_castable. rewrite Tz.
  apply andb_true_iff. split; apply Z.leb_le;
    unfold LONG_MIN, LONG_MAX; simpl; lia.
Qed.

(** * Further properties of the firmware *)

Lemma filter_cast_defined_witness :
  F32.long_castable
    (filteredReading (fst (run configured (fun _ => 4000) 3))) = true.
Proof.
  apply (filter_cast_defined (fun _ => 4000) 3).
  intros i. unfold in_long, LONG_MIN, LONG_MAX. simpl. lia.
Defined.

(** ** The height mapping is monotone *)

Lemma constrain_mono (f1 f2 : float) :
  nn f1 -> nn f2 -> F32.leb f1 f2 = true ->
  F32.leb (constrain f1 (SENSOR_RAW_MIN configured) (SENSOR_RAW_MAX configured))
          (constrain f2 (SENSOR_RAW_MIN configured) (SENSOR_RAW_MAX configured))
    = true.
Proof.
  intros N1 N2 H.
  destruct (constrain_range f1 N1) as (P1 & L1 & U1).
  destruct (constrain_range f2 N2) as (P2 & L2 & U2).
  cbv zeta in *. unfold constrain in *.
  set (lo := F32.of_Z (SENSOR_RAW_MIN configured)) in *.
  set (hi := F32.of_Z (SENSOR_RAW_MAX configured)) in *.
  destruct (F32.ltb f1 lo) eqn:A1; [exact L2|].
  destruct (F32.ltb hi f1) eqn:B1.
  - pose proof (ltb_leb_trans _ _ _ B1 H) as B2.
    destruct (F32.ltb f2 lo) eqn:A2.
    + pose proof (ltb_trans _ _ _ B2 A2) as C.
      assert (D : F32.leb lo hi = true) by (vm_compute; reflexivity).
      apply ltb_not_leb in C. congruence.
    + rewrite B2. exact U1.
  - destruct (F32.ltb f2 lo) eqn:A2.
    + pose proof (leb_ltb_trans _ _ _ H A2). congruence.
    + destruct (F32.ltb hi f2) eqn:B2; [exact U1 | exact H].
Qed.

(** X4.  On non-negative filter values the height mapping of [loop] (clamp,
    normalise, scale) is monotonically non-decreasing. *)
Theorem mapHeight_monotone (f1 f2 : float) :
  nn f1 -> nn f2 -> F32.leb f1 f2 = true ->
  F32.leb (mapHeight configured f1) (mapHeight configured f2) = true.
Proof.
  intros N1 N2 H.
  destruct (constrain_range f1 N1) as (P1 & L1 & U1).
  destruct (constrain_range f2 N2) as (P2 & L2 & U2).
  pose proof (constrain_mono f1 f2 N1 N2 H) as M.
  cbv zeta in *. unfold mapHeight.
  set (c1 := constrain f1 _ _) in *. set (c2 := constrain f2 _ _) in *.
  set (lo := F32.of_Z (SENSOR_RAW_MIN configured)) in *.
  rewrite !(fmul_comm _ H_MAX_METERS).
  assert (Plo : posfin lo) by exact posfin_raw_min.
  apply fmul_mono; [exact posfin_H_MAX | | |].
  - apply fdiv_nn; [exact posfin_span | apply fsub_nn; assumption].
  - apply fdiv_nn; [exact posfin_span | apply fsub_nn; assumption].
  - apply fdiv_mono; [exact posfin_span | apply fsub_nn; assumption
                      | apply fsub_nn; assumption |].
    apply fsub_mono; assumption.
Qed.

Lemma mapHeight_monotone_witness :
  F32.leb (mapHeight configured (F32.of_Z 600))
          (mapHeight configured (F32.of_Z 4870)) = true.
Proof.
  apply mapHeight_monotone; vm_compute; reflexivity.
Defined.

(** ** Snapping twice *)




(** ** Range of the reported flow and pressure *)

Lemma table_flow (v : float) :
  In v HEIGHT_STEPS ->
  F32.leb F32.zero (calculateFlowRate v) = true /\
  F32.leb (calculateFlowRate v) (calculateFlowRate H_MAX_METERS) = true /\
  F32.leb (pressure v) (pressure H_MAX_METERS) = true /\
  (calculateFlowRate v = F32.zero <-> v = F32.zero).
Proof.
  intros H. unfold HEIGHT_STEPS in H. cbn [In] in H.
  repeat (destruct H as [<-|H];
          [split; [vm_compute; reflexivity|];
           split; [vm_compute; reflexivity|];
           split; [vm_compute; reflexivity|];
           vm_compute; split; (reflexivity || discriminate)|]).
  destruct H.
Qed.

(** X6.  In every frame reported after [setup], the flow rate is a number from
    [0] to [calculateFlowRate(H_MAX_METERS)], the pressure does not exceed
    that of [H_MAX_METERS], and the flow is [0.0] exactly when the reported
    height is the [0.0] entry of the table. *)
Theorem reported_flow_in_range (sensor : nat -> Z) (n : nat) :
  Forall (fun fr =>
            F32.leb F32.zero (flowRate fr) = true /\
            F32.leb (flowRate fr) (calculateFlowRate H_MAX_METERS) = true /\
            F32.leb (pressureDiff fr) (pressure H_MAX_METERS) = true /\
            (flowRate fr = F32.zero <-> heightSnapped fr = F32.zero))
         (snd (run configured sensor n)).
Proof.
  destruct (heights_table_frames sensor n) as [Hin Hp].
  rewrite Forall_forall in *. intros fr Hfr.
  destruct (table_flow _ (Hin fr Hfr)) as (T1 & T2 & T3 & T4).
  destruct (table_pressure _ (Hin fr Hfr)) as (_ & T5 & _).
  destruct (Hp fr Hfr) as [P1 P2].
  rewrite T5 in P1. rewrite P1, P2. auto.
Qed.

(** ** A rejected reading that persists *)

Lemma streak_repeat (cal : Calibration) (st : State) (raw : Z) (n : nat) :
  invalid_at cal st raw -> streak cal st (repeat raw n).
Proof.
  intros H. unfold streak. apply Forall_forall.
  intros x Hx. apply repeat_spec in Hx. now subst x.
Qed.

(** X7.  When a reading is rejected, the same reading is rejected again however
    often it is repeated: the filter does not move, every cycle reports the
    held height, and no later cycle accepts it. *)
Theorem rejected_reading_never_accepted
    (cal : Calibration) (st : State) (raw : Z) (n : nat) :
  invalid_at cal st raw ->
  filteredReading (fst (cycles cal st (repeat raw n))) = filteredReading st /\
  Forall (fun fr => isValid fr = false /\
                    heightSnapped fr = lastValidHeight st)
         (snd (cycles cal st (repeat raw n))) /\
  invalid_at cal (fst (cycles cal st (repeat raw n))) raw.
Proof.
  intros H.
  destruct (streak_holds cal (repeat raw n) st (streak_repeat cal st raw n H))
    as (_ & H2 & H3).
  split; [exact H2|]. split.
  - eapply Forall_impl; [|exact H3]. simpl. tauto.
  - unfold invalid_at in *. now rewrite H2.
Qed.

(** The filter sits at 510 and the sensor steps to 9230, more than
    [maxDelta] away. *)
Lemma rejected_reading_never_accepted_witness :
  invalid_at configured
    (fst (cycles configured
            {| filteredReading := F32.of_Z 510; lastValidHeight := F32.zero;
               failureCount := 0; inFallbackMode := false |}
            (repeat 9230 100))) 9230.
Proof.
  apply rejected_reading_never_accepted. vm_compute. reflexivity.
Defined.

(** ** Mode-change notices *)

Lemma loop_notice (cal : Calibration) (st : State) (raw : Z) :
  notices [snd (loop cal st raw)] =
    (if Bool.eqb (inFallbackMode st) (inFallbackMode (fst (loop cal st raw)))
     then []
     else [if inFallbackMode st then NormalRestored else FallbackActivated]).
Proof.
  unfold notices. cbn [flat_map]. rewrite app_nil_r.
  destruct (validateReading cal (filteredReading st) raw) eqn:V.
  - destruct (loop_valid_frame cal st raw V) as (_ & _ & _ & ->).
    rewrite (loop_valid_state cal st raw V). cbn [inFallbackMode].
    destruct (inFallbackMode st); reflexivity.
  - destruct (loop_invalid_frame cal st raw V) as (_ & _ & _ & ->).
    rewrite (loop_invalid_state cal st raw V). cbn [inFallbackMode].
    destruct (inFallbackMode st); cbn [negb andb]; [reflexivity|].
    destruct (MAX_FAILURES <=? wrap_int (failureCount st + 1)); reflexivity.
Qed.

Lemma notices_cons (fr : Frame) (frs : list Frame) :
  notices (fr :: frs) = notices [fr] ++ notices frs.
Proof. unfold notices. cbn [flat_map]. now rewrite app_nil_r. Qed.

(** X8.  A cycle prints a notice exactly when it changes the mode, and the
    notices of any sequence of cycles alternate between "fallback
    activated" and "normal restored", starting with the one that leaves the
    mode the sequence starts in. *)
Theorem notices_alternate (cal : Calibration) (raws : list Z) :
  forall st : State,
    alternating (inFallbackMode st) (notices (snd (cycles cal st raws))).
Proof.
  induction raws as [|raw rest IH]; intros st; [exact I|].
  rewrite cycles_cons. cbn [snd]. rewrite notices_cons, loop_notice.
  specialize (IH (fst (loop cal st raw))).
  destruct (inFallbackMode st), (inFallbackMode (fst (loop cal st raw)));
    cbn [Bool.eqb app alternating negb]; auto.
Qed.

(** ** Start-up with a failing sensor *)

Lemma stabilizeFilter_all_errors (sensor : nat -> Z) (samples : nat) :
  forall (from : nat) (f : float),
    (forall i, (from <= i < from + samples)%nat -> sensor i < 0) ->
    stabilizeFilter samples sensor from f = f.
Proof.
  induction samples as [|k IH]; intros from f H; cbn [stabilizeFilter];
    [reflexivity|].
  unfold stabilize_step.
  destruct (Z.leb_spec 0 (sensor from)) as [L|L].
  - specialize (H from ltac:(lia)). lia.
  - apply IH. intros i Hi. apply H. lia.
Qed.

(** X9.  When every read of [initializeSystem] fails (negative value), the
    filter is seeded with the midpoint of the calibration range, 4870.0,
    and the rest of the state is as at power-up; when only the 20
    stabilisation reads fail, the filter is the first reading, which is
    accepted whenever it lies in [[0, 15000]] (the jump rule does not apply
    to the power-up value 0.0 of the filter). *)
Theorem setup_with_failing_sensor (sensor : nat -> Z) :
  (forall i, (1 <= i <= 20)%nat -> sensor i < 0) ->
  (sensor O < 0 ->
   setup configured sensor =
     {| filteredReading := F32.of_Z 4870; lastValidHeight := F32.zero;
        failureCount := 0; inFallbackMode := false |}) /\
  (0 <= sensor O <= 15000 ->
   setup configured sensor =
     {| filteredReading := F32.of_Z (sensor O); lastValidHeight := F32.zero;
        failureCount := 0; inFallbackMode := false |}).
Proof.
  intros H. unfold setup, initializeSystem.
  rewrite stabilizeFilter_all_errors by (intros i Hi; apply H; lia).
  cbn [initial_state filteredReading lastValidHeight failureCount inFallbackMode].
  unfold validateReading, EXTREME_MIN, EXTREME_MAX.
  split; intros Hs.
  - destruct (Z.ltb_spec (sensor O) 0); [|lia]. cbn [orb].
    f_equal; vm_compute; reflexivity.
  - destruct (Z.ltb_spec (sensor O) 0); [lia|].
    destruct (Z.ltb_spec 15000 (sensor O)); [lia|]. cbn [orb].
    reflexivity.
Qed.

Lemma setup_with_failing_sensor_witness :
  setup configured (fun _ => -2) =
    {| filteredReading := F32.of_Z 4870; lastValidHeight := F32.zero;
       failureCount := 0; inFallbackMode := false |}.
Proof.
  apply (setup_with_failing_sensor (fun _ => -2)); intros; lia.
Defined.

(** ** The filter as a function of its inputs *)

(** X3.  The EMA update is monotone in the previous filter value and in the raw
    reading, and keeps a non-negative filter non-negative (never NaN). *)
Theorem ema_monotone (f f' : float) (r r' : Z) :
  nn f -> nn f' -> F32.leb f f' = true -> 0 <= r <= r' ->
  F32.leb (ema f r) (ema f' r') = true /\
  F32.leb F32.zero (ema f r) = true /\
  F32.is_nan (ema f r) = false.
Proof.
  intros Hf Hf' H Hr.
  pose proof (ema_nn f r Hf ltac:(lia)) as N.
  split; [apply ema_mono; assumption|].
  split; [apply nn_zero_leb; exact N | apply nn_is_nan; exact N].
Qed.

Lemma ema_monotone_witness :
  F32.leb (ema (F32.of_Z 600) 700) (ema (F32.of_Z 4870) 5000) = true.
Proof.
  apply (ema_monotone (F32.of_Z 600) (F32.of_Z 4870) 700 5000);
    try (vm_compute; reflexivity). lia.
Defined.

(** ** The filter stays inside the envelope *)

Lemma ema_below_envelope (f : float) (r : Z) :
  nn f -> F32.leb f (F32.of_Z EXTREME_MAX) = true -> 0 <= r <= EXTREME_MAX ->
  F32.leb (ema f r) (F32.of_Z EXTREME_MAX) = true.
Proof.
  intros Hf H Hr.
  apply leb_trans with (ema (F32.of_Z EXTREME_MAX) EXTREME_MAX).
  - apply ema_mono; [exact Hf | vm_compute; reflexivity | exact H | exact Hr].
  - vm_compute. reflexivity.
Qed.

Lemma stabilizeFilter_below_envelope (sensor : nat -> Z) (samples : nat) :
  forall (from : nat) (f : float),
    (forall i, (from <= i < from + samples)%nat -> sensor i <= EXTREME_MAX) ->
    nn f -> F32.leb f (F32.of_Z EXTREME_MAX) = true ->
    F32.leb (stabilizeFilter samples sensor from f) (F32.of_Z EXTREME_MAX)
      = true.
Proof.
  induction samples as [|k IH]; intros from f Hs Hf H;
    cbn [stabilizeFilter]; [exact H|].
  apply IH; [intros i Hi; apply Hs; lia | apply stabilize_step_nn; exact Hf|].
  unfold stabilize_step. destruct (Z.leb_spec 0 (sensor from)); [|exact H].
  apply ema_below_envelope; [exact Hf | exact H |].
  specialize (Hs from ltac:(lia)). lia.
Qed.

Lemma cycles_below_envelope (raws : list Z) :
  forall st : State,
    nn (filteredReading st) ->
    F32.leb (filteredReading st) (F32.of_Z EXTREME_MAX) = true ->
    F32.leb (filteredReading (fst (cycles configured st raws)))
            (F32.of_Z EXTREME_MAX) = true.
Proof.
  induction raws as [|raw rest IH]; intros st Hf H; [exact H|].
  rewrite cycles_cons. cbn [fst].
  destruct (validateReading configured (filteredReading st) raw) eqn:V.
  - pose proof (validate_in_envelope _ _ _ V) as Hr.
    apply IH; rewrite (loop_valid_state configured st raw V);
      cbn [filteredReading].
    + apply ema_nn; [exact Hf | unfold EXTREME_MIN in Hr; lia].
    + apply ema_below_envelope; [exact Hf | exact H |].
      unfold EXTREME_MIN in Hr. lia.
  - apply IH; rewrite (loop_invalid_state configured st raw V);
      cbn [filteredReading]; assumption.
Qed.

(** X2.  When the 20 stabilisation reads do not exceed [EXTREME_MAX = 15000],
    [filteredReading] lies in [[0, 15000]] after [setup] and after every
    cycle, whatever the sensor returns later. *)
Theorem filter_stays_in_envelope (sensor : nat -> Z) (n : nat) :
  (forall i, (1 <= i <= 20)%nat -> sensor i <= EXTREME_MAX) ->
  F32.leb F32.zero (filteredReading (fst (run configured sensor n))) = true /\
  F32.leb (filteredReading (fst (run configured sensor n)))
          (F32.of_Z EXTREME_MAX) = true.
Proof.
  intros Hs. unfold run.
  set (raws := map (fun i => sensor (21 + i)%nat) (seq 0 n)).
  pose proof (setup_ok sensor) as [N0 _].
  destruct (cycles_ok raws _ (setup_ok sensor)) as [[N _] _].
  split; [apply nn_zero_leb; exact N|].
  apply cycles_below_envelope; [exact N0|].
  unfold setup, initializeSystem. cbn [filteredReading].
  destruct (validateReading configured (filteredReading initial_state)
              (sensor O)) eqn:E.
  - apply validate_in_envelope in E. unfold EXTREME_MIN in E.
    apply stabilizeFilter_below_envelope;
      [intros i Hi; apply Hs; lia | apply fof_Z_nn; lia |].
    apply fof_Z_mono. lia.
  - apply stabilizeFilter_below_envelope;
      [intros i Hi; apply Hs; lia | vm_compute; reflexivity
       | vm_compute; reflexivity].
Qed.

Lemma filter_stays_in_envelope_witness :
  F32.leb (filteredReading (fst (run configured (fun _ => 9000) 3)))
          (F32.of_Z EXTREME_MAX) = true.
Proof.
  apply (filter_stays_in_envelope (fun _ => 9000) 3).
  intros i _. unfold EXTREME_MAX. lia.
Defined.

(** * The calibration sketch *)

Lemma calib_ema (f : float) (r : Z) : CalibrationCode.ema f r = ema f r.
Proof. reflexivity. Qed.

Lemma to_long_below_bound (f : float) :
  nn f -> F32.leb f FILTER_BOUND = true ->
  F32.long_castable f = true /\ 0 <= F32.to_long f <= 2147483520.
Proof.
  intros N B.
  destruct (trunc_bounded f FILTER_BOUND 2147483520 N posfin_FILTER_BOUND B)
    as (z & Tz & Hz); [vm_compute; reflexivity|].
  unfold F32.long_castable, F32.to_long. rewrite Tz.
  assert (E : (LONG_MIN <=? z) && (z <=? LONG_MAX) = true).
  { apply andb_true_iff. split; apply Z.leb_le;
      unfold LONG_MIN, LONG_MAX; simpl; lia. }
  rewrite E. split; [reflexivity | exact Hz].
Qed.

Lemma collect_cons (st : CalibrationCode.State) (r : Z) (rest : list Z) :
  CalibrationCode.collect st (r :: rest) =
    (fst (CalibrationCode.collect (fst (CalibrationCode.collectData st r)) rest),
     snd (CalibrationCode.collectData st r) ::
     snd (CalibrationCode.collect (fst (CalibrationCode.collectData st r)) rest)).
Proof.
  cbn [CalibrationCode.collect].
  destruct (CalibrationCode.collectData st r) as [st1 row]. cbn [fst snd].
  destruct (CalibrationCode.collect st1 rest). reflexivity.
Qed.

Lemma collect_length (readings : list Z) :
  forall st, length (snd (CalibrationCode.collect st readings)) = length readings.
Proof.
  induction readings as [|r rest IH]; intros st; [reflexivity|].
  rewrite collect_cons. cbn [snd length]. now rewrite IH.
Qed.

(** One call of [collectData] on a reading of type [long]. *)
Lemma collectData_ok (st : CalibrationCode.State) (r : Z) :
  calib_ok st -> in_long r ->
  let st' := fst (CalibrationCode.collectData st r) in
  let row := snd (CalibrationCode.collectData st r) in
  calib_ok st' /\
  0 <= CalibrationCode.row_raw row <= LONG_MAX /\
  0 <= CalibrationCode.row_filtered row <= 2147483520 /\
  CalibrationCode.minReading st' <= CalibrationCode.row_filtered row
    <= CalibrationCode.maxReading st' /\
  CalibrationCode.maxReading st <= CalibrationCode.maxReading st' /\
  CalibrationCode.minReading st' <= CalibrationCode.minReading st.
Proof.
  intros (N & B & Hmax & Hmin) Hr. cbv zeta.
  unfold CalibrationCode.collectData.
  cbn [fst snd CalibrationCode.row_raw CalibrationCode.row_filtered
       CalibrationCode.maxReading CalibrationCode.minReading].
  destruct (to_long_below_bound _ N B) as [_ T].
  set (raw := if r <? 0 then F32.to_long (CalibrationCode.filteredValue st)
              else r).
  assert (Hraw : 0 <= raw <= LONG_MAX).
  { unfold raw. destruct (Z.ltb_spec r 0).
    - unfold LONG_MAX. simpl. lia.
    - destruct Hr. lia. }
  rewrite calib_ema.
  assert (N' : nn (ema (CalibrationCode.filteredValue st) raw))
    by (apply ema_nn; [exact N | lia]).
  assert (B' : F32.leb (ema (CalibrationCode.filteredValue st) raw)
                       FILTER_BOUND = true)
    by (apply ema_below_bound; [exact N | exact B | exact Hraw]).
  destruct (to_long_below_bound _ N' B') as [_ T'].
  set (fi := F32.to_long (ema (CalibrationCode.filteredValue st) raw)) in *.
  split.
  { unfold calib_ok.
    cbn [CalibrationCode.filteredValue CalibrationCode.maxReading
         CalibrationCode.minReading].
    split; [exact N'|]. split; [exact B'|].
    destruct (Z.ltb_spec (CalibrationCode.maxReading st) fi);
      destruct (Z.ltb_spec fi (CalibrationCode.minReading st)); lia. }
  split; [exact Hraw|]. split; [exact T'|].
  destruct (Z.ltb_spec (CalibrationCode.maxReading st) fi);
    destruct (Z.ltb_spec fi (CalibrationCode.minReading st)); lia.
Qed.

Lemma collect_ok (readings : list Z) :
  forall st : CalibrationCode.State,
    calib_ok st -> Forall in_long readings ->
    let st' := fst (CalibrationCode.collect st readings) in
    calib_ok st' /\
    CalibrationCode.maxReading st <= CalibrationCode.maxReading st' /\
    CalibrationCode.minReading st' <= CalibrationCode.minReading st /\
    Forall (fun row =>
              0 <= CalibrationCode.row_raw row <= LONG_MAX /\
              0 <= CalibrationCode.row_filtered row <= 2147483520 /\
              CalibrationCode.minReading st' <= CalibrationCode.row_filtered row
                <= CalibrationCode.maxReading st')
           (snd (CalibrationCode.collect st readings)).
Proof.
  induction readings as [|r rest IH]; intros st Hst Hr; cbv zeta.
  - cbn [CalibrationCode.collect fst snd].
    split; [exact Hst|]. split; [lia|]. split; [lia | constructor].
  - inversion Hr as [|? ? Hr1 Hr2]; subst.
    destruct (collectData_ok st r Hst Hr1) as (O1 & R1 & R2 & R3 & M1 & M2).
    cbv zeta in *.
    destruct (IH _ O1 Hr2) as (O2 & M3 & M4 & F). cbv zeta in *.
    rewrite collect_cons. cbn [fst snd].
    split; [exact O2|]. split; [lia|]. split; [lia|].
    constructor; [|exact F]. repeat split; lia.
Qed.

Lemma calib_stabilize_ok (sensor : nat -> Z) (samples : nat) :
  (forall i, in_long (sensor i)) ->
  forall (from : nat) (f : float),
    nn f -> F32.leb f FILTER_BOUND = true ->
    nn (CalibrationCode.stabilize samples sensor from f) /\
    F32.leb (CalibrationCode.stabilize samples sensor from f) FILTER_BOUND
      = true.
Proof.
  intros Hs. induction samples as [|k IH]; intros from f N B;
    cbn [CalibrationCode.stabilize]; [auto|].
  destruct (Z.leb_spec 0 (sensor from)).
  - rewrite calib_ema. apply IH.
    + apply ema_nn; assumption.
    + apply ema_below_bound; [exact N | exact B |].
      destruct (Hs from). lia.
  - apply IH; assumption.
Qed.

Lemma calib_setup_ok (sensor : nat -> Z) :
  (forall i, in_long (sensor i)) -> sensor O <= 2147483520 ->
  calib_ok (CalibrationCode.setup sensor).
Proof.
  intros Hs H0. unfold CalibrationCode.setup, CalibrationCode.stabilizeFilter,
    CalibrationCode.initializeSensor, CalibrationCode.with_filter, calib_ok.
  cbn [CalibrationCode.filteredValue CalibrationCode.maxReading
       CalibrationCode.minReading CalibrationCode.power_up].
  assert (S : nn (if sensor O <? 0 then F32.of_Z 0 else F32.of_Z (sensor O)) /\
              F32.leb (if sensor O <? 0 then F32.of_Z 0 else F32.of_Z (sensor O))
                      FILTER_BOUND = true).
  { destruct (Z.ltb_spec (sensor O) 0).
    - split; vm_compute; reflexivity.
    - split; [apply fof_Z_nn; lia|].
      apply leb_trans with (F32.of_Z 2147483520).
      + apply fof_Z_mono. lia.
      + vm_compute. reflexivity. }
  destruct S as [N B].
  destruct (calib_stabilize_ok sensor 20 Hs 1%nat _ N B) as [N' B'].
  split; [exact N'|]. split; [exact B'|]. lia.
Qed.

(** X10.  With a sensor that returns [long] values, the first of them at most
    [2^31 - 128] (a larger one converts to the float [2^31], whose cast back
    to [long] is undefined): every cast [(long) filteredValue] of the sketch
    is defined, the raw column of the CSV block is never negative (a failed
    read is replaced by the truncated filter value), the filtered column is
    never negative, and every filtered value lies between the final
    [minReading] and [maxReading]. *)
Theorem calibration_rows_in_range (sensor : nat -> Z) (n : nat) :
  (forall i, in_long (sensor i)) -> sensor O <= 2147483520 ->
  length (snd (CalibrationCode.calibrate sensor n)) = n /\
  F32.long_castable
    (CalibrationCode.filteredValue (fst (CalibrationCode.calibrate sensor n)))
    = true /\
  Forall (fun row =>
            0 <= CalibrationCode.row_raw row /\
            0 <= CalibrationCode.row_filtered row /\
            CalibrationCode.minReading (fst (CalibrationCode.calibrate sensor n))
              <= CalibrationCode.row_filtered row
              <= CalibrationCode.maxReading
                   (fst (CalibrationCode.calibrate sensor n)))
         (snd (CalibrationCode.calibrate sensor n)).
Proof.
  intros Hs H0. unfold CalibrationCode.calibrate.
  set (readings := map (fun i => sensor (21 + i)%nat) (seq 0 n)).
  assert (Hr : Forall in_long readings).
  { unfold readings. apply Forall_forall. intros x Hx.
    apply in_map_iff in Hx. destruct Hx as (i & <- & _). apply Hs. }
  destruct (collect_ok readings _ (calib_setup_ok sensor Hs H0) Hr)
    as ((N & B & _) & _ & _ & F). cbv zeta in F.
  split; [|split].
  - unfold readings. now rewrite collect_length, length_map, length_seq.
  - exact (proj1 (to_long_below_bound _ N B)).
  - eapply Forall_impl; [|exact F]. intros row H. cbv beta in H. lia.
Qed.

Lemma calibration_rows_in_range_witness :
  length (snd (CalibrationCode.calibrate (fun _ => 4000) 5)) = 5%nat.
Proof.
  apply (calibration_rows_in_range (fun _ => 4000) 5).
  - intros i. unfold in_long, LONG_MIN, LONG_MAX. simpl. lia.
  - lia.
Defined.

(** ** The extremes and the average *)

Lemma collect_extremes (readings : list Z) :
  forall st : CalibrationCode.State,
    CalibrationCode.maxReading (fst (CalibrationCode.collect st readings)) =
      fold_left Z.max (logged (snd (CalibrationCode.collect st readings)))
                (CalibrationCode.maxReading st) /\
    CalibrationCode.minReading (fst (CalibrationCode.collect st readings)) =
      fold_left Z.min (logged (snd (CalibrationCode.collect st readings)))
                (CalibrationCode.minReading st).
Proof.
  induction readings as [|r rest IH]; intros st.
  - split; reflexivity.
  - rewrite collect_cons. cbn [fst snd logged map fold_left].
    destruct (IH (fst (CalibrationCode.collectData st r))) as [I1 I2].
    fold (logged (snd (CalibrationCode.collect
                         (fst (CalibrationCode.collectData st r)) rest))).
    rewrite I1, I2.
    unfold CalibrationCode.collectData.
    cbn [fst snd CalibrationCode.maxReading CalibrationCode.minReading
         CalibrationCode.row_filtered].
    split; f_equal.
    + destruct (Z.ltb_spec (CalibrationCode.maxReading st)
                  (F32.to_long
                     (CalibrationCode.ema (CalibrationCode.filteredValue st)
                        (if r <? 0
                         then F32.to_long (CalibrationCode.filteredValue st)
                         else r)))); lia.
    + destruct (Z.ltb_spec
                  (F32.to_long
                     (CalibrationCode.ema (CalibrationCode.filteredValue st)
                        (if r <? 0
                         then F32.to_long (CalibrationCode.filteredValue st)
                         else r)))
                  (CalibrationCode.minReading st)); lia.
Qed.

Lemma fold_max_in (l : list Z) :
  forall a, fold_left Z.max l a = a \/ In (fold_left Z.max l a) l.
Proof.
  induction l as [|x l IH]; intros a; cbn [fold_left In]; [now left|].
  destruct (IH (Z.max a x)) as [H|H].
  - rewrite H. destruct (Z.max_spec a x) as [[_ ->]|[_ ->]]; auto.
  - auto.
Qed.

Lemma fold_min_in (l : list Z) :
  forall a, fold_left Z.min l a = a \/ In (fold_left Z.min l a) l.
Proof.
  induction l as [|x l IH]; intros a; cbn [fold_left In]; [now left|].
  destruct (IH (Z.min a x)) as [H|H].
  - rewrite H. destruct (Z.min_spec a x) as [[_ ->]|[_ ->]]; auto.
  - auto.
Qed.

Lemma fold_max_ge (l : list Z) :
  forall a, a <= fold_left Z.max l a /\
            forall v, In v l -> v <= fold_left Z.max l a.
Proof.
  induction l as [|x l IH]; intros a; cbn [fold_left In].
  - split; [lia | tauto].
  - destruct (IH (Z.max a x)) as [H1 H2]. split; [lia|].
    intros v [<-|Hv]; [lia | now apply H2].
Qed.

Lemma fold_min_le (l : list Z) :
  forall a, fold_left Z.min l a <= a /\
            forall v, In v l -> fold_left Z.min l a <= v.
Proof.
  induction l as [|x l IH]; intros a; cbn [fold_left In].
  - split; [lia | tauto].
  - destruct (IH (Z.min a x)) as [H1 H2]. split; [lia|].
    intros v [<-|Hv]; [lia | now apply H2].
Qed.

(** X11.  The sketch reports as [MAX] the largest of 0 and the filtered values it
    logged, and as [MIN] the smallest of 999999 and those values: [MAX] is a
    logged value or the initial 0, [MIN] a logged value or the initial
    999999, and no logged value lies outside [[MIN, MAX]] -- so a run whose
    filtered values all exceed 999999 reports [MIN = 999999], a value the
    sensor never had. *)
Theorem calibration_extremes (sensor : nat -> Z) (n : nat) :
  let st := fst (CalibrationCode.calibrate sensor n) in
  let values := logged (snd (CalibrationCode.calibrate sensor n)) in
  let r := CalibrationCode.printCalibrationResults st in
  CalibrationCode.MAX_reading r = fold_left Z.max values 0 /\
  CalibrationCode.MIN_reading r = fold_left Z.min values 999999 /\
  (CalibrationCode.MAX_reading r = 0 \/ In (CalibrationCode.MAX_reading r) values) /\
  (CalibrationCode.MIN_reading r = 999999 \/
   In (CalibrationCode.MIN_reading r) values) /\
  (forall v, In v values ->
     CalibrationCode.MIN_reading r <= v <= CalibrationCode.MAX_reading r).
Proof.
  cbv zeta. unfold CalibrationCode.calibrate.
  set (readings := map (fun i => sensor (21 + i)%nat) (seq 0 n)).
  destruct (collect_extremes readings (CalibrationCode.setup sensor))
    as [E1 E2].
  cbn [CalibrationCode.printCalibrationResults CalibrationCode.MAX_reading
       CalibrationCode.MIN_reading].
  change (CalibrationCode.maxReading (CalibrationCode.setup sensor)) with 0 in E1.
  change (CalibrationCode.minReading (CalibrationCode.setup sensor))
    with 999999 in E2.
  rewrite E1, E2.
  split; [reflexivity|]. split; [reflexivity|].
  split; [apply fold_max_in|]. split; [apply fold_min_in|].
  intros v Hv. split; [apply fold_min_le | apply fold_max_ge]; exact Hv.
Qed.

Lemma wrap_long_add_l (a b : Z) :
  wrap_long (wrap_long a + b) = wrap_long (a + b).
Proof.
  unfold wrap_long, wrap.
  replace ((a + 2 ^ (32 - 1)) mod 2 ^ 32 - 2 ^ (32 - 1) + b + 2 ^ (32 - 1))
    with ((a + 2 ^ (32 - 1)) mod 2 ^ 32 + b) by lia.
  rewrite Z.add_mod_idemp_l by (simpl; lia).
  replace (a + 2 ^ (32 - 1) + b) with (a + b + 2 ^ (32 - 1)) by lia.
  reflexivity.
Qed.

Lemma collect_counts (readings : list Z) :
  forall st : CalibrationCode.State,
    CalibrationCode.sumReadings (fst (CalibrationCode.collect st readings)) =
      (match readings with
       | nil => CalibrationCode.sumReadings st
       | _ :: _ => wrap_long (CalibrationCode.sumReadings st +
                       zsum (logged (snd (CalibrationCode.collect st readings))))
       end)
    /\
    CalibrationCode.sampleCount (fst (CalibrationCode.collect st readings)) =
      (match readings with
       | nil => CalibrationCode.sampleCount st
       | _ :: _ => (CalibrationCode.sampleCount st + Z.of_nat (length readings))
                     mod 2 ^ 16
       end).
Proof.
  induction readings as [|r rest IH]; intros st; [split; reflexivity|].
  rewrite collect_cons. cbn [fst snd logged map zsum fold_right length].
  destruct (IH (fst (CalibrationCode.collectData st r))) as [I1 I2].
  fold (logged (snd (CalibrationCode.collect
                       (fst (CalibrationCode.collectData st r)) rest))).
  fold (zsum (logged (snd (CalibrationCode.collect
                       (fst (CalibrationCode.collectData st r)) rest)))).
  rewrite I1, I2. clear I1 I2 IH.
  unfold CalibrationCode.collectData.
  cbn [fst snd CalibrationCode.sumReadings CalibrationCode.sampleCount
       CalibrationCode.row_filtered].
  destruct rest as [|r' rest'].
  - cbn [CalibrationCode.collect snd logged map zsum fold_right length].
    split; [f_equal; lia | reflexivity].
  - split.
    + rewrite wrap_long_add_l. f_equal. lia.
    + rewrite Z.add_mod_idemp_l by (simpl; lia). f_equal.
      cbn [length]. lia.
Qed.

Lemma zsum_bounds (lo hi : Z) (l : list Z) :
  Forall (fun v => lo <= v <= hi) l ->
  Z.of_nat (length l) * lo <= zsum l <= Z.of_nat (length l) * hi.
Proof.
  induction 1 as [|v l Hv _ IH]; cbn [zsum fold_right length]; [lia|].
  fold (zsum l). lia.
Qed.

(** X12.  With between 1 and 65535 samples whose filtered values sum to at most
    [LONG_MAX] (no overflow of [sumReadings]), the results report the number
    of samples, [AVERAGE] is the truncated mean of the logged values and
    lies between [MIN] and [MAX], and [RANGE = MAX - MIN >= 0]. *)
Theorem calibration_average (sensor : nat -> Z) (n : nat) :
  (forall i, in_long (sensor i)) -> sensor O <= 2147483520 ->
  (0 < n)%nat -> Z.of_nat n < 65536 ->
  zsum (logged (snd (CalibrationCode.calibrate sensor n))) <= LONG_MAX ->
  let values := logged (snd (CalibrationCode.calibrate sensor n)) in
  let r := CalibrationCode.printCalibrationResults
             (fst (CalibrationCode.calibrate sensor n)) in
  CalibrationCode.total_samples r = Z.of_nat n /\
  CalibrationCode.AVERAGE r = zsum values / Z.of_nat n /\
  CalibrationCode.MIN_reading r <= CalibrationCode.AVERAGE r
    <= CalibrationCode.MAX_reading r /\
  CalibrationCode.RANGE r =
    CalibrationCode.MAX_reading r - CalibrationCode.MIN_reading r /\
  0 <= CalibrationCode.RANGE r.
Proof.
  intros Hs H0 Hn Hn' Hsum. cbv zeta.
  unfold CalibrationCode.calibrate in *.
  set (readings := map (fun i => sensor (21 + i)%nat) (seq 0 n)) in *.
  assert (Hlen : length readings = n)
    by (unfold readings; now rewrite length_map, length_seq).
  assert (Hr : Forall in_long readings).
  { unfold readings. apply Forall_forall. intros x Hx.
    apply in_map_iff in Hx. destruct Hx as (i & <- & _). apply Hs. }
  destruct (collect_ok readings _ (calib_setup_ok sensor Hs H0) Hr)
    as ((_ & _ & Hmax0 & Hmin0) & _ & _ & F). cbv zeta in F.
  destruct (collect_counts readings (CalibrationCode.setup sensor)) as [S C].
  pose proof (collect_length readings (CalibrationCode.setup sensor)) as L.
  set (st := fst (CalibrationCode.collect (CalibrationCode.setup sensor)
                    readings)) in *.
  set (rows := snd (CalibrationCode.collect (CalibrationCode.setup sensor)
                      readings)) in *.
  change (CalibrationCode.sumReadings (CalibrationCode.setup sensor))
    with 0 in S.
  change (CalibrationCode.sampleCount (CalibrationCode.setup sensor))
    with 0 in C.
  destruct readings as [|r0 rest] eqn:ER; [simpl in Hlen; lia|].
  rewrite Hlen in C. rewrite Z.add_0_l in S, C.
  rewrite Z.mod_small in C by (simpl; lia).
  assert (FV : Forall (fun v => CalibrationCode.minReading st <= v
                                  <= CalibrationCode.maxReading st) (logged rows)).
  { unfold logged. apply Forall_map. eapply Forall_impl; [|exact F].
    intros row H. cbv beta in H. lia. }
  assert (FP : Forall (fun v => 0 <= v <= 2147483520) (logged rows)).
  { unfold logged. apply Forall_map. eapply Forall_impl; [|exact F].
    intros row H. cbv beta in H. lia. }
  pose proof (zsum_bounds _ _ _ FV) as B1.
  pose proof (zsum_bounds _ _ _ FP) as B2.
  assert (Ll : length (logged rows) = n)
    by (unfold logged; now rewrite length_map, L).
  rewrite Ll in B1, B2.
  assert (IS : in_long (zsum (logged rows))).
  { unfold LONG_MAX in Hsum. unfold in_long, LONG_MIN, LONG_MAX. lia. }
  rewrite (wrap_long_small _ IS) in S.
  assert (Hfirst : exists v, In v (logged rows)).
  { destruct (logged rows) as [|v l]; [simpl in Ll; lia|].
    exists v. now left. }
  destruct Hfirst as (v & Hv).
  rewrite Forall_forall in FV, FP.
  pose proof (FV v Hv) as V1. pose proof (FP v Hv) as V2.
  destruct (collect_extremes (r0 :: rest) (CalibrationCode.setup sensor))
    as [E1 E2].
  fold st in E1, E2. fold rows in E1, E2.
  change (CalibrationCode.maxReading (CalibrationCode.setup sensor)) with 0 in E1.
  change (CalibrationCode.minReading (CalibrationCode.setup sensor))
    with 999999 in E2.
  assert (Mx : CalibrationCode.maxReading st <= 2147483520).
  { destruct (fold_max_in (logged rows) 0) as [H|H]; rewrite <- E1 in H;
      [lia | apply FP in H; lia]. }
  assert (Mn : 0 <= CalibrationCode.minReading st).
  { destruct (fold_min_in (logged rows) 999999) as [H|H]; rewrite <- E2 in H;
      [lia | apply FP in H; lia]. }
  cbn [CalibrationCode.printCalibrationResults CalibrationCode.total_samples
       CalibrationCode.AVERAGE CalibrationCode.MIN_reading
       CalibrationCode.MAX_reading CalibrationCode.RANGE].
  rewrite C, S.
  destruct (Z.ltb_spec 0 (Z.of_nat n)); [|lia].
  rewrite Z.quot_div_nonneg by lia.
  split; [reflexivity|]. split; [reflexivity|].
  split.
  - split.
    + apply Z.div_le_lower_bound; lia.
    + apply Z.div_le_upper_bound; lia.
  - assert (IR : in_long (CalibrationCode.maxReading st
                          - CalibrationCode.minReading st)).
    { unfold in_long, LONG_MIN, LONG_MAX. lia. }
    rewrite (wrap_long_small _ IR).
    split; [reflexivity | lia].
Qed.

Lemma calibration_average_witness :
  CalibrationCode.total_samples
    (CalibrationCode.printCalibrationResults
       (fst (CalibrationCode.calibrate (fun _ => 4000) 5))) = 5.
Proof.
  apply (calibration_average (fun _ => 4000) 5).
  - intros i. unfold in_long, LONG_MIN, LONG_MAX. simpl. lia.
  - lia.
  - lia.
  - lia.
  - vm_compute. discriminate.
Defined.

(** X13.  Without any sample the results are the initial values: [MIN = 999999],
    [MAX = 0], [RANGE = -999999], and the division of the average is
    skipped.  The 16-bit sample counter wraps: the results report
    [n mod 65536] samples, and an average of 0 when that is 0. *)
Theorem calibration_sample_count (sensor : nat -> Z) (n : nat) :
  let r := CalibrationCode.printCalibrationResults
             (fst (CalibrationCode.calibrate sensor n)) in
  CalibrationCode.total_samples r = Z.of_nat n mod 2 ^ 16 /\
  (Z.of_nat n mod 2 ^ 16 = 0 -> CalibrationCode.AVERAGE r = 0) /\
  (n = O ->
   CalibrationCode.MIN_reading r = 999999 /\
   CalibrationCode.MAX_reading r = 0 /\
   CalibrationCode.RANGE r = -999999).
Proof.
  cbv zeta. unfold CalibrationCode.calibrate.
  set (readings := map (fun i => sensor (21 + i)%nat) (seq 0 n)).
  assert (Hlen : length readings = n)
    by (unfold readings; now rewrite length_map, length_seq).
  destruct (collect_counts readings (CalibrationCode.setup sensor)) as [_ C].
  change (CalibrationCode.sampleCount (CalibrationCode.setup sensor))
    with 0 in C.
  assert (C' : CalibrationCode.sampleCount
                 (fst (CalibrationCode.collect (CalibrationCode.setup sensor)
                         readings)) = Z.of_nat n mod 2 ^ 16).
  { rewrite C. destruct readings; [simpl in Hlen; subst n; reflexivity|].
    rewrite Hlen. reflexivity. }
  cbn [CalibrationCode.printCalibrationResults CalibrationCode.total_samples
       CalibrationCode.AVERAGE CalibrationCode.MIN_reading
       CalibrationCode.MAX_reading CalibrationCode.RANGE].
  rewrite C'. split; [reflexivity|]. split.
  - intros ->. reflexivity.
  - intros ->. repeat split; reflexivity.
Qed.

(** * The demonstration sketch *)

Lemma runReal_stages (st : SimulationCode.State) (r : Z) :
  SimulationCode.runReal st r =
    {| SimulationCode.out_Q := real_flow (real_height (real_value st r));
       SimulationCode.out_h := real_height (real_value st r);
       SimulationCode.out_isSim := false;
       SimulationCode.out_p :=
         SimulationCode.display_pressure (real_height (real_value st r)) |}.
Proof. reflexivity. Qed.

Lemma real_value_range (st : SimulationCode.State) (r : Z) :
  0 <= real_value st r <= LONG_MAX.
Proof.
  unfold real_value. cbv zeta.
  pose proof (wrap_long_range (r - SimulationCode.zeroPoint st)) as W.
  unfold in_long in W.
  destruct (Z.ltb_spec (wrap_long (r - SimulationCode.zeroPoint st)) 0).
  - unfold LONG_MAX. lia.
  - lia.
Qed.

Lemma real_value_exact (st : SimulationCode.State) (r : Z) :
  in_long (r - SimulationCode.zeroPoint st) ->
  real_value st r = Z.max 0 (r - SimulationCode.zeroPoint st).
Proof.
  intros H. unfold real_value. cbv zeta. rewrite (wrap_long_small _ H).
  destruct (Z.ltb_spec (r - SimulationCode.zeroPoint st) 0); lia.
Qed.

Lemma sim_posfin_span : posfin (F32.of_Z 9000).
Proof. vm_compute. reflexivity. Qed.

Lemma sim_posfin_one : posfin (F32.of_Z 1).
Proof. vm_compute. reflexivity. Qed.

Lemma sim_posfin_H_MAX : posfin SimulationCode.H_MAX.
Proof. vm_compute. reflexivity. Qed.

Lemma sim_posfin_K_FACTOR : posfin SimulationCode.K_FACTOR.
Proof. vm_compute. reflexivity. Qed.

Lemma sim_posfin_pressure :
  posfin (F32.mul (F32.sub SimulationCode.RHO_MANO SimulationCode.RHO_FLUID)
                  SimulationCode.G).
Proof. vm_compute. reflexivity. Qed.

(** The fraction of the span, cut at 1. *)
Lemma real_fraction_range (val : Z) :
  0 <= val ->
  let f0 := F32.div (F32.of_Z val) (F32.of_Z 9000) in
  let f := if F32.ltb (F32.of_Z 1) f0 then F32.of_Z 1 else f0 in
  nn f0 /\ nn f /\ F32.leb f (F32.of_Z 1) = true.
Proof.
  intros Hv. cbv zeta.
  assert (N0 : nn (F32.div (F32.of_Z val) (F32.of_Z 9000))).
  { apply fdiv_nn; [exact sim_posfin_span | apply fof_Z_nn; exact Hv]. }
  split; [exact N0|].
  destruct (F32.ltb (F32.of_Z 1) (F32.div (F32.of_Z val) (F32.of_Z 9000)))
    eqn:E.
  - split; [apply posfin_nn; exact sim_posfin_one | vm_compute; reflexivity].
  - split; [exact N0|].
    apply not_ltb_leb; [vm_compute; reflexivity | apply nn_is_nan; exact N0
                       | exact E].
Qed.

Lemma real_height_range (val : Z) :
  0 <= val ->
  nn (real_height val) /\
  F32.leb (real_height val) SimulationCode.H_MAX = true.
Proof.
  intros Hv. destruct (real_fraction_range val Hv) as (_ & Nf & Lf).
  cbv zeta in Nf, Lf. unfold real_height. cbv zeta.
  rewrite fmul_comm. split.
  - apply fmul_nn; [exact sim_posfin_H_MAX | exact Nf].
  - apply leb_trans with (F32.mul SimulationCode.H_MAX (F32.of_Z 1)).
    + apply fmul_mono; [exact sim_posfin_H_MAX | exact Nf
                       | apply posfin_nn; exact sim_posfin_one | exact Lf].
    + vm_compute. reflexivity.
Qed.

Lemma real_height_mono (v1 v2 : Z) :
  0 <= v1 <= v2 ->
  F32.leb (real_height v1) (real_height v2) = true.
Proof.
  intros Hv.
  destruct (real_fraction_range v1 ltac:(lia)) as (N1 & Nf1 & Lf1).
  destruct (real_fraction_range v2 ltac:(lia)) as (N2 & Nf2 & Lf2).
  cbv zeta in N1, Nf1, Lf1, N2, Nf2, Lf2.
  assert (M : F32.leb (F32.div (F32.of_Z v1) (F32.of_Z 9000))
                      (F32.div (F32.of_Z v2) (F32.of_Z 9000)) = true).
  { apply fdiv_mono; [exact sim_posfin_span | apply fof_Z_nn; lia
                     | apply fof_Z_nn; lia | apply fof_Z_mono; exact Hv]. }
  unfold real_height. cbv zeta.
  rewrite (fmul_comm _ SimulationCode.H_MAX).
  rewrite (fmul_comm _ SimulationCode.H_MAX).
  apply fmul_mono; [exact sim_posfin_H_MAX | exact Nf1 | exact Nf2 |].
  destruct (F32.ltb (F32.of_Z 1) (F32.div (F32.of_Z v1) (F32.of_Z 9000)))
    eqn:E1;
    destruct (F32.ltb (F32.of_Z 1) (F32.div (F32.of_Z v2) (F32.of_Z 9000)))
      eqn:E2.
  - vm_compute. reflexivity.
  - rewrite (ltb_leb_trans _ _ _ E1 M) in E2. discriminate E2.
  - exact Lf1.
  - exact M.
Qed.

Lemma real_flow_nn (h : float) : nn h -> nn (real_flow h).
Proof.
  intros N. unfold real_flow. destruct (F32.ltb F32.zero h).
  - apply fmul_nn; [exact sim_posfin_K_FACTOR | apply fsqrt_nn; exact N].
  - exact I.
Qed.

Lemma real_flow_mono (h1 h2 : float) :
  nn h1 -> nn h2 -> F32.leb h1 h2 = true ->
  F32.leb (real_flow h1) (real_flow h2) = true.
Proof.
  intros N1 N2 H. unfold real_flow.
  destruct (F32.ltb F32.zero h1) eqn:E1; destruct (F32.ltb F32.zero h2) eqn:E2.
  - apply fmul_mono; [exact sim_posfin_K_FACTOR | apply fsqrt_nn; exact N1
                     | apply fsqrt_nn; exact N2 |].
    apply fsqrt_mono; [exact N1 | exact N2 | exact H].
  - rewrite (ltb_leb_trans _ _ _ E1 H) in E2. discriminate E2.
  - apply (zero_leb_nn false).
    apply fmul_nn; [exact sim_posfin_K_FACTOR | apply fsqrt_nn; exact N2].
  - reflexivity.
Qed.

Lemma display_pressure_castable (h : float) :
  nn h -> F32.leb h SimulationCode.H_MAX = true ->
  nn (SimulationCode.display_pressure h) /\
  SimulationCode.int_castable (SimulationCode.display_pressure h) = true.
Proof.
  intros N L. unfold SimulationCode.display_pressure.
  assert (Np : nn (F32.mul (F32.mul (F32.sub SimulationCode.RHO_MANO
                                              SimulationCode.RHO_FLUID)
                                     SimulationCode.G) h)).
  { apply fmul_nn; [exact sim_posfin_pressure | exact N]. }
  split; [exact Np|].
  assert (B : F32.leb (F32.mul (F32.mul (F32.sub SimulationCode.RHO_MANO
                                                 SimulationCode.RHO_FLUID)
                                        SimulationCode.G) h)
                      (F32.of_Z 1013) = true).
  { apply leb_trans with
      (F32.mul (F32.mul (F32.sub SimulationCode.RHO_MANO
                                 SimulationCode.RHO_FLUID)
                        SimulationCode.G) SimulationCode.H_MAX).
    - apply fmul_mono; [exact sim_posfin_pressure | exact N
                       | apply posfin_nn; exact sim_posfin_H_MAX | exact L].
    - vm_compute. reflexivity. }
  destruct (trunc_bounded _ (F32.of_Z 1013) 1013 Np) as (z & Tz & Hz);
    [vm_compute; reflexivity | exact B | vm_compute; reflexivity |].
  unfold SimulationCode.int_castable. rewrite Tz.
  apply andb_true_intro. split; apply Z.leb_le; simpl; lia.
Qed.

(** X14.  Whatever the sensor returns, a step of the real mode sends a height
    between 0 and [H_MAX] and a flow between 0 and [K_FACTOR * sqrt(H_MAX)],
    neither of them NaN, and the cast [(int)p] of the display is defined. *)
Theorem runReal_outputs_in_range (st : SimulationCode.State) (r : Z) :
  let o := SimulationCode.runReal st r in
  F32.leb F32.zero (SimulationCode.out_h o) = true /\
  F32.leb (SimulationCode.out_h o) SimulationCode.H_MAX = true /\
  F32.leb F32.zero (SimulationCode.out_Q o) = true /\
  F32.leb (SimulationCode.out_Q o)
          (F32.mul SimulationCode.K_FACTOR (F32.sqrt SimulationCode.H_MAX))
    = true /\
  SimulationCode.int_castable (SimulationCode.out_p o) = true.
Proof.
  cbv zeta. rewrite runReal_stages.
  cbn [SimulationCode.out_h SimulationCode.out_Q SimulationCode.out_p].
  destruct (real_value_range st r) as [Hv _].
  destruct (real_height_range _ Hv) as [N L].
  split; [apply nn_zero_leb; exact N|].
  split; [exact L|].
  split; [apply nn_zero_leb; apply real_flow_nn; exact N|].
  split.
  - apply leb_trans with (real_flow SimulationCode.H_MAX).
    + apply real_flow_mono;
        [exact N | apply posfin_nn; exact sim_posfin_H_MAX | exact L].
    + vm_compute. reflexivity.
  - apply display_pressure_castable; [exact N | exact L].
Qed.

(** X15.  In the real mode a higher reading never gives a lower height or a lower
    flow (for readings whose distance to the zero point fits a [long]). *)
Theorem runReal_monotone (st : SimulationCode.State) (r1 r2 : Z) :
  in_long (r1 - SimulationCode.zeroPoint st) ->
  in_long (r2 - SimulationCode.zeroPoint st) ->
  r1 <= r2 ->
  F32.leb (SimulationCode.out_h (SimulationCode.runReal st r1))
          (SimulationCode.out_h (SimulationCode.runReal st r2)) = true /\
  F32.leb (SimulationCode.out_Q (SimulationCode.runReal st r1))
          (SimulationCode.out_Q (SimulationCode.runReal st r2)) = true.
Proof.
  intros H1 H2 H. rewrite !runReal_stages.
  cbn [SimulationCode.out_h SimulationCode.out_Q].
  assert (V : 0 <= real_value st r1 <= real_value st r2).
  { rewrite (real_value_exact _ _ H1), (real_value_exact _ _ H2). lia. }
  pose proof (real_height_mono _ _ V) as M.
  destruct (real_height_range (real_value st r1) ltac:(lia)) as [N1 _].
  destruct (real_height_range (real_value st r2) ltac:(lia)) as [N2 _].
  split; [exact M|].
  apply real_flow_mono; [exact N1 | exact N2 | exact M].
Qed.

Lemma runReal_monotone_witness :
  F32.leb (SimulationCode.out_Q
             (SimulationCode.runReal
                {| SimulationCode.zeroPoint := 500;
                   SimulationCode.isRealMode := true;
                   SimulationCode.simIndex := 0 |} 2000))
          (SimulationCode.out_Q
             (SimulationCode.runReal
                {| SimulationCode.zeroPoint := 500;
                   SimulationCode.isRealMode := true;
                   SimulationCode.simIndex := 0 |} 7000)) = true.
Proof.
  apply (runReal_monotone
           {| SimulationCode.zeroPoint := 500;
              SimulationCode.isRealMode := true;
              SimulationCode.simIndex := 0 |} 2000 7000).
  - unfold in_long, LONG_MIN, LONG_MAX. simpl. lia.
  - unfold in_long, LONG_MIN, LONG_MAX. simpl. lia.
  - lia.
Defined.

Lemma lex3_Eq (a b : Z * Z * Z) : lex3 a b = Eq -> a = b.
Proof.
  destruct a as [[a1 a2] a3], b as [[b1 b2] b3]. simpl.
  destruct (a1 ?= b1) eqn:E1; try discriminate.
  destruct (a2 ?= b2) eqn:E2; try discriminate.
  intros E3. apply Z.compare_eq in E1, E2, E3. congruence.
Qed.

Lemma leb_antisym_posfin (a b : float) :
  posfin a -> F32.leb a b = true -> F32.leb b a = true -> b = a.
Proof.
  intros P. unfold F32.leb, SFleb. rewrite !SFcompare_key.
  destruct (key a) as [ka|] eqn:Ka; [|discriminate].
  destruct (key b) as [kb|] eqn:Kb; [|discriminate].
  rewrite (lex3_antisym ka kb).
  destruct (lex3 ka kb) eqn:E; simpl; try discriminate.
  intros _ _. apply lex3_Eq in E. subst kb.
  destruct a as [?|?| |[] ma ea]; simpl in P; try tauto.
  destruct b as [?|[]| |[] mb eb]; simpl in Ka, Kb; congruence.
Qed.

(** X16.  The three regimes of the real mode (for a reading whose distance to the
    zero point fits a [long]): at or below the zero point the height and the
    flow are exactly 0; above it both are positive; from 9000 counts above
    it the height is [H_MAX] and the flow [K_FACTOR * sqrt(H_MAX)]. *)
Theorem runReal_regimes (st : SimulationCode.State) (r : Z) :
  in_long (r - SimulationCode.zeroPoint st) ->
  let o := SimulationCode.runReal st r in
  (r <= SimulationCode.zeroPoint st ->
   SimulationCode.out_h o = F32.zero /\ SimulationCode.out_Q o = F32.zero) /\
  (SimulationCode.zeroPoint st < r ->
   F32.ltb F32.zero (SimulationCode.out_h o) = true /\
   F32.ltb F32.zero (SimulationCode.out_Q o) = true) /\
  (SimulationCode.zeroPoint st + 9000 <= r ->
   SimulationCode.out_h o = SimulationCode.H_MAX /\
   SimulationCode.out_Q o =
     F32.mul SimulationCode.K_FACTOR (F32.sqrt SimulationCode.H_MAX)).
Proof.
  intros Hl. cbv zeta. rewrite runReal_stages.
  cbn [SimulationCode.out_h SimulationCode.out_Q].
  rewrite (real_value_exact _ _ Hl).
  split; [|split].
  - intros H. replace (Z.max 0 (r - SimulationCode.zeroPoint st)) with 0 by lia.
    split; vm_compute; reflexivity.
  - intros H.
    assert (V : 0 <= 1 <= Z.max 0 (r - SimulationCode.zeroPoint st)) by lia.
    pose proof (real_height_mono _ _ V) as M.
    destruct (real_height_range (Z.max 0 (r - SimulationCode.zeroPoint st))
                ltac:(lia)) as [N _].
    assert (Hh : F32.ltb F32.zero
                   (real_height (Z.max 0 (r - SimulationCode.zeroPoint st)))
                 = true).
    { apply ltb_leb_trans with (real_height 1);
        [vm_compute; reflexivity | exact M]. }
    split; [exact Hh|].
    apply ltb_leb_trans with (real_flow (real_height 1));
      [vm_compute; reflexivity|].
    apply real_flow_mono; [vm_compute; reflexivity | exact N | exact M].
  - intros H.
    assert (V : 0 <= 9000 <= Z.max 0 (r - SimulationCode.zeroPoint st)) by lia.
    pose proof (real_height_mono _ _ V) as M.
    destruct (real_height_range (Z.max 0 (r - SimulationCode.zeroPoint st))
                ltac:(lia)) as [N L].
    assert (E : real_height (Z.max 0 (r - SimulationCode.zeroPoint st))
                = SimulationCode.H_MAX).
    { apply leb_antisym_posfin; [exact sim_posfin_H_MAX | | exact L].
      apply leb_trans with (real_height 9000);
        [vm_compute; reflexivity | exact M]. }
    rewrite E. split; [reflexivity | vm_compute; reflexivity].
Qed.

Lemma runReal_regimes_witness :
  SimulationCode.out_h
    (SimulationCode.runReal
       {| SimulationCode.zeroPoint := 500;
          SimulationCode.isRealMode := true;
          SimulationCode.simIndex := 0 |} 12000) = SimulationCode.H_MAX.
Proof.
  apply (runReal_regimes
           {| SimulationCode.zeroPoint := 500;
              SimulationCode.isRealMode := true;
              SimulationCode.simIndex := 0 |} 12000).
  - unfold in_long, LONG_MIN, LONG_MAX. simpl. lia.
  - simpl. lia.
Defined.

(** ** The simulated curve *)

Lemma H_VALS_length : length SimulationCode.H_VALS = 51%nat.
Proof. vm_compute. reflexivity. Qed.

Lemma Q_VALS_length : length SimulationCode.Q_VALS = 51%nat.
Proof. vm_compute. reflexivity. Qed.

Lemma runSim_in_table (st : SimulationCode.State) :
  0 <= SimulationCode.simIndex st <= 50 ->
  exists h Q,
    nth_error SimulationCode.H_VALS (Z.to_nat (SimulationCode.simIndex st))
      = Some h /\
    nth_error SimulationCode.Q_VALS (Z.to_nat (SimulationCode.simIndex st))
      = Some Q /\
    SimulationCode.runSim st =
      Some ({| SimulationCode.zeroPoint := SimulationCode.zeroPoint st;
               SimulationCode.isRealMode := SimulationCode.isRealMode st;
               SimulationCode.simIndex :=
                 Z.min (SimulationCode.simIndex st + 1) 50 |},
            {| SimulationCode.out_Q := Q; SimulationCode.out_h := h;
               SimulationCode.out_isSim := true;
               SimulationCode.out_p := SimulationCode.display_pressure h |}).
Proof.
  intros Hi. unfold SimulationCode.runSim.
  destruct (nth_error SimulationCode.H_VALS
              (Z.to_nat (SimulationCode.simIndex st))) as [h|] eqn:Eh.
  2:{ apply nth_error_None in Eh. rewrite H_VALS_length in Eh. lia. }
  destruct (nth_error SimulationCode.Q_VALS
              (Z.to_nat (SimulationCode.simIndex st))) as [Q|] eqn:Eq.
  2:{ apply nth_error_None in Eq. rewrite Q_VALS_length in Eq. lia. }
  exists h, Q. split; [reflexivity|]. split; [reflexivity|].
  destruct (Z.ltb_spec (SimulationCode.simIndex st) 0); [lia|].
  cbv zeta. rewrite wrap_int_small by lia.
  unfold SimulationCode.TOTAL_POINTS.
  destruct (Z.leb_spec 51 (SimulationCode.simIndex st + 1)).
  - replace (Z.min (SimulationCode.simIndex st + 1) 50) with (51 - 1) by lia.
    reflexivity.
  - replace (Z.min (SimulationCode.simIndex st + 1) 50)
      with (SimulationCode.simIndex st + 1) by lia.
    reflexivity.
Qed.

Lemma simulate_steps (k : nat) :
  forall st : SimulationCode.State,
    0 <= SimulationCode.simIndex st <= 50 ->
    exists st' os,
      SimulationCode.simulate k st = Some (st', os) /\
      SimulationCode.simIndex st' =
        Z.min (SimulationCode.simIndex st + Z.of_nat k) 50 /\
      length os = k /\
      forall (i : nat) (o : SimulationCode.Output),
        nth_error os i = Some o ->
        SimulationCode.out_isSim o = true /\
        nth_error SimulationCode.H_VALS
          (Z.to_nat (Z.min (SimulationCode.simIndex st + Z.of_nat i) 50))
          = Some (SimulationCode.out_h o) /\
        nth_error SimulationCode.Q_VALS
          (Z.to_nat (Z.min (SimulationCode.simIndex st + Z.of_nat i) 50))
          = Some (SimulationCode.out_Q o) /\
        SimulationCode.out_p o =
          SimulationCode.display_pressure (SimulationCode.out_h o).
Proof.
  induction k as [|k IH]; intros st Hi.
  - exists st, []. split; [reflexivity|]. split; [lia|].
    split; [reflexivity|]. intros [|i] o H; discriminate H.
  - destruct (runSim_in_table st Hi) as (h & Q & Eh & Eq & Er).
    cbn [SimulationCode.simulate]. rewrite Er.
    set (st1 := {| SimulationCode.zeroPoint := SimulationCode.zeroPoint st;
                   SimulationCode.isRealMode := SimulationCode.isRealMode st;
                   SimulationCode.simIndex :=
                     Z.min (SimulationCode.simIndex st + 1) 50 |}).
    assert (H1 : 0 <= SimulationCode.simIndex st1 <= 50)
      by (unfold st1; cbn [SimulationCode.simIndex]; lia).
    destruct (IH st1 H1) as (st' & os & Es & Ei & El & Eo).
    rewrite Es. eexists; eexists. split; [reflexivity|].
    split; [rewrite Ei; unfold st1; cbn [SimulationCode.simIndex]; lia|].
    split; [cbn [length]; rewrite El; reflexivity|].
    intros [|i] o H.
    + cbn [nth_error] in H. injection H as <-.
      cbn [SimulationCode.out_isSim SimulationCode.out_h SimulationCode.out_Q
           SimulationCode.out_p].
      replace (Z.min (SimulationCode.simIndex st + Z.of_nat 0) 50)
        with (SimulationCode.simIndex st) by lia.
      split; [reflexivity|]. split; [exact Eh|]. split; [exact Eq|reflexivity].
    + cbn [nth_error] in H. destruct (Eo i o H) as (A & B & C & D).
      replace (Z.min (SimulationCode.simIndex st + Z.of_nat (S i)) 50)
        with (Z.min (SimulationCode.simIndex st1 + Z.of_nat i) 50)
        by (unfold st1; cbn [SimulationCode.simIndex]; lia).
      split; [exact A|]. split; [exact B|]. split; [exact C|exact D].
Qed.

(** X17.  From an index inside the tables the simulation never reads outside
    them: any number [k] of steps runs, produces [k] outputs, and leaves the
    index at [min (index + k) 50], so that the curve is held at its last
    point. *)
Theorem simulation_stays_in_tables (k : nat) (st : SimulationCode.State) :
  0 <= SimulationCode.simIndex st <= 50 ->
  exists st' os,
    SimulationCode.simulate k st = Some (st', os) /\
    length os = k /\
    SimulationCode.simIndex st' =
      Z.min (SimulationCode.simIndex st + Z.of_nat k) 50 /\
    SimulationCode.zeroPoint st' = SimulationCode.zeroPoint st /\
    SimulationCode.isRealMode st' = SimulationCode.isRealMode st.
Proof.
  revert st. induction k as [|k IH]; intros st Hi.
  - exists st, []. repeat split; try reflexivity. lia.
  - destruct (runSim_in_table st Hi) as (h & Q & _ & _ & Er).
    cbn [SimulationCode.simulate]. rewrite Er.
    set (st1 := {| SimulationCode.zeroPoint := SimulationCode.zeroPoint st;
                   SimulationCode.isRealMode := SimulationCode.isRealMode st;
                   SimulationCode.simIndex :=
                     Z.min (SimulationCode.simIndex st + 1) 50 |}).
    assert (H1 : 0 <= SimulationCode.simIndex st1 <= 50)
      by (unfold st1; cbn [SimulationCode.simIndex]; lia).
    destruct (IH st1 H1) as (st' & os & Es & El & Ei & Ez & Em).
    rewrite Es. eexists; eexists. split; [reflexivity|].
    split; [cbn [length]; rewrite El; reflexivity|].
    split; [rewrite Ei; unfold st1; cbn [SimulationCode.simIndex]; lia|].
    split; [rewrite Ez; reflexivity | rewrite Em; reflexivity].
Qed.

Lemma simulation_stays_in_tables_witness :
  exists st' os,
    SimulationCode.simulate 60 (SimulationCode.decide 0 []) = Some (st', os) /\
    length os = 60%nat /\
    SimulationCode.simIndex st' =
      Z.min (SimulationCode.simIndex (SimulationCode.decide 0 []) +
             Z.of_nat 60) 50 /\
    SimulationCode.zeroPoint st' =
      SimulationCode.zeroPoint (SimulationCode.decide 0 []) /\
    SimulationCode.isRealMode st' =
      SimulationCode.isRealMode (SimulationCode.decide 0 []).
Proof.
  apply (simulation_stays_in_tables 60 (SimulationCode.decide 0 [])).
  simpl. lia.
Defined.

Lemma table_heights_displayable :
  Forall (fun h => nn h /\ F32.leb h SimulationCode.H_MAX = true)
         SimulationCode.H_VALS.
Proof.
  apply Forall_forall. intros h Hin.
  assert (B : forallb (fun h => match h with
                                | S754_zero _ => true
                                | S754_finite false m e => bounded 24 128 m e
                                | _ => false
                                end && F32.leb h SimulationCode.H_MAX)
                      SimulationCode.H_VALS = true)
    by (vm_compute; reflexivity).
  rewrite forallb_forall in B. specialize (B h Hin).
  apply andb_prop in B. destruct B as [B1 B2]. split; [|exact B2].
  destruct h as [?|?| |[] m e]; try discriminate B1; simpl; auto.
Qed.

(** X18.  In the simulation the [i]-th output is the pair of table entries of
    index [min (index + i) 50], marked as simulated; its height lies between
    0 and [H_MAX], and the cast [(int)p] of the display is defined. *)
Theorem simulated_outputs (k : nat) (st st' : SimulationCode.State)
    (os : list SimulationCode.Output) (i : nat) (o : SimulationCode.Output) :
  0 <= SimulationCode.simIndex st <= 50 ->
  SimulationCode.simulate k st = Some (st', os) ->
  nth_error os i = Some o ->
  SimulationCode.out_isSim o = true /\
  nth_error SimulationCode.H_VALS
    (Z.to_nat (Z.min (SimulationCode.simIndex st + Z.of_nat i) 50))
    = Some (SimulationCode.out_h o) /\
  nth_error SimulationCode.Q_VALS
    (Z.to_nat (Z.min (SimulationCode.simIndex st + Z.of_nat i) 50))
    = Some (SimulationCode.out_Q o) /\
  F32.leb F32.zero (SimulationCode.out_h o) = true /\
  F32.leb (SimulationCode.out_h o) SimulationCode.H_MAX = true /\
  SimulationCode.int_castable (SimulationCode.out_p o) = true.
Proof.
  intros Hi Hs Ho.
  destruct (simulate_steps k st Hi) as (st2 & os2 & Es & _ & _ & Eo).
  rewrite Hs in Es. injection Es as <- <-.
  destruct (Eo i o Ho) as (A & B & C & D).
  split; [exact A|]. split; [exact B|]. split; [exact C|].
  pose proof table_heights_displayable as T. rewrite Forall_forall in T.
  destruct (T _ (nth_error_In _ _ B)) as [N L].
  split; [apply nn_zero_leb; exact N|]. split; [exact L|].
  rewrite D. apply display_pressure_castable; [exact N | exact L].
Qed.

Lemma simulated_outputs_witness :
  SimulationCode.out_isSim
    {| SimulationCode.out_Q := F32.lit 22 1000;
       SimulationCode.out_h := F32.lit 35 10000;
       SimulationCode.out_isSim := true;
       SimulationCode.out_p :=
         SimulationCode.display_pressure (F32.lit 35 10000) |} = true.
Proof.
  apply (simulated_outputs 4 (SimulationCode.decide 0 [])
           match SimulationCode.simulate 4 (SimulationCode.decide 0 []) with
           | Some (st', _) => st'
           | None => SimulationCode.decide 0 []
           end
           match SimulationCode.simulate 4 (SimulationCode.decide 0 []) with
           | Some (_, os) => os
           | None => []
           end
           2%nat).
  - simpl. lia.
  - vm_compute. reflexivity.
  - vm_compute. reflexivity.
Defined.

(** ** The zero point and the choice of the mode *)

Lemma auto_zero_total (readings : list Z) :
  forall total : Z,
    fold_left (fun total r => wrap_long (total + r)) readings
              (wrap_long total)
    = wrap_long (total + zsum readings).
Proof.
  induction readings as [|r rest IH]; intros total.
  - cbn [fold_left zsum fold_right]. f_equal. lia.
  - cbn [fold_left zsum fold_right]. fold (zsum rest).
    rewrite wrap_long_add_l, IH. f_equal. lia.
Qed.

(** X19.  The zero point taken from ten readings lies between the smallest and
    the largest of them (for readings of at most 200000000 in magnitude,
    whose sum fits a [long]). *)
Theorem auto_zero_between_readings (readings : list Z) (lo hi : Z) :
  length readings = 10%nat ->
  Forall (fun r => lo <= r <= hi) readings ->
  -200000000 <= lo -> hi <= 200000000 ->
  lo <= SimulationCode.auto_zero readings <= hi.
Proof.
  intros Hlen F Hlo Hhi.
  pose proof (zsum_bounds lo hi readings F) as B. rewrite Hlen in B.
  assert (I : in_long (zsum readings))
    by (unfold in_long, LONG_MIN, LONG_MAX; lia).
  assert (E : SimulationCode.auto_zero readings = Z.quot (zsum readings) 10).
  { unfold SimulationCode.auto_zero.
    rewrite (auto_zero_total readings 0 : fold_left _ readings 0 = _).
    rewrite Z.add_0_l, (wrap_long_small _ I). reflexivity. }
  rewrite E. split.
  - apply Z.le_trans with (Z.quot (lo * 10) 10);
      [rewrite Z.quot_mul; lia | apply Z.quot_le_mono; lia].
  - apply Z.le_trans with (Z.quot (hi * 10) 10);
      [apply Z.quot_le_mono; lia | rewrite Z.quot_mul; lia].
Qed.

Lemma auto_zero_between_readings_witness :
  498 <= SimulationCode.auto_zero [500; 502; 499; 498; 501; 500; 503; 499; 500; 501]
      <= 503.
Proof.
  apply (auto_zero_between_readings
           [500; 502; 499; 498; 501; 500; 503; 499; 500; 501] 498 503).
  - reflexivity.
  - repeat constructor; lia.
  - lia.
  - lia.
Defined.

Lemma validSamples_count (zero : Z) (readings : list Z) :
  forall count : Z,
    0 <= count -> count + Z.of_nat (length readings) <= LONG_MAX ->
    fold_left (fun count r =>
                 if 100 <? wrap_long (r - zero) then wrap_long (count + 1)
                 else count) readings count
    = count + Z.of_nat (length (filter (wet zero) readings)).
Proof.
  induction readings as [|r rest IH]; intros count H0 H.
  - cbn [fold_left filter length]. lia.
  - cbn [fold_left filter length] in *. unfold wet at 1.
    destruct (100 <? wrap_long (r - zero)).
    + assert (I : in_long (count + 1))
        by (unfold in_long, LONG_MIN, LONG_MAX in *; lia).
      rewrite (wrap_long_small _ I), IH by lia. cbn [length]. lia.
    + rewrite IH by lia. lia.
Qed.

(** X20.  The analysis phase counts the readings more than 100 above the zero
    point, and the sketch runs in real mode exactly when more than ten of
    the readings are; in either case the simulation index starts at 0. *)
Theorem decide_real_mode (zero : Z) (readings : list Z) :
  Z.of_nat (length readings) <= LONG_MAX ->
  SimulationCode.validSamples zero readings
    = Z.of_nat (length (filter (wet zero) readings)) /\
  (SimulationCode.isRealMode (SimulationCode.decide zero readings) = true <->
   (10 < length (filter (wet zero) readings))%nat) /\
  SimulationCode.simIndex (SimulationCode.decide zero readings) = 0.
Proof.
  intros H.
  assert (E : SimulationCode.validSamples zero readings
              = Z.of_nat (length (filter (wet zero) readings))).
  { unfold SimulationCode.validSamples.
    rewrite validSamples_count by lia. lia. }
  split; [exact E|]. split; [|reflexivity].
  unfold SimulationCode.decide. cbn [SimulationCode.isRealMode].
  rewrite E. rewrite Z.ltb_lt. lia.
Qed.

Lemma decide_real_mode_witness :
  SimulationCode.simIndex (SimulationCode.decide 500 [700; 400; 650]) = 0.
Proof.
  apply (decide_real_mode 500 [700; 400; 650]).
  unfold LONG_MAX. simpl. lia.
Defined.
